(** * Chunked streaming transfer scripts: a shallow embedding

    The development follows the Python sources file by file:
    - [Jfrog]   embeds [jjdffg.py]  (chunk-size advisor, retrying upload,
                post-upload validation, directory scheduler);
    - [Script2] embeds [script2.py] (memory-based chunk sizes, the
                streaming zip builder and its quick validation);
    - [Nexus]   embeds [create_zip_archive] of [nexus-upload-script.py].

    Python integers are unbounded, so they are [Z].  Python floats are IEEE
    binary64 values; they are modelled by [spec_float] with the rounding
    functions of the standard library instantiated at precision 53.
    Calls that leave the process (HTTP, file system, memory statistics)
    are parameters of the embedded functions: a scripted environment that
    tells what each call answers.  The functions return, next to their
    Python result, the list of the calls they made, which the statements
    read; logging, progress bars and timing printouts are left out. *)

From Stdlib Require Import ZArith Lia List Ascii String SpecFloat.
From Stdlib Require Import Sorting.Sorted Sorting.Permutation.
From stdpp Require Import gmap strings list.

Local Open Scope Z_scope.

(** ** Python string methods used by the scripts

    Paths and response bodies are byte strings; [lower] is the ASCII
    lower-casing. *)

Module PyStr.

Definition lower_ascii (c : ascii) : ascii :=
  let n := nat_of_ascii c in
  if ((65 <=? n) && (n <=? 90))%nat then ascii_of_nat (n + 32) else c.

Fixpoint lower (s : string) : string :=
  match s with
  | EmptyString => EmptyString
  | String c s' => String (lower_ascii c) (lower s')
  end.

(** [s.endswith(suffix)] *)
Fixpoint endswith (s suffix : string) : bool :=
  String.eqb s suffix ||
  match s with
  | EmptyString => false
  | String _ s' => endswith s' suffix
  end.

(** [needle in s] *)
Fixpoint contains (needle s : string) : bool :=
  String.prefix needle s ||
  match s with
  | EmptyString => false
  | String _ s' => contains needle s'
  end.

(** [s.lstrip(c)] for a one-character argument *)
Fixpoint lstrip (c : ascii) (s : string) : string :=
  match s with
  | String a s' => if Ascii.eqb a c then lstrip c s' else s
  | EmptyString => EmptyString
  end.

(** [s.rstrip(c)] for a one-character argument *)
Fixpoint rstrip (c : ascii) (s : string) : string :=
  match s with
  | EmptyString => EmptyString
  | String a s' =>
      match rstrip c s' with
      | EmptyString => if Ascii.eqb a c then EmptyString else String a EmptyString
      | t => String a t
      end
  end.

(** [s.replace(a, b)] for one-character arguments *)
Fixpoint replace (a b : ascii) (s : string) : string :=
  match s with
  | EmptyString => EmptyString
  | String c s' => String (if Ascii.eqb c a then b else c) (replace a b s')
  end.

(** [os.path.basename(p)], which is also [p.split('/')[-1]]: what follows
    the last separator. *)
Fixpoint basename (p : string) : string :=
  match p with
  | EmptyString => EmptyString
  | String c p' =>
      if contains "/" p' then basename p'
      else if Ascii.eqb c "/" then p' else p
  end.

(** [s.split('/')] *)
Fixpoint split_slash (s : string) : list string :=
  match s with
  | EmptyString => [EmptyString]
  | String c s' =>
      if Ascii.eqb c "/" then EmptyString :: split_slash s'
      else
        match split_slash s' with
        | part :: parts => String c part :: parts
        | [] => [String c EmptyString]
        end
  end.

(** [Path(p).name] on POSIX: the last component of [p] once the empty
    components and the components [.] are dropped, so that a trailing
    separator does not count; the empty string when nothing is left. *)
Definition path_name (p : string) : string :=
  List.last (List.filter (fun part => negb (String.eqb part "") && negb (String.eqb part "."))
                         (split_slash p))
            EmptyString.

Definition backslash : ascii := ascii_of_nat 92.

(** [posixpath.join(a, b)] *)
Definition path_join (a b : string) : string :=
  if String.prefix "/" b then b
  else if String.eqb a "" || endswith a "/" then a ++ b
  else a ++ "/" ++ b.

End PyStr.

(** ** Python list sorting

    [sorted] and [list.sort] are stable; so is insertion from the right
    with a non-strict test. *)

Module PyList.

Fixpoint insert_le {A} (le : A -> A -> bool) (x : A) (l : list A) : list A :=
  match l with
  | [] => [x]
  | y :: l' => if le x y then x :: l else y :: insert_le le x l'
  end.

Definition sort_le {A} (le : A -> A -> bool) (l : list A) : list A :=
  fold_right (insert_le le) [] l.

End PyList.

(** ** Python float arithmetic (binary64) *)

Module PyFloat.

Definition prec : Z := 53.
Definition emax : Z := 1024.

(** Outcome of an expression that may raise: [None] is "an exception was
    raised" (every use below sits under [except Exception]). *)
Definition raising (A : Type) := option A.

(** [float(z)]: round to nearest even, [OverflowError] when out of range. *)
Definition of_int (z : Z) : raising spec_float :=
  match binary_normalize prec emax z 0 false with
  | S754_infinity _ => None
  | f => Some f
  end.

Definition mul (x y : spec_float) : spec_float := SFmul prec emax x y.

Definition is_zero (x : spec_float) : bool :=
  match x with S754_zero _ => true | _ => false end.

(** [x / y] on floats: [ZeroDivisionError] on a zero divisor. *)
Definition div (x y : spec_float) : raising spec_float :=
  if is_zero y then None else Some (SFdiv prec emax x y).

(** [int(x)]: truncation toward zero; raises on infinities and NaN. *)
Definition to_int (x : spec_float) : raising Z :=
  match x with
  | S754_zero _ => Some 0
  | S754_finite s m e =>
      let a := if 0 <=? e then Z.shiftl (Zpos m) e else Z.shiftr (Zpos m) (- e) in
      Some (cond_Zopp s a)
  | S754_infinity _ | S754_nan => None
  end.

(** [z < x] for an int [z] and a float [x]; Python compares the exact
    mathematical values. *)
Definition int_lt (z : Z) (x : spec_float) : bool :=
  match x with
  | S754_nan => false
  | S754_infinity s => negb s
  | S754_zero _ => z <? 0
  | S754_finite s m e =>
      let v := cond_Zopp s (Zpos m) in
      if 0 <=? e then z <? Z.shiftl v e else Z.shiftl z (- e) <? v
  end.

(** The literals of the source. *)
Definition lit_0_1 : spec_float := S754_finite false 7205759403792794 (-56).
Definition lit_0_8 : spec_float := S754_finite false 7205759403792794 (-53).
Definition lit_0_25 : spec_float := S754_finite false 4503599627370496 (-54).

End PyFloat.

(** ** Reading a binary file in chunks

    A file opened with ['rb'] (or mapped with [mmap]) is the list of its
    bytes that are still to be read. *)

Module PyFile.

(** [f.read(n)]: at most [n] bytes, all that is left when [n] is negative;
    the second component is what is left afterwards. *)
Definition read (n : Z) (rest : list Byte.byte) : list Byte.byte * list Byte.byte :=
  if n <? 0 then (rest, [])
  else (firstn (Z.to_nat n) rest, skipn (Z.to_nat n) rest).

(** The loop [while True: chunk = f.read(n); if not chunk: break; ...],
    also written [iter(lambda: f.read(n), b'')]: the chunks it goes
    through.  [fuel] bounds the number of reads. *)
Fixpoint read_loop (fuel : nat) (n : Z) (rest : list Byte.byte) : list (list Byte.byte) :=
  match fuel with
  | O => []
  | S fuel =>
      let '(chunk, rest') := read n rest in
      match chunk with
      | [] => []
      | _ :: _ => chunk :: read_loop fuel n rest'
      end
  end.

(** Every read but the last takes at least one byte, so one read more than
    there are bytes is enough. *)
Definition chunks (n : Z) (data : list Byte.byte) : list (list Byte.byte) :=
  read_loop (S (length data)) n data.

End PyFile.

(** ** Parsing the command line *)

Module PyArgparse.

(** What [parser.parse_args()] comes to: the arguments, or the end of the
    script, with status 2 when the command line is refused (an option that
    is required is missing, a value has the wrong type) and with status 0
    after [--help]. *)
Inductive parsed (A : Type) :=
  | Parsed (args : A)
  | Refused
  | Help.

Arguments Parsed {A} args.
Arguments Refused {A}.
Arguments Help {A}.

End PyArgparse.

(** ** jjdffg.py *)

Module Jfrog.

Import PyFloat.

(** *** Constants *)

Definition DEFAULT_CONCURRENT_UPLOADS : Z := 3.
Definition DEFAULT_STREAMS : Z := 5.
Definition DEFAULT_CHUNK_SIZE : Z := 4 * 1024 * 1024.
Definition DEFAULT_LARGE_FILE_THRESHOLD : Z := 100 * 1024 * 1024.
Definition MAX_RETRIES : nat := 3.
Definition RETRY_BACKOFF_FACTOR : Z := 1.
Definition MIN_CHUNK_SIZE : Z := 1 * 1024 * 1024.
Definition MAX_CHUNK_SIZE : Z := 64 * 1024 * 1024.

(** *** calculate_optimal_chunk_size *)

(** What [psutil.virtual_memory()] answers. *)
Record svmem := { total : Z; available : Z }.

(** [usable_mem] is an int after [usable_mem = available_mem] and a float
    after [usable_mem = total_mem * 0.1]. *)
Inductive number := PyInt (z : Z) | PyFlt (x : spec_float).

Definition to_float (n : number) : raising spec_float :=
  match n with
  | PyInt z => of_int z
  | PyFlt x => Some x
  end.

(** The clamp and the rounding to whole MiB that close the [try] body. *)
Definition clamp_and_round (chunk_size : Z) : Z :=
  let chunk_size := Z.max MIN_CHUNK_SIZE (Z.min MAX_CHUNK_SIZE chunk_size) in
  (chunk_size / (1024 * 1024)) * (1024 * 1024).

(** The body of the [try]: [None] when any step raises. *)
Definition chunk_size_try (mem : raising svmem) (streams : Z) : raising Z :=
  match mem with
  | None => None
  | Some mem =>
    let total_mem := total mem in
    let available_mem := available mem in
    match of_int total_mem with
    | None => None
    | Some ftotal =>
      let tenth := mul ftotal lit_0_1 in
      let usable_mem :=
        if int_lt available_mem tenth then PyFlt tenth else PyInt available_mem in
      match to_float usable_mem with
      | None => None
      | Some u =>
        let usable_mem := mul u lit_0_8 in
        match of_int streams with
        | None => None
        | Some fstreams =>
          match div usable_mem fstreams with
          | None => None
          | Some mem_per_stream =>
            match to_int (mul mem_per_stream lit_0_25) with
            | None => None
            | Some chunk_size => Some (clamp_and_round chunk_size)
            end
          end
        end
      end
    end
  end.

Definition calculate_optimal_chunk_size (mem : raising svmem) (streams : Z) : Z :=
  match chunk_size_try mem streams with
  | Some chunk_size => chunk_size
  | None => DEFAULT_CHUNK_SIZE
  end.

(** *** The environment of an upload

    The HTTP session and the file system are scripted: [put] tells what
    the [retry]-th PUT of a file answers when sent with the given
    headers, [head] what the HEAD request of the validation answers. *)

Inductive put_result :=
  | PutRaises
  | PutResponse (status_code : Z) (text : string).

(** [content_length] is [None] when the header is absent; when present it
    carries the outcome of [int(...)] on its value. *)
Inductive head_result :=
  | HeadRaises
  | HeadResponse (status_code : Z) (content_length : option (raising Z)).

Record file_env := {
  exists_ : bool;                                   (* file_path.exists() *)
  st_size : raising Z;                              (* file_path.stat().st_size *)
  md5 : raising string;                             (* calculate_md5 *)
  put : nat -> gmap string string -> put_result;    (* session.put *)
  head : head_result;                               (* session.head *)
  getsize : raising Z                               (* os.path.getsize in the validation *)
}.

Inductive event :=
  | EvPut (url : string) (headers : gmap string string)
  | EvSleep (seconds : Z)
  | EvTrackerClose
  | EvHead (url : string)
  | EvAcquire                                         (* large_file_lock taken *)
  | EvRelease.

Definition is_put (e : event) : bool :=
  match e with EvPut _ _ => true | _ => false end.

(** Number of PUT requests sent: the attempts of an upload. *)
Definition attempts (tr : list event) : nat := length (List.filter is_put tr).

Definition is_network (e : event) : bool :=
  match e with EvPut _ _ | EvHead _ => true | _ => false end.

(** *** JFrogUploader._validate_upload *)

Definition _validate_upload (fe : file_env) : bool :=
  match head fe with
  | HeadRaises => false
  | HeadResponse status_code content_length =>
      if negb (status_code =? 200) then false
      else
        match getsize fe with
        | None => false
        | Some local_file_size =>
            match content_length with
            | Some (Some server_file_size) =>
                if server_file_size =? local_file_size then true else false
            | Some None => false
            | None => true
            end
        end
  end.

(** *** JFrogUploader._upload_with_streaming *)

Definition initial_headers (md5_hash : string) : gmap string string :=
  <["X-Checksum-Md5" := md5_hash]>
    (<["Content-Type" := "application/octet-stream"]> ∅).

Definition status_ok (status_code : Z) : bool :=
  (status_code =? 200) || (status_code =? 201).

Definition backoff_time (retry : nat) : Z :=
  RETRY_BACKOFF_FACTOR * 2 ^ Z.of_nat retry.

(** The [for retry in range(MAX_RETRIES)] loop over the retries still to
    run; [headers] is the one dictionary shared by all iterations. *)
Fixpoint upload_loop (fe : file_env) (url : string) (retries : list nat)
         (headers : gmap string string) : bool * list event :=
  match retries with
  | [] => (false, [EvTrackerClose])
  | retry :: rest =>
      match put fe retry headers with
      | PutResponse status_code text =>
          if status_ok status_code then
            (_validate_upload fe, [EvPut url headers; EvTrackerClose; EvHead url])
          else
            let headers' :=
              if PyStr.contains "checksum" (PyStr.lower text)
              then <["X-Checksum-Deploy" := "true"]> headers
              else headers in
            let '(r, tr) := upload_loop fe url rest headers' in
            (r, EvPut url headers :: EvSleep (backoff_time retry) :: tr)
      | PutRaises =>
          let '(r, tr) := upload_loop fe url rest headers in
          (r, EvPut url headers :: EvSleep (backoff_time retry) :: tr)
      end
  end.

Definition _upload_with_streaming (fe : file_env) (url md5_hash : string)
  : bool * list event :=
  upload_loop fe url (seq 0 MAX_RETRIES) (initial_headers md5_hash).

(** *** Outcomes of one PUT, for the statements about the retry loop *)

Definition put_fails (r : put_result) : Prop :=
  match r with
  | PutRaises => True
  | PutResponse status_code _ => status_ok status_code = false
  end.

Definition put_succeeds (r : put_result) : Prop :=
  match r with
  | PutRaises => False
  | PutResponse status_code _ => status_ok status_code = true
  end.

(** *** JFrogUploader.upload_file *)

Record uploader := {
  base_url : string;
  repo_name : string;
  max_workers : Z;
  large_threshold : Z;
  chunk_size : Z              (* size of the reads of the streamed body *)
}.

(** [JFrogUploader.__init__]; [mem] is what [psutil.virtual_memory()]
    answers when no chunk size is given. *)
Definition JFrogUploader_init (base_url repo_name : string)
           (max_workers large_threshold : Z) (chunk_size : option Z)
           (mem : raising svmem) : uploader :=
  {| base_url := PyStr.rstrip "/" base_url;
     repo_name := repo_name;
     max_workers := max_workers;
     large_threshold := large_threshold;
     chunk_size :=
       match chunk_size with
       | None => calculate_optimal_chunk_size mem (Z.max max_workers DEFAULT_STREAMS)
       | Some c => c
       end |}.

Definition make_url (u : uploader) (target_path : string) : string :=
  base_url u ++ "/artifactory/" ++ repo_name u ++ "/" ++ target_path.

(** The result is [None] when the call raises: the [stat] sits before the
    [try]. *)
Definition upload_file (u : uploader) (env : string -> file_env)
           (file_path : string) (target_path : option string)
  : raising bool * list event :=
  let fe := env file_path in
  if negb (exists_ fe) then (Some false, [])
  else
    match st_size fe with
    | None => (None, [])
    | Some file_size =>
        let target_path :=
          match target_path with
          | None => PyStr.path_name file_path
          | Some t => t
          end in
        let target_path := PyStr.lstrip "/" target_path in
        let url := make_url u target_path in
        match md5 fe with
        | None => (Some false, [EvTrackerClose])
        | Some md5_hash =>
            if file_size >=? large_threshold u then
              let '(success, tr) := _upload_with_streaming fe url md5_hash in
              (Some success, EvAcquire :: tr ++ [EvRelease])
            else
              let '(success, tr) := _upload_with_streaming fe url md5_hash in
              (Some success, tr)
        end
    end.

(** *** JFrogUploader.upload_directory

    [glob] lists what [directory_path.glob('**/*')] yields; each entry
    carries its path relative to the directory.  A [scan_env] tells what
    [os.path.getsize] answers for a file while the directory is scanned. *)

Record dir_entry := { item : string; is_file : bool; rel_path : string }.

Record dir_env := { is_dir : bool; glob : list dir_entry }.

Definition scan_env := string -> raising Z.

(** Truthiness of [target_prefix]: neither [None] nor empty. *)
Definition target_of (target_prefix : option string) (e : dir_entry) : string :=
  match target_prefix with
  | Some p => if String.eqb p "" then rel_path e else p ++ "/" ++ rel_path e
  | None => rel_path e
  end.

Definition collect_files (d : dir_env) (target_prefix : option string)
  : list (string * string) :=
  map (fun e => (item e, target_of target_prefix e)) (List.filter is_file (glob d)).

(** [list.sort(key=...)] *)
Definition sort_by {A} (key : A -> Z) (l : list A) : list A :=
  PyList.sort_le (fun a b => key a <=? key b) l.

(** All sizes of the scan, or [None] when one [os.path.getsize] raises. *)
Fixpoint all_sizes (scan : scan_env) (files : list (string * string))
  : raising unit :=
  match files with
  | [] => Some tt
  | (file_path, _) :: rest =>
      match scan file_path with
      | None => None
      | Some _ => all_sizes scan rest
      end
  end.

Definition size_of (scan : scan_env) (f : string * string) : Z :=
  match scan (fst f) with Some z => z | None => 0 end.

Definition is_large (u : uploader) (scan : scan_env) (f : string * string) : bool :=
  size_of scan f >=? large_threshold u.

(** One call of [upload_file] as the directory loop sees it. *)
Record call := {
  c_file : string;
  c_target : string;
  c_result : raising bool;
  c_events : list event
}.

Definition call_upload (u : uploader) (env : string -> file_env)
           (f : string * string) : call :=
  let '(r, tr) := upload_file u env (fst f) (Some (snd f)) in
  {| c_file := fst f; c_target := snd f; c_result := r; c_events := tr |}.

(** The worker pool: every submitted task runs; an exception of a task is
    stored in its future and caught around [future.result()].  The list
    holds one call per task, in the order in which the tasks were
    submitted.  This is not the order in which the workers run them: with
    two workers or more that order is not fixed by the code, and the
    transition system below goes through every interleaving.  The outcome
    of a call depends on its file only, so the list is the same for all of
    them. *)
Definition run_pool (u : uploader) (env : string -> file_env)
           (normal_files : list (string * string)) : list call :=
  map (call_upload u env) normal_files.

(** The loop over the large files: an exception of [upload_file] is not
    caught here and ends the loop. *)
Fixpoint run_large (u : uploader) (env : string -> file_env)
         (large_files : list (string * string)) : raising unit * list call :=
  match large_files with
  | [] => (Some tt, [])
  | f :: rest =>
      let c := call_upload u env f in
      match c_result c with
      | None => (None, [c])
      | Some _ =>
          let '(r, cs) := run_large u env rest in (r, c :: cs)
      end
  end.

Definition upload_directory (u : uploader) (env : string -> file_env)
           (scan : scan_env) (d : dir_env) (target_prefix : option string)
  : raising bool * list call :=
  if negb (is_dir d) then (Some false, [])
  else
    let files := collect_files d target_prefix in
    if (length files =? 0)%nat then (Some true, [])
    else
      match all_sizes scan files with
      | None => (None, [])
      | Some _ =>
          let files := sort_by (size_of scan) files in
          let large_files := List.filter (is_large u scan) files in
          let normal_files :=
            List.filter (fun f => negb (is_large u scan f)) files in
          if negb (length normal_files =? 0)%nat && (max_workers u <=? 0)
          then (None, [])       (* ThreadPoolExecutor refuses max_workers <= 0 *)
          else
            let pool := match normal_files with
                        | [] => []
                        | _ => run_pool u env normal_files
                        end in
            let '(r, larges) := run_large u env large_files in
            match r with
            | None => (None, pool ++ larges)
            | Some _ => (Some true, pool ++ larges)
            end
      end.

(** All events of a run, call by call as [upload_directory] lists them
    (the pool's calls in submission order). *)
Definition events_of (calls : list call) : list event :=
  flat_map c_events calls.

(** *** The directory upload as a transition system

    The threads of [upload_directory]: the workers of the
    [ThreadPoolExecutor], which take tasks from its queue while fewer
    than [max_workers] of them are busy, and the main thread, which waits
    for the pool at the end of the [with] block and then runs the loop
    over the large files.  Every thread inside [upload_file] is at one of
    four program points. *)

Inductive pc :=
| AtEntry        (* exists / stat / calculate_md5 / the size test *)
| WaitLock       (* blocked on [with self.large_file_lock] *)
| InLock         (* [_upload_with_streaming] under the lock *)
| NoLock.        (* [_upload_with_streaming] without the lock *)

Record task := { t_file : string * string; t_pc : pc }.

Inductive main_pc :=
| Pool (large_files : list (string * string))
    (* in the [with ThreadPoolExecutor] block, [large_files] still to do *)
| Large (cur : option task) (todo : list (string * string))
    (* in the loop over [large_files] *)
| Returned
| Raised.

Record sched := {
  queue : list (string * string);   (* submitted, not yet started *)
  running : list task;              (* tasks held by worker threads *)
  lock_held : bool;                 (* large_file_lock *)
  main : main_pc
}.

Section Steps.

Variable u : uploader.
(** Size seen by the classification of [upload_directory]. *)
Variable scan : scan_env.
(** Size seen by the [stat] of [upload_file]. *)
Variable st : string -> Z.

(** One step of a thread inside [upload_file]; [None] when the call is
    over. *)
Inductive task_step : task -> bool -> option task -> bool -> Prop :=
| ts_large f l :
    st (fst f) >= large_threshold u ->
    task_step {| t_file := f; t_pc := AtEntry |} l
              (Some {| t_file := f; t_pc := WaitLock |}) l
| ts_small f l :
    st (fst f) < large_threshold u ->
    task_step {| t_file := f; t_pc := AtEntry |} l
              (Some {| t_file := f; t_pc := NoLock |}) l
| ts_early f l :                                   (* not found, or md5 failed *)
    task_step {| t_file := f; t_pc := AtEntry |} l None l
| ts_acquire f :
    task_step {| t_file := f; t_pc := WaitLock |} false
              (Some {| t_file := f; t_pc := InLock |}) true
| ts_release f l :
    task_step {| t_file := f; t_pc := InLock |} l None false
| ts_finish f l :
    task_step {| t_file := f; t_pc := NoLock |} l None l.

Definition opt_list {A} (o : option A) : list A :=
  match o with Some a => [a] | None => [] end.

Inductive step : sched -> sched -> Prop :=
| step_refused q l lf :                  (* max_workers <= 0: ValueError *)
    q <> [] -> max_workers u <= 0 ->
    step {| queue := q; running := []; lock_held := l; main := Pool lf |}
         {| queue := q; running := []; lock_held := l; main := Raised |}
| step_start f q r l lf :
    Z.of_nat (length r) < max_workers u ->
    step {| queue := f :: q; running := r; lock_held := l; main := Pool lf |}
         {| queue := q; running := r ++ [{| t_file := f; t_pc := AtEntry |}];
            lock_held := l; main := Pool lf |}
| step_worker q r1 t r2 l ot l' m :
    task_step t l ot l' ->
    step {| queue := q; running := r1 ++ t :: r2; lock_held := l; main := m |}
         {| queue := q; running := r1 ++ opt_list ot ++ r2;
            lock_held := l'; main := m |}
| step_pool_done l lf :                  (* the executor has shut down *)
    step {| queue := []; running := []; lock_held := l; main := Pool lf |}
         {| queue := []; running := []; lock_held := l; main := Large None lf |}
| step_large_next q r l f todo :
    step {| queue := q; running := r; lock_held := l;
            main := Large None (f :: todo) |}
         {| queue := q; running := r; lock_held := l;
            main := Large (Some {| t_file := f; t_pc := AtEntry |}) todo |}
| step_large_step q r l t todo ot l' :
    task_step t l ot l' ->
    step {| queue := q; running := r; lock_held := l; main := Large (Some t) todo |}
         {| queue := q; running := r; lock_held := l'; main := Large ot todo |}
| step_large_raise q r l f todo :        (* [stat] raises in the main thread *)
    step {| queue := q; running := r; lock_held := l;
            main := Large (Some {| t_file := f; t_pc := AtEntry |}) todo |}
         {| queue := q; running := r; lock_held := l; main := Raised |}
| step_return q r l :
    step {| queue := q; running := r; lock_held := l; main := Large None [] |}
         {| queue := q; running := r; lock_held := l; main := Returned |}.

(** The state in which the pool block is entered, for the collected
    [files]. *)
Definition init (files : list (string * string)) : sched :=
  let files := sort_by (size_of scan) files in
  {| queue := List.filter (fun f => negb (is_large u scan f)) files;
     running := [];
     lock_held := false;
     main := Pool (List.filter (is_large u scan) files) |}.

Definition main_task (s : sched) : list task :=
  match main s with
  | Large (Some t) _ => [t]
  | _ => []
  end.

(** The items some thread is inside [upload_file] for. *)
Definition in_flight (s : sched) : list (string * string) :=
  map t_file (running s ++ main_task s).

Definition large_in_flight (s : sched) : list (string * string) :=
  List.filter (is_large u scan) (in_flight s).

Definition small_in_flight (s : sched) : list (string * string) :=
  List.filter (fun f => negb (is_large u scan f)) (in_flight s).

(** Threads inside the critical section. *)
Definition holds_lock (t : task) : bool :=
  match t_pc t with InLock => true | _ => false end.

Definition in_lock (s : sched) : list task :=
  List.filter holds_lock (running s ++ main_task s).

Definition count_lock (ts : list task) : nat := length (List.filter holds_lock ts).

(** What every reachable state satisfies: the pool only ever holds items
    classified small, never more than [max_workers] of them, and the main
    thread only ever handles items classified large. *)
Record sched_inv (s : sched) : Prop := {
  inv_queue : Forall (fun f => is_large u scan f = false) (queue s);
  inv_running : Forall (fun t => is_large u scan (t_file t) = false) (running s);
  inv_bound : Z.of_nat (length (running s)) <= Z.max 0 (max_workers u);
  inv_main : Forall (fun t => is_large u scan (t_file t) = true) (main_task s);
  inv_todo : match main s with
             | Pool lf | Large _ lf => Forall (fun f => is_large u scan f = true) lf
             | _ => True
             end
}.

(** The lock is held by at most one thread, and by none when it is free. *)
Definition lock_inv (s : sched) : Prop :=
  (count_lock (running s) + count_lock (main_task s) <= 1)%nat /\
  (lock_held s = false ->
   (count_lock (running s) + count_lock (main_task s) = 0)%nat).

End Steps.

(** *** Reading the trace of an upload *)


(** The headers of the PUT requests, in order. *)
Definition put_headers (tr : list event) : list (gmap string string) :=
  flat_map (fun e => match e with EvPut _ h => [h] | _ => [] end) tr.

Definition is_lock_event (e : event) : bool :=
  match e with EvAcquire | EvRelease => true | _ => false end.

Definition lock_free (tr : list event) : Prop :=
  Forall (fun e => is_lock_event e = false) tr.

(** The headers after the line [headers['X-Checksum-Deploy'] = 'true']. *)
Definition deploy_headers (md5_hash : string) : gmap string string :=
  <["X-Checksum-Deploy" := "true"]> (initial_headers md5_hash).

(** The answer is a refusal whose body mentions a checksum. *)
Definition mentions_checksum (r : put_result) : bool :=
  match r with
  | PutRaises => false
  | PutResponse status_code text =>
      negb (status_ok status_code) && PyStr.contains "checksum" (PyStr.lower text)
  end.

(** Whether [upload_file] reaches the [with self.large_file_lock] block. *)
Definition takes_lock (u : uploader) (fe : file_env) : bool :=
  exists_ fe &&
  match st_size fe, md5 fe with
  | Some file_size, Some _ => file_size >=? large_threshold u
  | _, _ => false
  end.

(** The headers that the [i]-th PUT of a file carries: the deploy header is
    there once an earlier answer mentioned a checksum. *)
Definition headers_at (fe : file_env) (md5_hash : string) (i : nat)
  : gmap string string :=
  if existsb (fun j => mentions_checksum (put fe j (initial_headers md5_hash))) (seq 0 i)
  then deploy_headers md5_hash
  else initial_headers md5_hash.

(** *** More on the states of the transition system *)

(** The run is over. *)
Definition terminal (s : sched) : Prop := main s = Returned \/ main s = Raised.

(** Outside the pool block no worker holds a task. *)
Definition pool_drained (s : sched) : Prop :=
  match main s with
  | Pool _ => True
  | _ => running s = []
  end.


(** A held lock has an owner inside the critical section. *)
Definition lock_owned (s : sched) : Prop :=
  lock_held s = true ->
  (1 <= count_lock (running s) + count_lock (main_task s))%nat.

(** *** UploadTracker, file_content_generator, calculate_md5 *)

Record UploadTracker := { total_size : Z; uploaded : Z }.

(** [UploadTracker.update] *)
Definition update (tracker : UploadTracker) (chunk_size : Z) : UploadTracker :=
  {| total_size := total_size tracker; uploaded := uploaded tracker + chunk_size |}.

(** One pass of the generator over the file [data]: the chunks it yields
    and the tracker afterwards. *)
Definition file_content_generator (chunk_size : Z) (data : list Byte.byte)
           (tracker : UploadTracker) : list (list Byte.byte) * UploadTracker :=
  let yielded := PyFile.chunks chunk_size data in
  (yielded,
   fold_left (fun t chunk => update t (Z.of_nat (length chunk))) yielded tracker).

(** A [hashlib] object is the bytes it was fed so far; [hexdigest_of] turns
    them into the digest. *)
Definition calculate_md5 (hexdigest_of : list Byte.byte -> string)
           (data : list Byte.byte) : string :=
  let md5 := fold_left (fun fed chunk => fed ++ chunk) (PyFile.chunks 8192 data) [] in
  hexdigest_of md5.

(** *** main *)

(** The parsed command line: [--parallel], [--large-threshold] (a float, in
    MB), [--chunk-size] (an int, in KB), [--target], [--url], [--repo]. *)
Record cli_args := {
  arg_parallel : Z;
  arg_large_threshold : spec_float;
  arg_chunk_size : option Z;
  arg_target : option string;
  arg_url : string;
  arg_repo : string
}.

(** The float [1024.0]. *)
Definition lit_1024 : spec_float := S754_finite false 4503599627370496 (-42).

(** [int(args.large_threshold * 1024 * 1024)] *)
Definition large_threshold_bytes (large_threshold : spec_float) : raising Z :=
  to_int (mul (mul large_threshold lit_1024) lit_1024).

Definition main_uploader (a : cli_args) (large_threshold_bytes : Z)
           (mem : raising svmem) : uploader :=
  JFrogUploader_init (arg_url a) (arg_repo a) (arg_parallel a) large_threshold_bytes
                     (match arg_chunk_size a with
                      | Some kb => Some (kb * 1024)
                      | None => None
                      end)
                     mem.

(** The exit status of the script ([main]; the name is taken by the field
    of [sched]).  [d] answers for the source path as a
    directory, [source_is_file] tells whether it is a regular file.  The
    conversion of the threshold comes before the [try]: when it raises the
    script ends with a traceback, status 1. *)
Definition script_main (a : cli_args) (mem : raising svmem) (env : string -> file_env)
           (scan : scan_env) (source_path : string) (d : dir_env)
           (source_is_file : bool) : Z :=
  match large_threshold_bytes (arg_large_threshold a) with
  | None => 1
  | Some threshold =>
      let u := main_uploader a threshold mem in
      if is_dir d then
        match fst (upload_directory u env scan d (arg_target a)) with
        | Some true => 0
        | Some false => 1
        | None => 1
        end
      else if source_is_file then
        match fst (upload_file u env source_path (arg_target a)) with
        | Some true => 0
        | Some false => 1
        | None => 1
        end
      else 1
  end.

End Jfrog.

(** ** script2.py *)

Module Script2.

Import PyFloat.

(** *** get_recommended_chunk_size, get_optimal_chunk_size *)

(** [available_memory] is what [get_system_memory()] answered. *)
Definition get_recommended_chunk_size (available_memory : Z) : Z :=
  Z.min (Z.max (available_memory / 100) 8192) (64 * 1024 * 1024).

Definition get_optimal_chunk_size (file_size available_memory : Z) : Z :=
  let memory_based :=
    Z.min (Z.max (available_memory / 100) 8192) (64 * 1024 * 1024) in
  if file_size >? 1 * 1024 * 1024 * 1024 then
    Z.max memory_based (16 * 1024 * 1024)
  else if file_size >? 100 * 1024 * 1024 then
    Z.max memory_based (4 * 1024 * 1024)
  else memory_based.

(** *** The environment of an archive build

    The script imports [fcntl], so it runs on POSIX systems only; there
    [ZipInfo] registers an entry under the name it is given.

    One attempt of [process_single_file] goes through four stages, which
    an [attempt_env] scripts.  [setup] stands for the calls that come
    before any byte of the file reaches the archive ([open], [flock],
    [mmap] or the [read] of a small file, [ZipFile(..., 'a')],
    [zf.open(zip_info, 'w')]), with the closing of what they had opened
    when one of them raises.  Then comes the body of
    [with zf.open(zip_info, 'w') as dest]: for a large file the chunk loop,
    which [reads] scripts, one element per iteration, for the chunk size
    asked for (past its end [mmap_obj.read] returns [b'']); for a small
    file [dest.write(data)], whose outcome is [write], with [data_len] for
    [len(data)].  [close_entry] is [dest.close()], which the [with]
    statement runs whether its body raised or not, and [close_archive] is
    [zf.close()], which runs last.  An exception of a later stage replaces
    the one of an earlier stage.

    [dest.close()] adds the entry to the list of the archive as its last
    step: the entry is registered when it returns, and is not when it
    raises (with compression this includes the write of what the
    compressor still holds).  The size of the entry is the number of bytes
    handed to [dest.write], which counts them before it writes them.

    [zf.close()] writes the directory of the archive.  When an attempt
    ends with an exception, [directory_lost] tells whether it has left the
    file without a directory that a later [ZipFile(...)] can read; an
    attempt that ends normally has written it. *)

Inductive outcome := Done | IOErr | OtherErr.

Inductive iter_event :=
  | ReadOk (n : Z)          (* a chunk of [n] bytes is read and written *)
  | ReadIOError             (* [mmap_obj.read] raises IOError *)
  | WriteIOError (n : Z)    (* a chunk of [n] bytes is read, [dest.write] raises IOError *)
  | ReadError               (* [mmap_obj.read] raises another exception *)
  | WriteError (n : Z).     (* a chunk of [n] bytes is read, [dest.write] raises another one *)

Record attempt_env := {
  setup : outcome;
  reads : Z -> list iter_event;
  data_len : Z;
  write : outcome;
  close_entry : outcome;
  close_archive : outcome;
  directory_lost : bool
}.

(** [archive_created] is the [with zipfile.ZipFile(output_zip, 'w', ...): pass]
    that creates the empty archive, [elapsed_is_zero] tells whether the
    clock reads the same at the end of the build as at its start (the
    average speed is then a division by zero), [archive_readable] is the
    [ZipFile(zip_file, 'r')] of the validation.  What the calls on the
    archive do may depend on the compression asked for: [archive_created]
    and [attempt_at] take [compress]. *)
Record env := {
  available_memory : Z;                       (* get_system_memory() *)
  walk : list (string * list string);         (* os.walk at the scan: (root, files) *)
  walk_after : list (string * list string);   (* os.walk at the validation *)
  relpath : string -> string;                 (* os.path.relpath(_, source_folder) *)
  getsize : string -> raising Z;              (* os.path.getsize *)
  archive_created : bool -> bool;             (* compress *)
  attempt_at : bool -> string -> nat -> attempt_env;
                                              (* compress, file path, attempt number *)
  elapsed_is_zero : bool;
  archive_readable : bool;
  validation_after_loss : raising bool
}.

Inductive zevent :=
  | ZAttempt (file_path : string) (attempt : nat)
  | ZSleep (seconds : Z)
  | ZEntry (name : string) (size : Z) (complete : bool)
    (* [dest.close()] has registered the entry; [complete] is false when
       the body of the [with] had raised *)
  | ZSkipped (file_path : string)               (* the [except] of zip_with_builtin *)
  | ZDirectoryLost.
    (* the attempt has left the archive without a readable directory *)

(** *** process_single_file *)

Definition max_retries : nat := 3.
Definition retry_delay : Z := 1.

Definition file_info : Type := string * string * Z.

(** The [while bytes_written < file_size] loop.  Its [except IOError]
    sleeps and continues the loop unless this is the last attempt.
    [bytes_written] is the counter of the script, which a chunk reaches
    once [dest.write] has returned; [entry_size] is the counter of
    [dest], which it reaches before it is written. *)
Fixpoint chunk_loop (attempt : nat) (file_size : Z) (script : list iter_event)
         (bytes_written entry_size : Z) : outcome * Z * Z * list zevent :=
  if bytes_written <? file_size then
    match script with
    | [] => (Done, bytes_written, entry_size, [])
    | ReadOk n :: rest =>
        if n <=? 0 then (Done, bytes_written, entry_size, [])
        else chunk_loop attempt file_size rest (bytes_written + n) (entry_size + n)
    | ReadIOError :: rest =>
        if (attempt <? max_retries - 1)%nat then
          let '(o, w, z, tr) :=
            chunk_loop attempt file_size rest bytes_written entry_size in
          (o, w, z, ZSleep retry_delay :: tr)
        else (IOErr, bytes_written, entry_size, [])
    | WriteIOError n :: rest =>
        if n <=? 0 then (Done, bytes_written, entry_size, [])
        else if (attempt <? max_retries - 1)%nat then
          let '(o, w, z, tr) :=
            chunk_loop attempt file_size rest bytes_written (entry_size + n) in
          (o, w, z, ZSleep retry_delay :: tr)
        else (IOErr, bytes_written, entry_size + n, [])
    | ReadError :: rest => (OtherErr, bytes_written, entry_size, [])
    | WriteError n :: rest =>
        if n <=? 0 then (Done, bytes_written, entry_size, [])
        else (OtherErr, bytes_written, entry_size + n, [])
    end
  else (Done, bytes_written, entry_size, []).

(** The exception that leaves a [with] statement: the one of the closing
    call when it raises, and the one of the body otherwise. *)
Definition then_close (body closing : outcome) : outcome :=
  match closing with
  | Done => body
  | e => e
  end.

(** What an attempt that ends in [o] leaves behind of the directory. *)
Definition loss (ae : attempt_env) (o : outcome) : list zevent :=
  match o with
  | Done => []
  | _ => if directory_lost ae then [ZDirectoryLost] else []
  end.

(** The body of [with zf.open(zip_info, 'w') as dest]: how it ends, the
    size that [dest] has counted, and the sleeps of the chunk loop. *)
Definition write_body (file_size chunk_size : Z) (attempt : nat) (ae : attempt_env)
  : outcome * Z * list zevent :=
  if file_size >? 10 * 1024 * 1024 then
    let chunk_size :=
      if file_size >? 1024 * 1024 * 1024
      then Z.max chunk_size (16 * 1024 * 1024) else chunk_size in
    let '(o, _, entry_size, tr) :=
      chunk_loop attempt file_size (reads ae chunk_size) 0 0 in
    (o, entry_size, tr)
  else (write ae, data_len ae, []).

(** The body of the [try] of one attempt. *)
Definition attempt_body (fi : file_info) (chunk_size : Z) (attempt : nat)
           (ae : attempt_env) : outcome * list zevent :=
  let '(file_path, rel_path, file_size) := fi in
  match setup ae with
  | Done =>
      let '(body, entry_size, tr) := write_body file_size chunk_size attempt ae in
      let registered :=
        match close_entry ae with
        | Done => [ZEntry rel_path entry_size
                          (match body with Done => true | _ => false end)]
        | _ => []
        end in
      let o := then_close (then_close body (close_entry ae)) (close_archive ae) in
      (o, tr ++ registered ++ loss ae o)
  | e => (e, loss ae e)
  end.

(** The [for attempt in range(max_retries)] loop.  The result is [true]
    when the function returns and [false] when it raises. *)
Fixpoint attempt_loop (E : env) (fi : file_info) (compress : bool) (chunk_size : Z)
         (attempts : list nat) : bool * list zevent :=
  match attempts with
  | [] => (true, [])                       (* the loop ran out: falls off the end *)
  | attempt :: rest =>
      let file_path := fst (fst fi) in
      let '(o, tr) :=
        attempt_body fi chunk_size attempt (attempt_at E compress file_path attempt) in
      match o with
      | Done => (true, ZAttempt file_path attempt :: tr)
      | IOErr =>
          if (attempt <? max_retries - 1)%nat then
            let '(r, tr') := attempt_loop E fi compress chunk_size rest in
            (r, ZAttempt file_path attempt :: tr ++ ZSleep retry_delay :: tr')
          else (false, ZAttempt file_path attempt :: tr)
      | OtherErr => (false, ZAttempt file_path attempt :: tr)
      end
  end.

Definition process_single_file (E : env) (fi : file_info) (compress : bool)
           (available_memory : Z) : bool * list zevent :=
  let chunk_size := get_optimal_chunk_size (snd fi) available_memory in
  attempt_loop E fi compress chunk_size (seq 0 max_retries).

(** *** The scan of zip_with_builtin *)

Definition is_zip (file_path : string) : bool :=
  PyStr.endswith (PyStr.lower file_path) ".zip".

Definition sorted (files : list string) : list string :=
  PyList.sort_le String.leb files.

Definition scan_file (E : env) (root file : string) : list file_info :=
  let file_path := PyStr.path_join root file in
  let rel_path := relpath E file_path in
  if is_zip file_path then []
  else
    match getsize E file_path with
    | None => []                           (* "Error accessing ..." *)
    | Some file_size => [(file_path, rel_path, file_size)]
    end.

Definition scan_dir (E : env) (d : string * list string) : list file_info :=
  flat_map (scan_file E (fst d)) (sorted (snd d)).

Definition scan (E : env) : list file_info := flat_map (scan_dir E) (walk E).

(** *** quick_validate_zip *)

(** [{info.filename: info.file_size}] over the registered entries; a later
    entry of the same name replaces an earlier one. *)
Fixpoint zip_files (tr : list zevent) (acc : gmap string Z) : gmap string Z :=
  match tr with
  | [] => acc
  | ZEntry name size _ :: rest => zip_files rest (<[name := size]> acc)
  | _ :: rest => zip_files rest acc
  end.

Definition walk_files (w : list (string * list string)) : list string :=
  flat_map (fun d => map (PyStr.path_join (fst d)) (snd d)) w.

Record report := {
  missing_files : list string;
  size_mismatches : list (string * Z * Z)
}.

(** The walk over the source tree; [None] when [getsize] raises, which
    makes the validation return [False] at once. *)
Fixpoint validate_walk (E : env) (zf : gmap string Z) (files : list string)
         (r : report) : raising report :=
  match files with
  | [] => Some r
  | file_path :: rest =>
      let rel_path := PyStr.replace PyStr.backslash "/" (relpath E file_path) in
      if is_zip file_path then validate_walk E zf rest r
      else
        match getsize E file_path with
        | None => None
        | Some source_size =>
            match zf !! rel_path with
            | None =>
                validate_walk E zf rest
                  {| missing_files := missing_files r ++ [rel_path];
                     size_mismatches := size_mismatches r |}
            | Some zip_size =>
                if negb (source_size =? zip_size) then
                  validate_walk E zf rest
                    {| missing_files := missing_files r;
                       size_mismatches :=
                         size_mismatches r ++ [(rel_path, source_size, zip_size)] |}
                else validate_walk E zf rest r
            end
        end
  end.

Definition quick_validate_zip (E : env) (zf : gmap string Z) : bool :=
  match validate_walk E zf (walk_files (walk_after E))
          {| missing_files := []; size_mismatches := [] |} with
  | None => false
  | Some r =>
      match missing_files r, size_mismatches r with
      | [], [] => true
      | _, _ => false
      end
  end.

(** *** zip_with_builtin *)

(** The loop over [all_files]: an exception of [process_single_file] is
    printed and the loop goes on with the next file. *)
Fixpoint process_all (E : env) (compress : bool) (all_files : list file_info)
  : list zevent :=
  match all_files with
  | [] => []
  | fi :: rest =>
      let '(ok, tr) := process_single_file E fi compress (available_memory E) in
      if ok then tr ++ process_all E compress rest
      else tr ++ ZSkipped (fst (fst fi)) :: process_all E compress rest
  end.

(** Whether some attempt of the build has left the archive without a
    readable directory. *)
Definition directory_lost_in (tr : list zevent) : bool :=
  existsb (fun e => match e with ZDirectoryLost => true | _ => false end) tr.

(** The call [quick_validate_zip(source_folder, output_zip)] at the end of
    a build that went through the events [tr]; [None] when it raises,
    which it does when the archive cannot be opened.  After an attempt that
    lost the directory, what a reader finds in the file depends on how much
    of it was written, and the outcome is the one of
    [validation_after_loss]; otherwise the entries are those that the
    attempts have registered. *)
Definition validate_build (E : env) (tr : list zevent) : raising bool :=
  if directory_lost_in tr then validation_after_loss E
  else if negb (archive_readable E) then None
  else Some (quick_validate_zip E (zip_files tr ∅)).

(** The result is [None] when the function raises: the creation of the
    empty archive, the average speed and the opening of the archive by the
    validation sit outside every [try].  The reading of the memory at the
    start and the progress bars are taken to go through. *)
Definition zip_with_builtin (E : env) (compress validate : bool)
  : raising bool * list zevent :=
  let all_files := scan E in
  if negb (archive_created E compress) then (None, [])
  else
    let tr := process_all E compress all_files in
    if elapsed_is_zero E then (None, tr)
    else if validate then
      match validate_build E tr with
      | None => (None, tr)
      | Some verdict => if negb verdict then (Some false, tr) else (Some true, tr)
      end
    else (Some true, tr).

(** *** Reading a trace *)

Definition is_attempt (e : zevent) : bool :=
  match e with ZAttempt _ _ => true | _ => false end.

(** Number of attempts made. *)
Definition n_attempts (tr : list zevent) : nat := length (List.filter is_attempt tr).

(** The files whose processing started, in order. *)
Definition started (tr : list zevent) : list string :=
  flat_map (fun e => match e with ZAttempt p O => [p] | _ => [] end) tr.

(** The durations slept, in order. *)
Definition sleeps (tr : list zevent) : list Z :=
  flat_map (fun e => match e with ZSleep d => [d] | _ => [] end) tr.

(** The entries registered in the archive, in order. *)
Definition entries (tr : list zevent) : list (string * Z) :=
  flat_map (fun e => match e with ZEntry n s _ => [(n, s)] | _ => [] end) tr.

(** *** Reading the scan *)

(** A file of a directory gets into [all_files] when it is no zip file and
    its size can be read. *)
Definition kept (E : env) (root file : string) : bool :=
  let file_path := PyStr.path_join root file in
  negb (is_zip file_path) &&
  match getsize E file_path with Some _ => true | None => false end.

Definition info (E : env) (root file : string) : file_info :=
  let file_path := PyStr.path_join root file in
  (file_path, relpath E file_path,
   match getsize E file_path with Some z => z | None => 0 end).

(** The names of the files of one directory that get into [all_files], in
    the order in which the scan lists them. *)
Definition dir_names (E : env) (d : string * list string) : list string :=
  List.filter (kept E (fst d)) (sorted (snd d)).

(** *** Predicates on traces, for the statements below *)

(** What one event of an attempt can be, for the entry [rel_path]. *)
Definition body_event (rel_path : string) (e : zevent) : Prop :=
  e = ZSleep retry_delay \/
  (exists size complete, e = ZEntry rel_path size complete) \/
  e = ZDirectoryLost.

(** What the trace of the retry loop of one file looks like. *)
Record loop_trace (fi : file_info) (start n : nat) (tr : list zevent) : Prop := {
  lt_at_most : (n_attempts tr <= n)%nat;
  lt_at_least : (0 < n -> 1 <= n_attempts tr)%nat;
  lt_started : started tr = match n, start with
                            | S _, O => [fst (fst fi)]
                            | _, _ => []
                            end;
  lt_sleeps : Forall (fun d => d = retry_delay) (sleeps tr);
  lt_entries : Forall (fun e => fst e = snd (fst fi)) (entries tr)
}.

(** How the [attempt]-th try on [fi] ends. *)
Definition attempt_outcome (E : env) (fi : file_info) (compress : bool) (chunk_size : Z)
           (attempt : nat) : outcome :=
  fst (attempt_body fi chunk_size attempt (attempt_at E compress (fst (fst fi)) attempt)).

(** *** calculate_md5, validate_zip_integrity

    Neither is called by the script. *)

(** A [hashlib] object is the bytes it was fed so far; [hexdigest_of] turns
    them into the digest.  [data] is the content of the file; mapping an
    empty file raises [ValueError], which is printed and raised again. *)
Definition calculate_md5 (hexdigest_of : list Byte.byte -> string)
           (data : list Byte.byte) (chunk_size : Z) : raising string :=
  let file_size := Z.of_nat (length data) in
  match data with
  | [] => None
  | _ =>
      let md5 :=
        if file_size <? 10 * 1024 * 1024 then [] ++ fst (PyFile.read (-1) data)
        else fold_left (fun fed chunk => fed ++ chunk) (PyFile.chunks chunk_size data) [] in
      Some (hexdigest_of md5)
  end.

(** [namelist] is [zf.namelist()]. *)
Definition validate_zip_integrity (E : env) (namelist : list string) : bool :=
  let zip_files := namelist in
  let source_files :=
    map (fun full_path => PyStr.replace PyStr.backslash "/" (relpath E full_path))
        (walk_files (walk_after E)) in
  let missing_files : gset string := list_to_set source_files ∖ list_to_set zip_files in
  if decide (missing_files = ∅) then true else false.

(** *** Reading the validation *)

(** What [quick_validate_zip] asks of one file of the tree. *)
Definition covered (E : env) (zf : gmap string Z) (file_path : string) : Prop :=
  is_zip file_path = true \/
  exists size,
    getsize E file_path = Some size /\
    zf !! PyStr.replace PyStr.backslash "/" (relpath E file_path) = Some size.

(** *** main *)

(** The parsed command line, as far as [main] looks at it without
    [--test-performance]: [--validate] is a [store_true] flag whose default
    is [True], so [args.validate] is [True] whatever the command line says,
    and apart from a message [--chunk-size] only reaches the performance
    test. *)
Record cli_args := {
  arg_source : option string;
  arg_output : option string;
  arg_method_7zip : bool;
  arg_compress : bool;
  arg_test_performance : bool
}.

(** [not s] for an optional string argument *)
Definition not_given (s : option string) : bool :=
  match s with
  | None => true
  | Some s => String.eqb s ""
  end.

Definition text (s : option string) : string :=
  match s with
  | None => ""
  | Some s => s
  end.

(** The adjustment of the output path. *)
Definition adjust_output (isdir : string -> bool) (source_folder output_zip : string)
  : string :=
  if isdir output_zip || negb (PyStr.endswith (PyStr.lower output_zip) ".zip") then
    if isdir output_zip then
      PyStr.path_join output_zip (PyStr.basename source_folder ++ ".zip")
    else output_zip ++ ".zip"
  else output_zip.

(** The status with which the script ends, [exit(main())]: a [return]
    without a value gives status 0 and an exception that escapes gives 1;
    [command_line] is what [parser.parse_args()] makes of the command
    line, which ends the script itself when it refuses it (status 2) or
    prints the help (status 0).  [E source_folder output_zip] is the world
    of the build, [zip_with_7zip] what the 7-Zip variant does ([None] when
    it raises) and [makedirs_raises] tells whether the directory of the
    output can be made.  The memory readings at the start are taken to go
    through.  The performance test is not modelled: the result is [None]
    there. *)
Definition main (command_line : PyArgparse.parsed cli_args) (abspath : string -> string)
           (isdir exists_ : string -> bool) (makedirs_raises : bool)
           (E : string -> string -> env) (zip_with_7zip : raising bool) : option Z :=
  match command_line with
  | PyArgparse.Refused => Some 2
  | PyArgparse.Help => Some 0
  | PyArgparse.Parsed a =>
      if arg_test_performance a then None
      else if not_given (arg_source a) || not_given (arg_output a) then Some 0
      else
        let source_folder := abspath (text (arg_source a)) in
        let output_zip := abspath (text (arg_output a)) in
        let output_zip := adjust_output isdir source_folder output_zip in
        if negb (exists_ source_folder) then Some 0
        else if makedirs_raises then Some 1
        else
          let success :=
            if arg_method_7zip a then zip_with_7zip
            else fst (zip_with_builtin (E source_folder output_zip) (arg_compress a) true) in
          match success with
          | None => Some 1
          | Some success => if negb success then Some 1 else Some 0
          end
  end.

End Script2.

(** ** nexus-upload-script.py *)

Module Nexus.

Import PyFloat.

(** [not s] for an optional string *)
Definition not_given (s : option string) : bool :=
  match s with
  | None => true
  | Some s => String.eqb s ""
  end.

(** *** create_zip_archive

    The function goes through [source_path.glob("**/*")] twice: once to
    count the files and to add up their sizes, and once more, after the
    output file has been created, to write them.  [glob] lists what the
    first pass yields and [glob_again] what the second one yields; when the
    output lies inside the source directory the second one holds it.
    [st_size] is [None] when [file_path.stat()] raises.  [archive_opens] is
    [zipfile.ZipFile(output_path, 'w', ...)], [adds] tells whether adding a
    file to the archive goes through ([true]) or raises, and
    [archive_closes] stands for the closing of the archive and the [stat]
    of the output that follows it. *)

Record glob_entry := {
  file_path : string;
  is_file : bool;
  arcname : string;       (* file_path.relative_to(source_path) *)
  st_size : raising Z
}.

Inductive how := Chunked | WriteStr.

(** How a file of [file_size] bytes is written. *)
Definition written_how (file_size : Z) : how :=
  if file_size >? 1 * 1024 * 1024 * 1024 then Chunked else WriteStr.

(** The first pass: the sizes of the files, or [None] when a [stat]
    raises. *)
Fixpoint scan_sizes (files : list glob_entry) : raising (list Z) :=
  match files with
  | [] => Some []
  | f :: rest =>
      match st_size f with
      | None => None
      | Some file_size =>
          match scan_sizes rest with
          | None => None
          | Some sizes => Some (file_size :: sizes)
          end
      end
  end.

(** The loop over [files_list].  The [stat] of a file sits outside the
    [try]; an exception of the adding is logged and raised again.  Either
    ends the loop. *)
Fixpoint add_files (adds : string -> bool) (files_list : list glob_entry)
  : bool * list (string * how) :=
  match files_list with
  | [] => (true, [])
  | f :: rest =>
      match st_size f with
      | None => (false, [])
      | Some file_size =>
          if adds (file_path f) then
            let '(ok, written) := add_files adds rest in
            (ok, (arcname f, written_how file_size) :: written)
          else (false, [])
      end
  end.

(** The name of the output: [timestamp] is the time of the call as the
    function formats it. *)
Definition output_name (output_path : option string) (timestamp : string) : string :=
  if not_given output_path then ("files_" ++ timestamp ++ ".zip")%string
  else match output_path with Some p => p | None => EmptyString end.

(** The result is [None] when the function raises; the second component
    lists the entries written, in order. *)
Definition create_zip_archive (is_dir : bool) (glob glob_again : list glob_entry)
           (archive_opens : bool) (adds : string -> bool) (archive_closes : bool)
           (output_path : option string) (timestamp : string)
  : raising string * list (string * how) :=
  let output_path := output_name output_path timestamp in
  if negb is_dir then (None, [])
  else
    match scan_sizes (List.filter is_file glob) with
    | None => (None, [])
    | Some sizes =>
        if (length sizes =? 0)%nat then (None, [])
        else if forallb (fun file_size => file_size <=? 0) sizes then
          (None, [])          (* [largest_file['path']] is still [None] *)
        else if negb archive_opens then (None, [])
        else
          let files_list := List.filter is_file glob_again in
          let '(ok, written) := add_files adds files_list in
          if ok && archive_closes then (Some output_path, written)
          else (None, written)
    end.

(** *** upload_to_nexus *)

(** What [session.put] comes to, after the retries of its adapter. *)
Inductive put_outcome :=
  | Timeout
  | ConnectionError
  | OtherError
  | Response (status_code : Z).

(** [s.strip(c)] for a one-character argument *)
Definition strip (c : ascii) (s : string) : string :=
  PyStr.lstrip c (PyStr.rstrip c s).

Definition make_upload_url (zip_file nexus_url repository : string)
           (directory : option string) : string :=
  let filename := PyStr.path_name zip_file in
  let upload_url := (PyStr.rstrip "/" nexus_url ++ "/repository/" ++ repository)%string in
  let upload_url :=
    if not_given directory then upload_url
    else (upload_url ++ "/"
          ++ strip "/" (match directory with Some d => d | None => "" end))%string in
  (upload_url ++ "/" ++ filename)%string.

(** The result is [None] when the function raises: the test for the
    archive and its [stat] sit before the [try]. *)
Definition upload_to_nexus (zip_exists : bool) (put : string -> put_outcome)
           (zip_file nexus_url repository : string) (directory : option string)
  : raising bool :=
  if negb zip_exists then None
  else
    match put (make_upload_url zip_file nexus_url repository directory) with
    | Response status_code =>
        if (status_code =? 200) || (status_code =? 201) then Some true else Some false
    | Timeout => Some false
    | ConnectionError => Some false
    | OtherError => Some false
    end.

(** *** main *)

Record cli_args := {
  arg_zip_file : option string;
  arg_nexus_url : string;
  arg_repository : string;
  arg_username : option string;
  arg_password : option string;
  arg_directory : option string;
  arg_keep_zip : bool
}.

(** [a or b] on optional strings *)
Definition or_else (a b : option string) : option string :=
  if not_given a then b else a.

Inductive main_event :=
  | Created (written : list (string * how))   (* create_zip_archive was run *)
  | Put (upload_url : string)
  | Remove (zip_file : string).

(** What the script needs of the world. *)
Record env := {
  temp_dir_raises : bool;             (* making the directory of [--temp-dir] *)
  timestamp : string;
  is_dir : bool;                      (* the source is a directory *)
  glob : list glob_entry;
  glob_again : list glob_entry;
  archive_opens : bool;
  adds : string -> bool;
  archive_closes : bool;
  env_username : option string;       (* NEXUS_USERNAME *)
  env_password : option string;       (* NEXUS_PASSWORD *)
  zip_exists : bool;                  (* zip_path.exists() and its stat *)
  put : string -> put_outcome;
  remove_raises : bool                (* os.remove *)
}.

(** The exit status, [exit(main())], and what was done.  [command_line] is
    what [parser.parse_args()] makes of the command line, which ends the
    script itself when it refuses it (status 2) or prints the help (status
    0); it sits before the [try]. *)
Definition main (command_line : PyArgparse.parsed cli_args) (E : env)
  : Z * list main_event :=
  match command_line with
  | PyArgparse.Refused => (2, [])
  | PyArgparse.Help => (0, [])
  | PyArgparse.Parsed a =>
      if temp_dir_raises E then (1, [])
      else
        match create_zip_archive (is_dir E) (glob E) (glob_again E) (archive_opens E)
                                 (adds E) (archive_closes E) (arg_zip_file a)
                                 (timestamp E) with
        | (None, written) => (1, [Created written])
        | (Some zip_file, written) =>
            let username := or_else (arg_username a) (env_username E) in
            let password := or_else (arg_password a) (env_password E) in
            if not_given username || not_given password then (1, [Created written])
            else
              match upload_to_nexus (zip_exists E) (put E) zip_file (arg_nexus_url a)
                                    (arg_repository a) (arg_directory a) with
              | None => (1, [Created written])
              | Some upload_success =>
                  let upload_url :=
                    make_upload_url zip_file (arg_nexus_url a) (arg_repository a)
                                    (arg_directory a) in
                  if upload_success && negb (arg_keep_zip a) then
                    if remove_raises E then (1, [Created written; Put upload_url])
                    else (0, [Created written; Put upload_url; Remove zip_file])
                  else (0, [Created written; Put upload_url])
              end
        end
  end.

End Nexus.

(** ** gcs-test.py *)

Module Gcs.

Import PyFloat.

(** What [subprocess.run(command, check=True, ...)] comes to. *)
Inductive run_outcome :=
  | Succeeds
  | ExitsNonZero      (* CalledProcessError *)
  | CannotStart.      (* any other exception, such as a missing program *)

Inductive event :=
  | Run (command : list string)
  | Makedirs (local_dir : string)
  | Upload (local_file_path blob_path : string).

Record env := {
  run : list string -> run_outcome;
  makedirs_raises : bool;
  client_raises : bool;                     (* storage.Client() *)
  walk : list (string * list string);       (* os.walk(local_directory) *)
  relpath : string -> string;               (* os.path.relpath(_, local_directory) *)
  upload_raises : string -> bool            (* blob.upload_from_filename *)
}.

(** [True] is [Some true], the [None] that the function returns after a
    [CalledProcessError] is [Some false], and the outer [None] is an
    exception. *)
Definition run_command (E : env) (command : list string) : raising bool * list event :=
  match run E command with
  | Succeeds => (Some true, [Run command])
  | ExitsNonZero => (Some false, [Run command])
  | CannotStart => (None, [Run command])
  end.

Definition verify_clone : bool := true.

(** The uploads of [upload_to_gcs], up to the first one that raises. *)
Fixpoint upload_files (E : env) (destination_blob_name : string)
         (files : list string) : raising unit * list event :=
  match files with
  | [] => (Some tt, [])
  | local_file_path :: rest =>
      let relative_path := relpath E local_file_path in
      let blob_path := PyStr.path_join destination_blob_name relative_path in
      if upload_raises E local_file_path then (None, [])
      else
        let '(r, tr) := upload_files E destination_blob_name rest in
        (r, Upload local_file_path blob_path :: tr)
  end.

Definition upload_to_gcs (E : env) (destination_blob_name : string)
  : raising unit * list event :=
  if client_raises E then (None, [])
  else
    upload_files E destination_blob_name
                 (flat_map (fun d => map (PyStr.path_join (fst d)) (snd d)) (walk E)).

(** [s.replace(old, '')]: [skip] characters of a match are still to be
    dropped. *)
Fixpoint remove_all (old : string) (skip : nat) (s : string) : string :=
  match s with
  | EmptyString => EmptyString
  | String c s' =>
      match skip with
      | S k => remove_all old k s'
      | O =>
          if String.prefix old s then remove_all old (String.length old - 1) s'
          else String c (remove_all old 0 s')
      end
  end.

Definition local_dir_of (repo_url timestamp : string) : string :=
  let repo_name := remove_all ".git" 0 (PyStr.basename repo_url) in
  (repo_name ++ "_" ++ timestamp)%string.

(** [None] when an exception leaves [main]; the bare [raise] after a failed
    clone has no exception to raise again and raises [RuntimeError]. *)
Definition main (E : env) (repo_url timestamp : string) : raising unit * list event :=
  let '(installed, tr0) := run_command E ["git"; "lfs"; "install"] in
  match installed with
  | None => (None, tr0)
  | Some false => (Some tt, tr0)
  | Some true =>
      let local_dir := local_dir_of repo_url timestamp in
      if makedirs_raises E then (None, tr0)
      else
        let tr1 := tr0 ++ [Makedirs local_dir] in
        let '(clone_output, tr) := run_command E ["git"; "clone"; repo_url; local_dir] in
        let tr2 := tr1 ++ tr in
        match clone_output with
        | None => (None, tr2)
        | Some false => (None, tr2)
        | Some true =>
            let '(lfs_clone, tr) :=
              run_command E ["git"; "-C"; local_dir; "lfs"; "pull"] in
            let tr3 := tr2 ++ tr in
            match lfs_clone with
            | None => (None, tr3)
            | Some _ =>
                if verify_clone then
                  let '(r, tr) := upload_to_gcs E (PyStr.basename local_dir) in
                  (r, tr3 ++ tr)
                else (Some tt, tr3)
            end
        end
  end.

(** The uploads of a run, in order. *)
Definition uploads (tr : list event) : list (string * string) :=
  flat_map (fun e => match e with Upload p b => [(p, b)] | _ => [] end) tr.

(** The commands of a run, in order. *)
Definition commands (tr : list event) : list (list string) :=
  flat_map (fun e => match e with Run c => [c] | _ => [] end) tr.

End Gcs.


(** ** Sample environments *)

Module Samples.

Import PyFloat Jfrog.

(** A server that answers 503 to the first [k] PUT requests of a file and
    201 afterwards. *)
Definition flaky_put (k : nat) (retry : nat) (_ : gmap string string) : put_result :=
  if (retry <? k)%nat then PutResponse 503 "Service Unavailable"
  else PutResponse 201 "Created".

Definition failing_put (_ : nat) (_ : gmap string string) : put_result :=
  PutResponse 500 "Internal Server Error".

(** A file of [size] bytes that the server reports with the same size. *)
Definition stored (size : Z) (p : nat -> gmap string string -> put_result) : file_env :=
  {| exists_ := true; st_size := Some size; md5 := Some "9e107d9d372bb6826bd81d3542a419d6";
     put := p; head := HeadResponse 200 (Some (Some size)); getsize := Some size |}.

(** A server that refuses a PUT without [X-Checksum-Deploy], naming the
    checksum in its answer, and accepts it with that header. *)
Definition wants_deploy_put (_ : nat) (headers : gmap string string) : put_result :=
  match headers !! "X-Checksum-Deploy" with
  | Some _ => PutResponse 201 "Created"
  | None => PutResponse 409 "Checksum mismatch"
  end.

(** The PUT is accepted at once but the HEAD of the validation answers 404. *)
Definition accepted_then_gone : file_env :=
  {| exists_ := true; st_size := Some 10; md5 := Some "9e107d9d372bb6826bd81d3542a419d6";
     put := flaky_put 0; head := HeadResponse 404 None; getsize := Some 10 |}.

(** The server does not report a size. *)
Definition no_length : file_env :=
  {| exists_ := true; st_size := Some 10; md5 := Some "9e107d9d372bb6826bd81d3542a419d6";
     put := flaky_put 0; head := HeadResponse 200 None; getsize := Some 10 |}.

(** The server reports a size that is not the local one. *)
Definition truncated : file_env :=
  {| exists_ := true; st_size := Some 10; md5 := Some "9e107d9d372bb6826bd81d3542a419d6";
     put := flaky_put 0; head := HeadResponse 200 (Some (Some 7)); getsize := Some 10 |}.

(** A directory with one subdirectory and no file. *)
Definition empty_dir : dir_env :=
  {| is_dir := true;
     glob := [ {| item := "d/sub"; is_file := false; rel_path := "sub" |} ] |}.

(** A directory with a 5 MiB file and a 200 MiB file. *)
Definition two_files : dir_env :=
  {| is_dir := true;
     glob := [ {| item := "d/B"; is_file := true; rel_path := "B" |};
               {| item := "d/A"; is_file := true; rel_path := "A" |} ] |}.

Definition two_sizes (file_path : string) : raising Z :=
  if String.eqb file_path "d/A" then Some (5 * 1024 * 1024)
  else Some (200 * 1024 * 1024).

Definition the_uploader : uploader :=
  JFrogUploader_init "http://host/" "repo" DEFAULT_CONCURRENT_UPLOADS
                     DEFAULT_LARGE_FILE_THRESHOLD None
                     (Some {| total := 16 * 1024 * 1024 * 1024;
                              available := 8 * 1024 * 1024 * 1024 |}).

(** Every upload is accepted and validated. *)
Definition reliable (file_path : string) : file_env :=
  match two_sizes file_path with
  | Some size => stored size (flaky_put 0)
  | None => stored 0 (flaky_put 0)
  end.

(** As [reliable], but the server refuses every PUT of [d/A]. *)
Definition refuses_A (file_path : string) : file_env :=
  if String.eqb file_path "d/A" then stored (5 * 1024 * 1024) failing_put
  else reliable file_path.

(** A directory with two large files; [d/B] vanishes between the scan and
    its upload, so that the [stat] of [upload_file] raises. *)
Definition two_large : dir_env :=
  {| is_dir := true;
     glob := [ {| item := "d/B"; is_file := true; rel_path := "B" |};
               {| item := "d/C"; is_file := true; rel_path := "C" |} ] |}.

Definition large_sizes (file_path : string) : raising Z :=
  if String.eqb file_path "d/B" then Some (200 * 1024 * 1024)
  else Some (300 * 1024 * 1024).

Definition vanishing_B (file_path : string) : file_env :=
  if String.eqb file_path "d/B" then
    {| exists_ := true; st_size := None; md5 := None;
       put := failing_put; head := HeadRaises; getsize := None |}
  else stored (300 * 1024 * 1024) (flaky_put 0).

(** The size [stat] sees for the files of [two_files]. *)
Definition two_stat (file_path : string) : Z :=
  match two_sizes file_path with Some z => z | None => 0 end.

(** The small file A is being streamed by a worker while B waits for the
    large-file loop. *)
Definition a_streaming : sched :=
  {| queue := [];
     running := [ {| t_file := ("d/A", "A"); t_pc := NoLock |} ];
     lock_held := false;
     main := Pool [("d/B", "B")] |}.

(** The pool is done and the main thread uploads B under the lock. *)
Definition b_in_lock : sched :=
  {| queue := [];
     running := [];
     lock_held := true;
     main := Large (Some {| t_file := ("d/B", "B"); t_pc := InLock |}) [] |}.

(** The float [100.0], the default of [--large-threshold]. *)
Definition lit_100 : SpecFloat.spec_float := S754_finite false 7036874417766400 (-46).

(** The command line [--parallel 3 --url http://host/ --repo repo]. *)
Definition default_args : cli_args :=
  {| arg_parallel := 3; arg_large_threshold := lit_100; arg_chunk_size := None;
     arg_target := None; arg_url := "http://host/"; arg_repo := "repo" |}.

Definition mem_16g : raising svmem :=
  Some {| total := 16 * 1024 * 1024 * 1024; available := 8 * 1024 * 1024 * 1024 |}.

(** *** An archive build *)

Import Script2.

(** An attempt of a small file of [n] bytes that goes through. *)
Definition attempt_small (n : Z) : attempt_env :=
  {| setup := Done; reads := fun _ => []; data_len := n; write := Done;
     close_entry := Done; close_archive := Done; directory_lost := false |}.

Definition attempt_ok : attempt_env := attempt_small 0.

(** An attempt that cannot open its file. *)
Definition attempt_unreadable : attempt_env :=
  {| setup := IOErr; reads := fun _ => []; data_len := 0; write := Done;
     close_entry := Done; close_archive := Done; directory_lost := false |}.

Definition src_sizes (file_path : string) : raising Z :=
  if String.eqb file_path "src/a.bin" then Some 10
  else if String.eqb file_path "src/b.bin" then Some 5
  else Some 7.

(** [os.path.relpath(_, "src")] on the paths of the samples. *)
Definition src_relpath (file_path : string) : string :=
  match file_path with
  | String "s" (String "r" (String "c" (String "/" rest))) => rest
  | _ => file_path
  end.

(** A build on the tree [src] in which every call on the archive goes
    through but for the attempts that [attempts] scripts. *)
Definition build (walk_after : list (string * list string))
           (attempts : string -> nat -> attempt_env) : env :=
  {| available_memory := 8 * 1024 * 1024 * 1024;
     walk := [("src", ["b.bin"; "old.zip"; "a.bin"])];
     walk_after := walk_after;
     relpath := src_relpath;
     getsize := src_sizes;
     archive_created := fun _ => true;
     attempt_at := fun _ => attempts;
     elapsed_is_zero := false;
     archive_readable := true;
     validation_after_loss := None |}.

Definition all_through (file_path : string) (_ : nat) : attempt_env :=
  match src_sizes file_path with
  | Some n => attempt_small n
  | None => attempt_ok
  end.

(** The source tree [src] holds [b.bin] (5 bytes), [a.bin] (10 bytes) and
    an older archive [old.zip]; at validation time it also holds the
    output archive [out.ZIP]. *)
Definition src_tree : env :=
  build [("src", ["b.bin"; "out.ZIP"; "old.zip"; "a.bin"])] all_through.

(** The same tree, but [a.bin] cannot be opened at any attempt. *)
Definition src_tree_unreadable_a : env :=
  build (walk_after src_tree)
        (fun file_path attempt =>
           if String.eqb file_path "src/a.bin" then attempt_unreadable
           else all_through file_path attempt).


(** A 20 MiB file read in two chunks: the write of the second chunk meets
    an I/O error, and the read that follows finds the end of the file. *)
Definition attempt_chunk_error : attempt_env :=
  {| setup := Done;
     reads := fun chunk_size =>
                [ReadOk chunk_size; WriteIOError (20 * 1024 * 1024 - chunk_size)];
     data_len := 0; write := Done;
     close_entry := Done; close_archive := Done; directory_lost := false |}.

(** An attempt that cannot open the archive for another reason than an
    I/O error (the compression asked for is not supported, say). *)
Definition attempt_bad_archive : attempt_env :=
  {| setup := OtherErr; reads := fun _ => []; data_len := 0; write := Done;
     close_entry := Done; close_archive := Done; directory_lost := false |}.

(** The same tree, but the archive cannot be opened when [a.bin] is to be
    added. *)
Definition src_tree_bad_archive_a : env :=
  build (walk_after src_tree)
        (fun file_path attempt =>
           if String.eqb file_path "src/a.bin" then attempt_bad_archive
           else all_through file_path attempt).

(** An attempt on a file of 10 bytes whose entry cannot be closed. *)
Definition attempt_close_fails : attempt_env :=
  {| setup := Done; reads := fun _ => []; data_len := 10; write := Done;
     close_entry := IOErr; close_archive := Done; directory_lost := false |}.

(** The same tree, but the entry of [a.bin] cannot be closed at the first
    attempt. *)
Definition src_tree_close_fails_a : env :=
  build (walk_after src_tree)
        (fun file_path attempt =>
           if String.eqb file_path "src/a.bin" && (attempt =? 0)%nat then attempt_close_fails
           else all_through file_path attempt).

(** The tree [src] when nothing is added to it during the build. *)
Definition src_tree_quiet : env :=
  build (walk src_tree) all_through.

(** The tree [src] when the output archive cannot be created. *)
Definition src_tree_no_archive : env :=
  {| available_memory := available_memory src_tree;
     walk := walk src_tree;
     walk_after := walk src_tree;
     relpath := src_relpath;
     getsize := src_sizes;
     archive_created := fun _ => false;
     attempt_at := fun _ => all_through;
     elapsed_is_zero := false;
     archive_readable := false;
     validation_after_loss := None |}.

(** The command line [--source src --output out]. *)
Definition script2_args : Script2.cli_args :=
  {| Script2.arg_source := Some "src"; Script2.arg_output := Some "out";
     Script2.arg_method_7zip := false; Script2.arg_compress := false;
     Script2.arg_test_performance := false |}.

(** *** A run of the Nexus script *)

Definition one_file : list Nexus.glob_entry :=
  [{| Nexus.file_path := "d/a.bin"; Nexus.is_file := true;
      Nexus.arcname := "a.bin"; Nexus.st_size := Some 10 |}].

(** The second pass over [d] when the output [d/out.zip] lies in it. *)
Definition one_file_and_output : list Nexus.glob_entry :=
  [{| Nexus.file_path := "d/a.bin"; Nexus.is_file := true;
      Nexus.arcname := "a.bin"; Nexus.st_size := Some 10 |};
   {| Nexus.file_path := "d/out.zip"; Nexus.is_file := true;
      Nexus.arcname := "out.zip"; Nexus.st_size := Some 0 |}].

(** The command line
    [--zip-file out.zip --nexus-url http://nexus/ --repository raw
     --username u --password p]. *)
Definition nexus_args : Nexus.cli_args :=
  {| Nexus.arg_zip_file := Some "out.zip"; Nexus.arg_nexus_url := "http://nexus/";
     Nexus.arg_repository := "raw"; Nexus.arg_username := Some "u";
     Nexus.arg_password := Some "p"; Nexus.arg_directory := None;
     Nexus.arg_keep_zip := false |}.

(** The archive is made of the one file; the server answers 500. *)
Definition nexus_refusing : Nexus.env :=
  {| Nexus.temp_dir_raises := false; Nexus.timestamp := "t";
     Nexus.is_dir := true; Nexus.glob := one_file; Nexus.glob_again := one_file;
     Nexus.archive_opens := true; Nexus.adds := fun _ => true;
     Nexus.archive_closes := true;
     Nexus.env_username := None; Nexus.env_password := None;
     Nexus.zip_exists := true; Nexus.put := fun _ => Nexus.Response 500;
     Nexus.remove_raises := false |}.

(** *** A run of the GCS script *)

(** [git lfs pull] fails, everything else goes through; the clone holds one
    file. *)
Definition pull_fails : Gcs.env :=
  {| Gcs.run := fun command =>
       if decide (command = ["git"; "-C"; "repo_t"; "lfs"; "pull"])
       then Gcs.ExitsNonZero else Gcs.Succeeds;
     Gcs.makedirs_raises := false;
     Gcs.client_raises := false;
     Gcs.walk := [("repo_t", ["README"])];
     Gcs.relpath := fun p => match p with
                             | String "r" (String "e" (String "p" (String "o"
                                 (String "_" (String "t" (String "/" rest)))))) => rest
                             | _ => p
                             end;
     Gcs.upload_raises := fun _ => false |}.

End Samples.

(** * Properties *)

(** ** Chunk sizes *)

Section ChunkSize.

Import PyFloat Jfrog Script2.

Example lit_0_1_is_tenth :
  SFdiv prec emax (binary_normalize prec emax 1 0 false)
                  (binary_normalize prec emax 10 0 false) = lit_0_1.
Proof. vm_compute. reflexivity. Qed.

Example lit_0_8_is_four_fifths :
  SFdiv prec emax (binary_normalize prec emax 8 0 false)
                  (binary_normalize prec emax 10 0 false) = lit_0_8.
Proof. vm_compute. reflexivity. Qed.

(** 16 GiB of memory with 8 GiB free and five streams: the candidate is
    far above the cap. *)
Example advisor_roomy :
  calculate_optimal_chunk_size
    (Some {| total := 16 * 2^30; available := 8 * 2^30 |}) 5 = 64 * 2^20.
Proof. vm_compute. reflexivity. Qed.

(** 1 GiB of memory with 100 MiB free (below a tenth, so a tenth of the total
    is used instead), 16 streams: 1 MiB after rounding down. *)
Example advisor_tight :
  calculate_optimal_chunk_size
    (Some {| total := 2^30; available := 100 * 2^20 |}) 16 = 1 * 2^20.
Proof. vm_compute. reflexivity. Qed.

Example advisor_mid :
  calculate_optimal_chunk_size
    (Some {| total := 8 * 2^30; available := 2^30 |}) 5 = 40 * 2^20.
Proof. vm_compute. reflexivity. Qed.

(** Less than a tenth of 16 GiB is free: a tenth of the total is used, and
    the candidate 49085340 is rounded down to 46 MiB. *)
Example advisor_low_memory :
  calculate_optimal_chunk_size
    (Some {| total := 17179869184; available := 123456789 |}) 7 = 46 * 2^20.
Proof. vm_compute. reflexivity. Qed.

(** A negative number of streams gives a negative candidate, clamped to
    the minimum. *)
Example advisor_negative_streams :
  calculate_optimal_chunk_size
    (Some {| total := 8 * 2^30; available := 2^30 |}) (-3) = MIN_CHUNK_SIZE.
Proof. vm_compute. reflexivity. Qed.

(** Memory statistics that do not fit a float: the fallback. *)
Example advisor_overflow :
  calculate_optimal_chunk_size
    (Some {| total := 10 ^ 400; available := 5 |}) 3 = DEFAULT_CHUNK_SIZE.
Proof. vm_compute. reflexivity. Qed.

Example advisor_no_streams :
  calculate_optimal_chunk_size
    (Some {| total := 8 * 2^30; available := 2^30 |}) 0 = DEFAULT_CHUNK_SIZE.
Proof. vm_compute. reflexivity. Qed.

Lemma clamp_and_round_range (c : Z) :
  MIN_CHUNK_SIZE <= clamp_and_round c <= MAX_CHUNK_SIZE.
Proof.
  unfold clamp_and_round, MIN_CHUNK_SIZE, MAX_CHUNK_SIZE.
  set (k := Z.max _ _).
  assert (Hk : 1 * 1024 * 1024 <= k <= 64 * 1024 * 1024) by (subst k; lia).
  clearbody k.
  pose proof (Z.div_le_mono (1 * 1024 * 1024) k (1024 * 1024) ltac:(lia) (proj1 Hk)) as Hlo.
  pose proof (Z.mul_div_le k (1024 * 1024) ltac:(lia)) as Hhi.
  change (1 * 1024 * 1024 / (1024 * 1024)) with 1 in Hlo.
  lia.
Qed.

Lemma clamp_and_round_whole_mib (c : Z) :
  (clamp_and_round c) mod (1024 * 1024) = 0.
Proof. unfold clamp_and_round. apply Z.mod_mul. lia. Qed.

Lemma calculate_optimal_chunk_size_range (mem : raising svmem) (streams : Z) :
  MIN_CHUNK_SIZE <= calculate_optimal_chunk_size mem streams <= MAX_CHUNK_SIZE.
Proof.
  unfold calculate_optimal_chunk_size.
  destruct (chunk_size_try mem streams) as [c|] eqn:E.
  - unfold chunk_size_try in E.
    repeat match type of E with
           | match ?x with _ => _ end = Some _ => destruct x; try discriminate
           end.
    injection E as <-. apply clamp_and_round_range.
  - vm_compute. split; discriminate.
Qed.

Lemma get_recommended_chunk_size_range (available_memory : Z) :
  8192 <= get_recommended_chunk_size available_memory <= 64 * 1024 * 1024.
Proof. unfold get_recommended_chunk_size. lia. Qed.

End ChunkSize.

(** C1, as stated, at the companion recommendation: with 50 MiB of
    available memory it recommends 512 KiB, below [MIN_CHUNK_SIZE]. *)
Lemma recommended_chunk_size_below_min :
  Script2.get_recommended_chunk_size (50 * 1024 * 1024) = 512 * 1024 /\
  ~ (Jfrog.MIN_CHUNK_SIZE <= Script2.get_recommended_chunk_size (50 * 1024 * 1024)
     <= Jfrog.MAX_CHUNK_SIZE).
Proof.
  split; [reflexivity|].
  vm_compute. intros [H _]. apply H. reflexivity.
Qed.

(** C1 (amended): for every memory reading (or failure to read it) and every
    number of streams the primary advisor returns a chunk size within
    [MIN_CHUNK_SIZE, MAX_CHUNK_SIZE] = [1 MiB, 64 MiB]; the companion
    memory-based recommendation is within [8 KiB, 64 MiB] for every amount
    of available memory. *)
Theorem chunk_size_bounds (mem : PyFloat.raising Jfrog.svmem) (streams available_memory : Z) :
  (Jfrog.MIN_CHUNK_SIZE <= Jfrog.calculate_optimal_chunk_size mem streams
     <= Jfrog.MAX_CHUNK_SIZE) /\
  (8192 <= Script2.get_recommended_chunk_size available_memory
     <= Jfrog.MAX_CHUNK_SIZE).
Proof.
  split.
  - apply calculate_optimal_chunk_size_range.
  - apply get_recommended_chunk_size_range.
Qed.

(** C6, as stated, at the two boundaries: a file of exactly 1 GiB gets
    4 MiB, and a file of exactly 100 MiB gets 8 KiB, when little memory is
    available. *)
Lemma optimal_chunk_size_at_boundaries :
  Script2.get_optimal_chunk_size (1024 * 1024 * 1024) 0 = 4 * 1024 * 1024 /\
  ~ (16 * 1024 * 1024 <= Script2.get_optimal_chunk_size (1024 * 1024 * 1024) 0) /\
  Script2.get_optimal_chunk_size (100 * 1024 * 1024) 0 = 8192 /\
  ~ (4 * 1024 * 1024 <= Script2.get_optimal_chunk_size (100 * 1024 * 1024) 0).
Proof.
  repeat split; try reflexivity; vm_compute; intros H; apply H; reflexivity.
Qed.

(** C6 (amended): for every file strictly larger than 1 GiB the advised
    chunk size is at least 16 MiB, and for every file strictly larger than
    100 MiB it is at least 4 MiB. *)
Theorem get_optimal_chunk_size_floor (file_size available_memory : Z) :
  (file_size > 1024 * 1024 * 1024 ->
   16 * 1024 * 1024 <= Script2.get_optimal_chunk_size file_size available_memory) /\
  (file_size > 100 * 1024 * 1024 ->
   4 * 1024 * 1024 <= Script2.get_optimal_chunk_size file_size available_memory).
Proof.
  unfold Script2.get_optimal_chunk_size.
  split; intros H.
  - destruct (Z.gtb_spec file_size (1 * 1024 * 1024 * 1024)); lia.
  - destruct (Z.gtb_spec file_size (1 * 1024 * 1024 * 1024));
      destruct (Z.gtb_spec file_size (100 * 1024 * 1024)); lia.
Qed.

Lemma get_optimal_chunk_size_floor_witness :
  16 * 1024 * 1024 <= Script2.get_optimal_chunk_size (2 * 1024 * 1024 * 1024) 0 /\
  4 * 1024 * 1024 <= Script2.get_optimal_chunk_size (200 * 1024 * 1024) 0.
Proof.
  split.
  - apply (proj1 (get_optimal_chunk_size_floor (2 * 1024 * 1024 * 1024) 0)). lia.
  - apply (proj2 (get_optimal_chunk_size_floor (200 * 1024 * 1024) 0)). lia.
Defined.

(** ** Post-upload validation *)

Section Validation.

Import PyFloat Jfrog.

Lemma validate_upload_size_mismatch (fe : file_env) status n m :
  head fe = HeadResponse status (Some (Some n)) ->
  getsize fe = Some m ->
  n <> m ->
  _validate_upload fe = false.
Proof.
  intros Hh Hg Hne. unfold _validate_upload. rewrite Hh, Hg.
  destruct (negb (status =? 200)); [reflexivity|].
  destruct (Z.eqb_spec n m); [contradiction|reflexivity].
Qed.

Lemma validate_upload_no_size (fe : file_env) m :
  head fe = HeadResponse 200 None ->
  getsize fe = Some m ->
  _validate_upload fe = true.
Proof. intros Hh Hg. unfold _validate_upload. rewrite Hh, Hg. reflexivity. Qed.

Lemma validate_upload_size_match (fe : file_env) m :
  head fe = HeadResponse 200 (Some (Some m)) ->
  getsize fe = Some m ->
  _validate_upload fe = true.
Proof.
  intros Hh Hg. unfold _validate_upload. rewrite Hh, Hg. simpl.
  rewrite Z.eqb_refl. reflexivity.
Qed.

(** Whatever the server answers, a [True] of the validation means the
    HEAD request was answered with status 200. *)
Lemma validate_upload_true_inv (fe : file_env) :
  _validate_upload fe = true ->
  exists cl, head fe = HeadResponse 200 cl.
Proof.
  unfold _validate_upload. destruct (head fe) as [|status cl]; [discriminate|].
  destruct (Z.eqb_spec status 200) as [->|]; simpl; [eauto|discriminate].
Qed.

End Validation.

(** ** The retrying upload *)

Section Retry.

Import PyFloat Jfrog.

Variable fe : file_env.
Variable url : string.

Lemma attempts_cons_put u h tr : attempts (EvPut u h :: tr) = S (attempts tr).
Proof. reflexivity. Qed.

Lemma attempts_cons_sleep s tr : attempts (EvSleep s :: tr) = attempts tr.
Proof. reflexivity. Qed.

(** [k] failures, then a success: [k + 1] PUT requests, and the result is
    the one of the validation. *)
Lemma upload_loop_fail_then_ok (k : nat) :
  forall (start n : nat) (headers : gmap string string),
    (k < n)%nat ->
    (forall i h, (start <= i < start + k)%nat -> put_fails (put fe i h)) ->
    (forall h, put_succeeds (put fe (start + k) h)) ->
    fst (upload_loop fe url (seq start n) headers) = _validate_upload fe /\
    attempts (snd (upload_loop fe url (seq start n) headers)) = S k.
Proof.
  induction k as [|k IH]; intros start n headers Hk Hfail Hok.
  - destruct n as [|n]; [lia|]. simpl.
    specialize (Hok headers). rewrite Nat.add_0_r in Hok.
    destruct (put fe start headers) as [|status text]; simpl in Hok; [tauto|].
    rewrite Hok. split; reflexivity.
  - destruct n as [|n]; [lia|]. simpl.
    assert (Hrest : forall h',
               fst (upload_loop fe url (seq (S start) n) h') = _validate_upload fe /\
               attempts (snd (upload_loop fe url (seq (S start) n) h')) = S k).
    { intros h'. apply IH; [lia| |].
      - intros i h Hi. apply Hfail. lia.
      - intros h. replace (S start + k)%nat with (start + S k)%nat by lia. apply Hok. }
    pose proof (Hfail start headers ltac:(lia)) as Hf.
    destruct (put fe start headers) as [|status text]; simpl in Hf.
    + destruct (upload_loop fe url (seq (S start) n) headers) as [r tr] eqn:E.
      specialize (Hrest headers). rewrite E in Hrest. simpl in *.
      rewrite attempts_cons_put, attempts_cons_sleep. destruct Hrest. split; congruence.
    + rewrite Hf.
      match goal with
      | |- context [upload_loop fe url (seq (S start) n) ?h] =>
          specialize (Hrest h);
          destruct (upload_loop fe url (seq (S start) n) h) as [r tr]
      end.
      simpl in *. rewrite attempts_cons_put, attempts_cons_sleep.
      destruct Hrest. split; congruence.
Qed.

(** Every PUT fails: one request per retry, then [False]. *)
Lemma upload_loop_all_fail (n : nat) :
  forall (start : nat) (headers : gmap string string),
    (forall i h, (start <= i < start + n)%nat -> put_fails (put fe i h)) ->
    fst (upload_loop fe url (seq start n) headers) = false /\
    attempts (snd (upload_loop fe url (seq start n) headers)) = n.
Proof.
  induction n as [|n IH]; intros start headers Hfail.
  - split; reflexivity.
  - simpl.
    assert (Hrest : forall h',
               fst (upload_loop fe url (seq (S start) n) h') = false /\
               attempts (snd (upload_loop fe url (seq (S start) n) h')) = n).
    { intros h'. apply IH. intros i h Hi. apply Hfail. lia. }
    pose proof (Hfail start headers ltac:(lia)) as Hf.
    destruct (put fe start headers) as [|status text]; simpl in Hf.
    + specialize (Hrest headers).
      destruct (upload_loop fe url (seq (S start) n) headers) as [r tr].
      simpl in *. rewrite attempts_cons_put, attempts_cons_sleep.
      destruct Hrest. split; congruence.
    + rewrite Hf.
      match goal with
      | |- context [upload_loop fe url (seq (S start) n) ?h] =>
          specialize (Hrest h);
          destruct (upload_loop fe url (seq (S start) n) h) as [r tr]
      end.
      simpl in *. rewrite attempts_cons_put, attempts_cons_sleep.
      destruct Hrest. split; congruence.
Qed.

Lemma deploy_headers_again md5_hash :
  <["X-Checksum-Deploy" := "true"]> (deploy_headers md5_hash) = deploy_headers md5_hash.
Proof. unfold deploy_headers. apply insert_insert_eq. Qed.

Lemma headers_at_succ md5_hash i :
  headers_at fe md5_hash (S i)
  = if mentions_checksum (put fe i (headers_at fe md5_hash i))
    then deploy_headers md5_hash
    else headers_at fe md5_hash i.
Proof.
  unfold headers_at. rewrite seq_S, existsb_app. simpl. rewrite orb_false_r.
  destruct (existsb _ (seq 0 i)); simpl.
  - destruct (mentions_checksum _); reflexivity.
  - reflexivity.
Qed.

(** The headers that the loop goes on with after a refused PUT. *)
Lemma headers_after_refusal md5_hash start status text :
  put fe start (headers_at fe md5_hash start) = PutResponse status text ->
  status_ok status = false ->
  (if PyStr.contains "checksum" (PyStr.lower text)
   then <["X-Checksum-Deploy" := "true"]> (headers_at fe md5_hash start)
   else headers_at fe md5_hash start)
  = headers_at fe md5_hash (S start).
Proof.
  intros Eput Hs. rewrite headers_at_succ, Eput. simpl. rewrite Hs. simpl.
  destruct (PyStr.contains _ _); [|reflexivity].
  unfold headers_at. destruct (existsb _ _); [apply deploy_headers_again|reflexivity].
Qed.

Lemma headers_after_exception md5_hash start :
  put fe start (headers_at fe md5_hash start) = PutRaises ->
  headers_at fe md5_hash start = headers_at fe md5_hash (S start).
Proof. intros Eput. rewrite headers_at_succ, Eput. reflexivity. Qed.

(** [k] failures, then a success, each judged at the headers that the
    loop sends. *)
Lemma upload_loop_sent_fail_then_ok md5_hash (k : nat) :
  forall (start n : nat),
    (k < n)%nat ->
    (forall i, (start <= i < start + k)%nat ->
               put_fails (put fe i (headers_at fe md5_hash i))) ->
    put_succeeds (put fe (start + k) (headers_at fe md5_hash (start + k))) ->
    fst (upload_loop fe url (seq start n) (headers_at fe md5_hash start))
    = _validate_upload fe /\
    attempts (snd (upload_loop fe url (seq start n) (headers_at fe md5_hash start))) = S k.
Proof.
  induction k as [|k IH]; intros start n Hk Hfail Hok.
  - destruct n as [|n]; [lia|]. simpl.
    rewrite Nat.add_0_r in Hok.
    destruct (put fe start (headers_at fe md5_hash start)) as [|status text];
      simpl in Hok; [tauto|].
    rewrite Hok. split; reflexivity.
  - destruct n as [|n]; [lia|]. simpl.
    destruct (IH (S start) n) as [IH1 IH2]; [lia| | |].
    { intros i Hi. apply Hfail. lia. }
    { replace (S start + k)%nat with (start + S k)%nat by lia. exact Hok. }
    pose proof (Hfail start ltac:(lia)) as Hf.
    destruct (put fe start (headers_at fe md5_hash start)) as [|status text] eqn:Eput;
      simpl in Hf.
    + rewrite <- (headers_after_exception md5_hash start Eput) in IH1, IH2.
      destruct (upload_loop fe url (seq (S start) n) (headers_at fe md5_hash start))
        as [r tr].
      simpl in *. rewrite attempts_cons_put, attempts_cons_sleep. split; congruence.
    + rewrite Hf, (headers_after_refusal md5_hash start status text Eput Hf).
      destruct (upload_loop fe url (seq (S start) n) (headers_at fe md5_hash (S start)))
        as [r tr].
      simpl in *. rewrite attempts_cons_put, attempts_cons_sleep. split; congruence.
Qed.

(** Every PUT fails at the headers that the loop sends. *)
Lemma upload_loop_sent_all_fail md5_hash (n : nat) :
  forall (start : nat),
    (forall i, (start <= i < start + n)%nat ->
               put_fails (put fe i (headers_at fe md5_hash i))) ->
    fst (upload_loop fe url (seq start n) (headers_at fe md5_hash start)) = false /\
    attempts (snd (upload_loop fe url (seq start n) (headers_at fe md5_hash start))) = n.
Proof.
  induction n as [|n IH]; intros start Hfail.
  - split; reflexivity.
  - simpl.
    destruct (IH (S start)) as [IH1 IH2].
    { intros i Hi. apply Hfail. lia. }
    pose proof (Hfail start ltac:(lia)) as Hf.
    destruct (put fe start (headers_at fe md5_hash start)) as [|status text] eqn:Eput;
      simpl in Hf.
    + rewrite <- (headers_after_exception md5_hash start Eput) in IH1, IH2.
      destruct (upload_loop fe url (seq (S start) n) (headers_at fe md5_hash start))
        as [r tr].
      simpl in *. rewrite attempts_cons_put, attempts_cons_sleep. split; congruence.
    + rewrite Hf, (headers_after_refusal md5_hash start status text Eput Hf).
      destruct (upload_loop fe url (seq (S start) n) (headers_at fe md5_hash (S start)))
        as [r tr].
      simpl in *. rewrite attempts_cons_put, attempts_cons_sleep. split; congruence.
Qed.

(** The loop never sends more than one PUT per retry. *)
Lemma upload_loop_attempts_le (retries : list nat) :
  forall headers,
    (attempts (snd (upload_loop fe url retries headers)) <= length retries)%nat.
Proof.
  induction retries as [|retry rest IH]; intros headers; simpl; [unfold attempts; simpl; lia|].
  destruct (put fe retry headers) as [|status text].
  - specialize (IH headers).
    destruct (upload_loop fe url rest headers) as [r tr]. simpl in *.
    rewrite attempts_cons_put, attempts_cons_sleep. lia.
  - destruct (status_ok status); simpl.
    + unfold attempts. simpl. lia.
    + match goal with
      | |- context [upload_loop fe url rest ?h] =>
          specialize (IH h); destruct (upload_loop fe url rest h) as [r tr]
      end.
      simpl in *. rewrite attempts_cons_put, attempts_cons_sleep. lia.
Qed.

End Retry.

Section RetryClaims.

Import PyFloat Jfrog.

(** The scenario of the specification: 503 twice, then 201. *)
Example upload_503_503_201 :
  _upload_with_streaming (Samples.stored 10 (Samples.flaky_put 2)) "u" "m"
  = (true,
     [EvPut "u" (initial_headers "m"); EvSleep 1;
      EvPut "u" (initial_headers "m"); EvSleep 2;
      EvPut "u" (initial_headers "m"); EvTrackerClose; EvHead "u"]).
Proof. reflexivity. Qed.

Example upload_always_500 :
  _upload_with_streaming (Samples.stored 10 Samples.failing_put) "u" "m"
  = (false,
     [EvPut "u" (initial_headers "m"); EvSleep 1;
      EvPut "u" (initial_headers "m"); EvSleep 2;
      EvPut "u" (initial_headers "m"); EvSleep 4; EvTrackerClose]).
Proof. reflexivity. Qed.

End RetryClaims.

(** C2, as stated, where the operation succeeds at once and the validation
    that follows fails: no PUT failed, one attempt was made, and the
    transport returns failure. *)
Lemma upload_accepted_but_reported_failed :
  (forall h, Jfrog.put_succeeds (Jfrog.put Samples.accepted_then_gone 0 h)) /\
  fst (Jfrog._upload_with_streaming Samples.accepted_then_gone "u" "m") = false /\
  Jfrog.attempts (snd (Jfrog._upload_with_streaming Samples.accepted_then_gone "u" "m")) = 1%nat.
Proof. repeat split. Qed.

(** C2 (amended): with [MAX_RETRIES] = 3 attempts, if the PUT fails [k] times
    with [k < MAX_RETRIES] and then is accepted (200 or 201), the upload stops
    after exactly [k + 1] PUT requests and returns the result of the
    post-upload validation (success exactly when that validation passes);
    if the PUT fails on every attempt, the upload returns failure after
    exactly [MAX_RETRIES] PUT requests.  Each PUT is judged by the answer to
    the request that is sent, with the headers it carries then. *)
Theorem upload_with_streaming_attempts (fe : Jfrog.file_env) (url md5_hash : string) :
  (forall k : nat,
      (k < Jfrog.MAX_RETRIES)%nat ->
      (forall i, (i < k)%nat ->
                 Jfrog.put_fails (Jfrog.put fe i (Jfrog.headers_at fe md5_hash i))) ->
      Jfrog.put_succeeds (Jfrog.put fe k (Jfrog.headers_at fe md5_hash k)) ->
      fst (Jfrog._upload_with_streaming fe url md5_hash) = Jfrog._validate_upload fe /\
      Jfrog.attempts (snd (Jfrog._upload_with_streaming fe url md5_hash)) = S k) /\
  ((forall i, (i < Jfrog.MAX_RETRIES)%nat ->
              Jfrog.put_fails (Jfrog.put fe i (Jfrog.headers_at fe md5_hash i))) ->
      fst (Jfrog._upload_with_streaming fe url md5_hash) = false /\
      Jfrog.attempts (snd (Jfrog._upload_with_streaming fe url md5_hash)) = Jfrog.MAX_RETRIES).
Proof.
  unfold Jfrog._upload_with_streaming.
  change (Jfrog.initial_headers md5_hash) with (Jfrog.headers_at fe md5_hash 0).
  split.
  - intros k Hk Hfail Hok.
    apply upload_loop_sent_fail_then_ok; [exact Hk| |exact Hok].
    intros i Hi. apply Hfail. lia.
  - intros Hfail. apply upload_loop_sent_all_fail.
    intros i Hi. apply Hfail. lia.
Qed.

(** A server that wants [X-Checksum-Deploy]: refused once, then accepted
    with the header that the refusal made the loop add; and a server that
    refuses every PUT. *)
Lemma upload_with_streaming_attempts_witness :
  (fst (Jfrog._upload_with_streaming (Samples.stored 10 Samples.wants_deploy_put) "u" "m")
     = Jfrog._validate_upload (Samples.stored 10 Samples.wants_deploy_put) /\
   Jfrog.attempts
     (snd (Jfrog._upload_with_streaming (Samples.stored 10 Samples.wants_deploy_put) "u" "m"))
     = 2%nat) /\
  (fst (Jfrog._upload_with_streaming (Samples.stored 10 Samples.failing_put) "u" "m") = false /\
   Jfrog.attempts
     (snd (Jfrog._upload_with_streaming (Samples.stored 10 Samples.failing_put) "u" "m"))
     = Jfrog.MAX_RETRIES).
Proof.
  split.
  - apply (proj1 (upload_with_streaming_attempts
                    (Samples.stored 10 Samples.wants_deploy_put) "u" "m") 1%nat).
    + unfold Jfrog.MAX_RETRIES. lia.
    + intros i Hi. destruct i as [|i]; [vm_compute; reflexivity|lia].
    + vm_compute. reflexivity.
  - apply (proj2 (upload_with_streaming_attempts
                    (Samples.stored 10 Samples.failing_put) "u" "m")).
    intros i Hi. simpl. reflexivity.
Defined.

(** C8, as stated, at two answers of the server: one that reports the local
    size (full validation) and one that reports no size (existence only).
    The validation returns the same [True] for both, so its result does not
    tell the two strengths apart. *)
Lemma validation_strength_not_distinguished :
  Jfrog.head (Samples.stored 10 (Samples.flaky_put 0)) = Jfrog.HeadResponse 200 (Some (Some 10)) /\
  Jfrog.head Samples.no_length = Jfrog.HeadResponse 200 None /\
  Jfrog._validate_upload (Samples.stored 10 (Samples.flaky_put 0)) = true /\
  Jfrog._validate_upload Samples.no_length = true /\
  ~ (Jfrog._validate_upload Samples.no_length
     <> Jfrog._validate_upload (Samples.stored 10 (Samples.flaky_put 0))).
Proof.
  repeat split. intros H. apply H. reflexivity.
Qed.

(** C8 (amended): whenever the server reports a size that differs from the
    local size, the validation fails; when the server reports no size (and
    answers 200), the validation degrades to an existence check and returns
    [True], the very value it returns after a matching size. *)
Theorem validate_upload_policy (fe : Jfrog.file_env) :
  (forall status n m,
      Jfrog.head fe = Jfrog.HeadResponse status (Some (Some n)) ->
      Jfrog.getsize fe = Some m ->
      n <> m ->
      Jfrog._validate_upload fe = false) /\
  (forall m,
      Jfrog.head fe = Jfrog.HeadResponse 200 None ->
      Jfrog.getsize fe = Some m ->
      Jfrog._validate_upload fe = true) /\
  (forall m,
      Jfrog.head fe = Jfrog.HeadResponse 200 (Some (Some m)) ->
      Jfrog.getsize fe = Some m ->
      Jfrog._validate_upload fe = true).
Proof.
  split; [|split].
  - intros status n m. apply validate_upload_size_mismatch.
  - intros m. apply validate_upload_no_size.
  - intros m. apply validate_upload_size_match.
Qed.

Lemma validate_upload_policy_witness :
  Jfrog._validate_upload Samples.truncated = false /\
  Jfrog._validate_upload Samples.no_length = true /\
  Jfrog._validate_upload (Samples.stored 10 (Samples.flaky_put 0)) = true.
Proof.
  split; [|split].
  - apply (proj1 (validate_upload_policy Samples.truncated) 200 7 10);
      [reflexivity | reflexivity | lia].
  - apply (proj1 (proj2 (validate_upload_policy Samples.no_length)) 10); reflexivity.
  - apply (proj2 (proj2 (validate_upload_policy (Samples.stored 10 (Samples.flaky_put 0)))) 10);
      reflexivity.
Defined.

(** ** The directory upload *)

Section SortFacts.

Context {A : Type} (le : A -> A -> bool).

Lemma insert_le_perm (x : A) (l : list A) :
  Permutation (PyList.insert_le le x l) (x :: l).
Proof.
  induction l as [|y l IH]; simpl; [reflexivity|].
  destruct (le x y); [reflexivity|].
  rewrite IH. apply perm_swap.
Qed.

Lemma sort_le_perm (l : list A) : Permutation (PyList.sort_le le l) l.
Proof.
  induction l as [|x l IH]; simpl; [reflexivity|].
  rewrite insert_le_perm. constructor. exact IH.
Qed.

Lemma filter_split_perm (p : A -> bool) (l : list A) :
  Permutation (List.filter (fun x => negb (p x)) l ++ List.filter p l) l.
Proof.
  induction l as [|x l IH]; simpl; [reflexivity|].
  destruct (p x); simpl.
  - rewrite <- Permutation_middle. constructor. exact IH.
  - constructor. exact IH.
Qed.

End SortFacts.

Section Directory.

Import PyFloat Jfrog.

Variable u : uploader.
Variable env : string -> file_env.
Variable scan : scan_env.

Lemma collect_files_no_file (d : dir_env) (target_prefix : option string) :
  Forall (fun e => is_file e = false) (glob d) ->
  collect_files d target_prefix = [].
Proof.
  unfold collect_files. intros H.
  induction H as [|e l He _ IH]; simpl; [reflexivity|].
  rewrite He. exact IH.
Qed.

Lemma run_large_no_raise (large_files : list (string * string)) :
  Forall (fun f => c_result (call_upload u env f) <> None) large_files ->
  run_large u env large_files = (Some tt, map (call_upload u env) large_files).
Proof.
  intros H. induction H as [|f l Hf _ IH]; simpl; [reflexivity|].
  destruct (c_result (call_upload u env f)) eqn:E; [|contradiction].
  rewrite IH. reflexivity.
Qed.

(** The calls of the large-file loop are always a prefix of the large
    files, raise or not. *)
Lemma run_large_prefix (large_files : list (string * string)) :
  exists n, snd (run_large u env large_files)
            = map (call_upload u env) (firstn n large_files).
Proof.
  induction large_files as [|f l [n IH]]; simpl.
  - exists 0%nat. reflexivity.
  - destruct (c_result (call_upload u env f)).
    + destruct (run_large u env l) as [r cs]. simpl in *.
      exists (S n). simpl. rewrite IH. reflexivity.
    + exists 1%nat. reflexivity.
Qed.

Lemma upload_directory_returns_true_or_raises d target_prefix :
  is_dir d = true ->
  fst (upload_directory u env scan d target_prefix) = Some true \/
  fst (upload_directory u env scan d target_prefix) = None.
Proof.
  intros Hd. unfold upload_directory. rewrite Hd. simpl.
  destruct (length _ =? 0)%nat; [left; reflexivity|].
  destruct (all_sizes _ _); [|right; reflexivity].
  destruct (_ && _); [right; reflexivity|].
  destruct (run_large _ _ _) as [[[]|] cs]; [left|right]; reflexivity.
Qed.

End Directory.

(** The scenario of the specification: A (5 MiB) goes through the pool, B
    (200 MiB) through the large-file loop under the lock; both succeed. *)
Example upload_directory_two_files :
  let '(r, calls) :=
    Jfrog.upload_directory Samples.the_uploader Samples.reliable Samples.two_sizes
                           Samples.two_files None in
  r = Some true /\
  map (fun c => (Jfrog.c_file c, Jfrog.c_result c,
                 List.existsb (fun e => match e with Jfrog.EvAcquire => true | _ => false end)
                              (Jfrog.c_events c))) calls
  = [("d/A", Some true, false); ("d/B", Some true, true)].
Proof. vm_compute. split; reflexivity. Qed.

(** In the large-file loop an exception of [upload_file] is not caught:
    the run ends there and [d/C] is never uploaded. *)
Example upload_directory_large_raise :
  let '(r, calls) :=
    Jfrog.upload_directory Samples.the_uploader Samples.vanishing_B Samples.large_sizes
                           Samples.two_large None in
  r = None /\ map Jfrog.c_file calls = ["d/B"].
Proof. vm_compute. split; reflexivity. Qed.

(** C9: given a directory that contains no file, [upload_directory]
    returns [True] and calls [upload_file] for nothing, so no PUT and no
    HEAD request is sent. *)
Theorem upload_directory_no_files
        (u : Jfrog.uploader) (env : string -> Jfrog.file_env) (scan : Jfrog.scan_env)
        (d : Jfrog.dir_env) (target_prefix : option string) :
  Jfrog.is_dir d = true ->
  Forall (fun e => Jfrog.is_file e = false) (Jfrog.glob d) ->
  Jfrog.upload_directory u env scan d target_prefix = (Some true, []) /\
  List.filter Jfrog.is_network
    (Jfrog.events_of (snd (Jfrog.upload_directory u env scan d target_prefix))) = [].
Proof.
  intros Hd Hnone.
  assert (E : Jfrog.upload_directory u env scan d target_prefix = (Some true, [])).
  { unfold Jfrog.upload_directory. rewrite Hd. simpl.
    rewrite (collect_files_no_file d target_prefix Hnone). reflexivity. }
  rewrite E. split; reflexivity.
Qed.

Lemma upload_directory_no_files_witness :
  Jfrog.upload_directory Samples.the_uploader Samples.reliable Samples.two_sizes
                         Samples.empty_dir None = (Some true, []) /\
  List.filter Jfrog.is_network
    (Jfrog.events_of
       (snd (Jfrog.upload_directory Samples.the_uploader Samples.reliable Samples.two_sizes
                                    Samples.empty_dir None))) = [].
Proof.
  apply (upload_directory_no_files Samples.the_uploader Samples.reliable Samples.two_sizes
                                   Samples.empty_dir None).
  - reflexivity.
  - repeat constructor.
Defined.

(** C4, as stated, on one directory under two servers: with the first every
    upload succeeds, with the second every PUT of [d/A] is refused.  The
    per-item outcomes differ, the value returned to the caller is [True] in
    both runs: it carries no per-item outcome. *)
Lemma upload_directory_returns_no_outcomes :
  let run env :=
    Jfrog.upload_directory Samples.the_uploader env Samples.two_sizes Samples.two_files None in
  map Jfrog.c_result (snd (run Samples.reliable)) = [Some true; Some true] /\
  map Jfrog.c_result (snd (run Samples.refuses_A)) = [Some false; Some true] /\
  fst (run Samples.reliable) = Some true /\
  fst (run Samples.refuses_A) = Some true.
Proof. vm_compute. repeat split. Qed.

(** C4 (amended): for every directory whose file sizes can be read, with a
    positive worker count, and with no exception escaping [upload_file] in
    the large-file loop, [upload_file] is called exactly once for every
    collected file whether or not other uploads fail, and the function
    returns the single value [True] whatever the per-item outcomes were. *)
Theorem upload_directory_processes_all
        (u : Jfrog.uploader) (env : string -> Jfrog.file_env) (scan : Jfrog.scan_env)
        (d : Jfrog.dir_env) (target_prefix : option string) :
  Jfrog.is_dir d = true ->
  Jfrog.all_sizes scan (Jfrog.collect_files d target_prefix) = Some tt ->
  0 < Jfrog.max_workers u ->
  (forall f, In f (Jfrog.collect_files d target_prefix) ->
             Jfrog.is_large u scan f = true ->
             Jfrog.c_result (Jfrog.call_upload u env f) <> None) ->
  fst (Jfrog.upload_directory u env scan d target_prefix) = Some true /\
  exists order,
    Permutation order (Jfrog.collect_files d target_prefix) /\
    snd (Jfrog.upload_directory u env scan d target_prefix)
    = map (Jfrog.call_upload u env) order.
Proof.
  intros Hd Hsizes Hw Hnoraise.
  unfold Jfrog.upload_directory. rewrite Hd. simpl.
  set (files := Jfrog.collect_files d target_prefix) in *.
  destruct (length files =? 0)%nat eqn:Hlen.
  - apply Nat.eqb_eq in Hlen. destruct files; [|discriminate].
    split; [reflexivity|]. exists []. split; [constructor|reflexivity].
  - rewrite Hsizes.
    set (sorted := Jfrog.sort_by (Jfrog.size_of scan) files).
    set (large := List.filter (Jfrog.is_large u scan) sorted).
    set (normal := List.filter (fun f => negb (Jfrog.is_large u scan f)) sorted).
    assert (Hperm : Permutation sorted files) by apply sort_le_perm.
    assert (Hmw : (Jfrog.max_workers u <=? 0) = false) by (apply Z.leb_gt; lia).
    rewrite Hmw, andb_false_r.
    assert (Hlarge : Forall (fun f => Jfrog.c_result (Jfrog.call_upload u env f) <> None) large).
    { apply List.Forall_forall. intros f Hf. subst large.
      apply filter_In in Hf. destruct Hf as [Hin Hl].
      apply Hnoraise; [|exact Hl].
      eapply Permutation_in; [exact Hperm|exact Hin]. }
    rewrite (run_large_no_raise u env large Hlarge).
    split; [reflexivity|].
    exists (normal ++ large). split.
    + subst normal large. rewrite filter_split_perm. exact Hperm.
    + simpl. rewrite map_app. f_equal.
      unfold Jfrog.run_pool. destruct normal; reflexivity.
Qed.

Lemma upload_directory_processes_all_witness :
  fst (Jfrog.upload_directory Samples.the_uploader Samples.refuses_A Samples.two_sizes
                              Samples.two_files None) = Some true /\
  exists order,
    Permutation order (Jfrog.collect_files Samples.two_files None) /\
    snd (Jfrog.upload_directory Samples.the_uploader Samples.refuses_A Samples.two_sizes
                                Samples.two_files None)
    = map (Jfrog.call_upload Samples.the_uploader Samples.refuses_A) order.
Proof.
  apply (upload_directory_processes_all Samples.the_uploader Samples.refuses_A
           Samples.two_sizes Samples.two_files None).
  - reflexivity.
  - reflexivity.
  - reflexivity.
  - intros f Hf _. simpl in Hf.
    destruct Hf as [<-|[<-|[]]]; vm_compute; discriminate.
Defined.

(** ** The scheduler: what runs at the same time *)

Section Scheduler.

Import PyFloat Jfrog.

Variable u : uploader.
Variable scan : scan_env.
Variable st : string -> Z.

Local Abbreviation large f := (is_large u scan f = true).
Local Abbreviation small f := (is_large u scan f = false).
Local Abbreviation sched_inv := (Jfrog.sched_inv u scan).

Lemma task_step_file t l t' l' :
  task_step u st t l (Some t') l' -> t_file t' = t_file t.
Proof. intros H. inversion H; reflexivity. Qed.

Lemma filter_none {A} (p : A -> bool) (l : list A) :
  Forall (fun x => p x = false) l -> List.filter p l = [].
Proof.
  intros H. induction H as [|x l Hx _ IH]; simpl; [reflexivity|].
  rewrite Hx. exact IH.
Qed.

Lemma filter_length_le {A} (p : A -> bool) (l : list A) :
  (length (List.filter p l) <= length l)%nat.
Proof.
  induction l as [|x l IH]; simpl; [lia|]. destruct (p x); simpl; lia.
Qed.

Lemma filter_forall {A} (p : A -> bool) (l : list A) :
  Forall (fun x => p x = true) (List.filter p l).
Proof.
  induction l as [|x l IH]; simpl; [constructor|].
  destruct (p x) eqn:E; [constructor; assumption|assumption].
Qed.

Lemma sched_inv_init files : sched_inv (init u scan files).
Proof.
  unfold init. constructor; simpl.
  - generalize (sort_by (size_of scan) files). intros l.
    induction l as [|x l IH]; simpl; [constructor|].
    destruct (is_large u scan x) eqn:E; simpl; [assumption|constructor; assumption].
  - constructor.
  - lia.
  - constructor.
  - apply filter_forall.
Qed.

Ltac split_inv := constructor; simpl; unfold main_task; simpl; auto.

Lemma sched_inv_step s s' :
    step u st s s' -> sched_inv s -> sched_inv s'.
Proof.
    intros Hstep [Hq Hr Hb Hm Ht].
    inversion Hstep; subst; simpl in *; unfold main_task in *; simpl in *.
    - split_inv.
    - inversion Hq; subst. split_inv.
      + apply Forall_app. split; [assumption|]. constructor; [assumption|constructor].
      + rewrite length_app. simpl. lia.
    - apply Forall_app in Hr. destruct Hr as [Hr1 Hr2]. inversion Hr2; subst.
      rewrite length_app in Hb. simpl in Hb. split_inv.
      + apply Forall_app. split; [assumption|].
        apply Forall_app. split; [|assumption].
        destruct ot as [t'|]; simpl; [|constructor].
        constructor; [|constructor].
        rewrite (task_step_file _ _ _ _ H). assumption.
      + rewrite !length_app.
        assert (length (opt_list ot) <= 1)%nat by (destruct ot; simpl; lia).
        lia.
    - split_inv.
    - inversion Ht; subst. split_inv.
    - split_inv.
      destruct ot as [t'|]; simpl; [|constructor].
      constructor; [|constructor].
      rewrite (task_step_file _ _ _ _ H). inversion Hm; assumption.
    - split_inv.
    - split_inv.
Qed.

Lemma sched_inv_reachable files s :
  rtc (step u st) (init u scan files) s -> sched_inv s.
Proof.
  revert s. apply rtc_ind_r.
  - apply sched_inv_init.
  - intros y z _ Hstep IH. eapply sched_inv_step; eassumption.
Qed.

Lemma large_in_flight_le_main s :
  sched_inv s -> (length (large_in_flight u scan s) <= length (main_task s))%nat.
Proof.
  intros [_ Hr _ _ _]. unfold large_in_flight, in_flight.
  rewrite map_app, List.filter_app, length_app.
  rewrite filter_none.
  - simpl. etransitivity; [apply filter_length_le|]. rewrite length_map. lia.
  - clear -Hr. induction Hr; simpl; constructor; assumption.
Qed.

Lemma small_in_flight_le_running s :
  sched_inv s -> (length (small_in_flight u scan s) <= length (running s))%nat.
Proof.
  intros [_ _ _ Hm _]. unfold small_in_flight, in_flight.
  rewrite map_app, List.filter_app, length_app.
  rewrite (filter_none _ (map t_file (main_task s))).
  - simpl. rewrite Nat.add_0_r. etransitivity; [apply filter_length_le|].
    rewrite length_map. lia.
  - clear -Hm. induction Hm as [|t l Ht _ IH]; simpl; constructor; [|assumption].
    rewrite Ht. reflexivity.
Qed.

Lemma main_task_length s : (length (main_task s) <= 1)%nat.
Proof. unfold main_task. destruct (main s) as [|[|]| |]; simpl; lia. Qed.

End Scheduler.

(** The lock of [upload_file] on its own: whatever the sizes seen by [stat],
    at most one thread is inside the critical section, and none is when the
    lock is free. *)
Section Lock.

Import PyFloat Jfrog.

Variable u : uploader.
Variable scan : scan_env.
Variable st : string -> Z.

Lemma count_lock_app a b : count_lock (a ++ b) = (count_lock a + count_lock b)%nat.
Proof. unfold count_lock. rewrite List.filter_app, length_app. reflexivity. Qed.

Lemma count_lock_nil : count_lock [] = 0%nat.
Proof. reflexivity. Qed.

Lemma count_lock_cons t a :
  count_lock (t :: a) = ((if holds_lock t then 1 else 0) + count_lock a)%nat.
Proof. unfold count_lock. simpl. destruct (holds_lock t); reflexivity. Qed.

Lemma in_lock_length s :
  length (in_lock s) = (count_lock (running s) + count_lock (main_task s))%nat.
Proof. unfold in_lock. apply count_lock_app. Qed.

Ltac count_locks :=
  unfold main_task in *; simpl in *;
  repeat (rewrite count_lock_app in * || rewrite count_lock_cons in *
          || rewrite count_lock_nil in *);
  unfold holds_lock in *; simpl in *.

Lemma lock_inv_step s s' : step u st s s' -> lock_inv s -> lock_inv s'.
Proof.
  unfold lock_inv. intros Hstep [Hle Hfree].
  inversion Hstep; subst; simpl in *.
  - count_locks. split; [lia|intros; lia].
  - count_locks. split; [lia|intros Hl; specialize (Hfree Hl); lia].
  - inversion H; subst; count_locks;
      (split; [|intros Hl]); try discriminate; try specialize (Hfree eq_refl); try lia;
      try (specialize (Hfree Hl); lia).
  - count_locks. split; [lia|intros Hl; specialize (Hfree Hl); lia].
  - count_locks. split; [lia|intros Hl; specialize (Hfree Hl); lia].
  - inversion H; subst; count_locks;
      (split; [|intros Hl]); try discriminate; try specialize (Hfree eq_refl); try lia;
      try (specialize (Hfree Hl); lia).
  - count_locks. split; [lia|intros Hl; specialize (Hfree Hl); lia].
  - count_locks. split; [lia|intros Hl; specialize (Hfree Hl); lia].
Qed.

Lemma lock_inv_reachable files s :
  rtc (step u st) (init u scan files) s -> lock_inv s.
Proof.
  revert s. apply rtc_ind_r.
  - unfold lock_inv, init, main_task, count_lock. simpl. split; [lia|reflexivity].
  - intros y z _ Hstep IH. eapply lock_inv_step; eassumption.
Qed.

(** Mutual exclusion, and the lock is held whenever a thread is inside. *)
Lemma lock_mutual_exclusion files s :
  rtc (step u st) (init u scan files) s ->
  (length (in_lock s) <= 1)%nat /\ (lock_held s = false -> in_lock s = []).
Proof.
  intros H. apply lock_inv_reachable in H. destruct H as [Hle Hfree].
  rewrite <- in_lock_length in Hle, Hfree. split; [exact Hle|].
  intros Hl. specialize (Hfree Hl). destruct (in_lock s); [reflexivity|discriminate].
Qed.

End Lock.

(** C3: in every state that a run of [upload_directory] can reach, whatever
    the interleaving of its threads, at most one item classified large
    (size at or above the threshold) is inside [upload_file], and the
    number of items classified small that are inside [upload_file] does not
    exceed [max_workers]. *)
Theorem scheduler_concurrency_bounds
        (u : Jfrog.uploader) (scan : Jfrog.scan_env) (st : string -> Z)
        (files : list (string * string)) (s : Jfrog.sched) :
  0 <= Jfrog.max_workers u ->
  rtc (Jfrog.step u st) (Jfrog.init u scan files) s ->
  (length (Jfrog.large_in_flight u scan s) <= 1)%nat /\
  Z.of_nat (length (Jfrog.small_in_flight u scan s)) <= Jfrog.max_workers u.
Proof.
  intros Hw Hreach.
  pose proof (sched_inv_reachable u scan st files s Hreach) as Hinv.
  split.
  - etransitivity; [apply large_in_flight_le_main; exact Hinv|].
    apply main_task_length.
  - pose proof (small_in_flight_le_running u scan s Hinv) as Hs.
    pose proof (Jfrog.inv_bound u scan s Hinv) as Hb. lia.
Qed.

Section SchedulerRuns.

Import PyFloat Jfrog.

Local Abbreviation run_step := (step Samples.the_uploader Samples.two_stat).

Lemma init_two_files :
  init Samples.the_uploader Samples.two_sizes (collect_files Samples.two_files None)
  = {| queue := [("d/A", "A")]; running := []; lock_held := false;
       main := Pool [("d/B", "B")] |}.
Proof. reflexivity. Qed.

Lemma a_streaming_reachable :
  rtc run_step
      (init Samples.the_uploader Samples.two_sizes (collect_files Samples.two_files None))
      Samples.a_streaming.
Proof.
  rewrite init_two_files.
  eapply rtc_l.
  { apply (step_start _ _ ("d/A", "A") [] [] false). vm_compute. reflexivity. }
  apply rtc_once.
  apply (step_worker _ _ [] [] {| t_file := ("d/A", "A"); t_pc := AtEntry |} [] false
                     (Some {| t_file := ("d/A", "A"); t_pc := NoLock |}) false).
  apply ts_small. vm_compute. reflexivity.
Qed.

Lemma b_in_lock_reachable :
  rtc run_step Samples.a_streaming Samples.b_in_lock.
Proof.
  eapply rtc_l.
  { apply (step_worker _ _ [] [] {| t_file := ("d/A", "A"); t_pc := NoLock |} [] false
                       None false). apply ts_finish. }
  eapply rtc_l. { apply step_pool_done. }
  eapply rtc_l. { apply step_large_next. }
  eapply rtc_l.
  { apply (step_large_step _ _ [] [] false _ []
                           (Some {| t_file := ("d/B", "B"); t_pc := WaitLock |}) false).
    apply ts_large. vm_compute. discriminate. }
  apply rtc_once.
  apply (step_large_step _ _ [] [] false _ []
                         (Some {| t_file := ("d/B", "B"); t_pc := InLock |}) true).
  apply ts_acquire.
Qed.

End SchedulerRuns.

Lemma scheduler_concurrency_bounds_witness :
  (length (Jfrog.large_in_flight Samples.the_uploader Samples.two_sizes Samples.b_in_lock)
   <= 1)%nat /\
  Z.of_nat (length (Jfrog.small_in_flight Samples.the_uploader Samples.two_sizes
                                          Samples.b_in_lock))
  <= Jfrog.max_workers Samples.the_uploader.
Proof.
  apply (scheduler_concurrency_bounds Samples.the_uploader Samples.two_sizes Samples.two_stat
           (Jfrog.collect_files Samples.two_files None) Samples.b_in_lock).
  - vm_compute. discriminate.
  - etransitivity; [apply a_streaming_reachable|apply b_in_lock_reachable].
Defined.

(** ** The order of [sorted] *)

Section StringOrder.

Lemma ascii_compare_refl (a : ascii) : Ascii.compare a a = Eq.
Proof. unfold Ascii.compare. apply N.compare_refl. Qed.

Lemma ascii_compare_lt_trans (a b c : ascii) :
  Ascii.compare a b = Lt -> Ascii.compare b c = Lt -> Ascii.compare a c = Lt.
Proof.
  unfold Ascii.compare. rewrite !N.compare_lt_iff. apply N.lt_trans.
Qed.

Lemma string_compare_trans (s1 : string) :
  forall s2 s3,
    String.compare s1 s2 <> Gt -> String.compare s2 s3 <> Gt ->
    String.compare s1 s3 <> Gt.
Proof.
  induction s1 as [|c1 s1 IH]; intros [|c2 s2] [|c3 s3]; simpl; try congruence.
  destruct (Ascii.compare c1 c2) eqn:E12; try congruence;
    destruct (Ascii.compare c2 c3) eqn:E23; try congruence; intros H12 H23.
  - apply Ascii.compare_eq_iff in E12, E23. subst.
    rewrite ascii_compare_refl. apply (IH s2 s3); assumption.
  - apply Ascii.compare_eq_iff in E12. subst. rewrite E23. congruence.
  - apply Ascii.compare_eq_iff in E23. subst. rewrite E12. congruence.
  - rewrite (ascii_compare_lt_trans _ _ _ E12 E23). congruence.
Qed.

Lemma string_leb_le (s1 s2 : string) :
  String.leb s1 s2 = true <-> String.compare s1 s2 <> Gt.
Proof.
  unfold String.leb. destruct (String.compare s1 s2); split; congruence.
Qed.

Lemma string_leb_trans (s1 s2 s3 : string) :
  String.leb s1 s2 = true -> String.leb s2 s3 = true -> String.leb s1 s3 = true.
Proof. rewrite !string_leb_le. apply string_compare_trans. Qed.

End StringOrder.

Section SortedFacts.

Context {A : Type} (le : A -> A -> bool).
Hypothesis le_total : forall a b, le a b = true \/ le b a = true.
Hypothesis le_trans : forall a b c, le a b = true -> le b c = true -> le a c = true.

Local Abbreviation ordered := (StronglySorted (fun a b => le a b = true)).

Lemma insert_le_sorted (x : A) (l : list A) :
  ordered l -> ordered (PyList.insert_le le x l).
Proof.
  intros Hl. induction Hl as [|y l Hl IH Hy]; simpl.
  - constructor; constructor.
  - destruct (le x y) eqn:E.
    + constructor; [constructor; assumption|].
      constructor; [exact E|].
      eapply List.Forall_impl; [|exact Hy]. intros z Hz. simpl in Hz.
      eapply le_trans; eassumption.
    + constructor; [exact IH|].
      assert (Hyx : le y x = true) by (destruct (le_total x y); congruence).
      eapply Permutation_Forall; [symmetry; apply insert_le_perm|].
      constructor; assumption.
Qed.

Lemma sort_le_sorted (l : list A) : ordered (PyList.sort_le le l).
Proof.
  induction l as [|x l IH]; simpl; [constructor|].
  apply insert_le_sorted. exact IH.
Qed.

Lemma filter_sorted (p : A -> bool) (l : list A) :
  ordered l -> ordered (List.filter p l).
Proof.
  intros Hl. induction Hl as [|y l Hl IH Hy]; simpl; [constructor|].
  destruct (p y); [|exact IH].
  constructor; [exact IH|].
  apply List.Forall_forall. intros z Hz. apply filter_In in Hz.
  rewrite List.Forall_forall in Hy. apply Hy. tauto.
Qed.

End SortedFacts.

(** ** The archive builder *)

Section Archive.

Import PyFloat Script2.

(** The chunk loop leaves nothing but its sleeps in the trace. *)
Lemma chunk_loop_sleeps attempt file_size script :
  forall bytes_written entry_size,
    Forall (fun e => e = ZSleep retry_delay)
           (snd (chunk_loop attempt file_size script bytes_written entry_size)).
Proof.
  induction script as [|ev rest IH]; intros w z; simpl.
  - destruct (w <? file_size); constructor.
  - destruct (w <? file_size); [|constructor].
    destruct ev as [n| |n| |n].
    + destruct (n <=? 0); [constructor|apply IH].
    + match goal with |- context [if ?b then _ else _] => destruct b end;
        [|constructor].
      specialize (IH w z).
      destruct (chunk_loop attempt file_size rest w z) as [[[o w'] z'] tr].
      simpl in *. constructor; [reflexivity|exact IH].
    + destruct (n <=? 0); [constructor|].
      match goal with |- context [if ?b then _ else _] => destruct b end;
        [|constructor].
      specialize (IH w (z + n)).
      destruct (chunk_loop attempt file_size rest w (z + n)) as [[[o w'] z'] tr].
      simpl in *. constructor; [reflexivity|exact IH].
    + constructor.
    + destruct (n <=? 0); constructor.
Qed.

Lemma write_body_sleeps file_size chunk_size attempt ae :
  Forall (fun e => e = ZSleep retry_delay)
         (snd (write_body file_size chunk_size attempt ae)).
Proof.
  unfold write_body. destruct (file_size >? 10 * 1024 * 1024); [|constructor].
  match goal with
  | |- context [chunk_loop ?a ?fs ?sc ?w ?z] =>
      pose proof (chunk_loop_sleeps a fs sc w z) as Hc;
      destruct (chunk_loop a fs sc w z) as [[[o written] size] tr]
  end.
  exact Hc.
Qed.

Lemma loss_events rel_path ae o : Forall (body_event rel_path) (loss ae o).
Proof.
  unfold loss. destruct o; [constructor| |];
    (destruct (directory_lost ae); [|constructor]);
    (constructor; [right; right; reflexivity|constructor]).
Qed.

Lemma attempt_body_events fi chunk_size attempt ae :
  Forall (body_event (snd (fst fi))) (snd (attempt_body fi chunk_size attempt ae)).
Proof.
  destruct fi as [[file_path rel_path] file_size]. unfold attempt_body. cbn [fst snd].
  destruct (setup ae); [|apply loss_events|apply loss_events].
  pose proof (write_body_sleeps file_size chunk_size attempt ae) as Hs.
  destruct (write_body file_size chunk_size attempt ae) as [[body size] tr].
  cbn [fst snd] in *.
  apply Forall_app. split.
  - eapply List.Forall_impl; [|exact Hs]. intros e ->. left. reflexivity.
  - apply Forall_app. split; [|apply loss_events].
    destruct (close_entry ae); constructor; [|constructor].
    right. left. eauto.
Qed.

Lemma body_event_not_attempt rel_path tr :
  Forall (body_event rel_path) tr ->
  n_attempts tr = 0%nat /\ started tr = [] /\
  Forall (fun d => d = retry_delay) (sleeps tr) /\
  Forall (fun e => fst e = rel_path) (entries tr).
Proof.
  intros H. induction H as [|e tr He _ IH]; [repeat split; constructor|].
  destruct IH as (IH1 & IH2 & IH3 & IH4).
  destruct He as [->|[(size & complete & ->)| ->]]; unfold n_attempts in *; simpl;
    repeat split; auto.
Qed.

End Archive.

Section ArchiveLoop.

Import PyFloat Script2.

Variable E : env.
Variable compress : bool.

Lemma n_attempts_app a b : n_attempts (a ++ b) = (n_attempts a + n_attempts b)%nat.
Proof. unfold n_attempts. rewrite List.filter_app, length_app. reflexivity. Qed.

Lemma started_app a b : started (a ++ b) = started a ++ started b.
Proof. apply flat_map_app. Qed.

Lemma sleeps_app a b : sleeps (a ++ b) = sleeps a ++ sleeps b.
Proof. apply flat_map_app. Qed.

Lemma entries_app a b : entries (a ++ b) = entries a ++ entries b.
Proof. apply flat_map_app. Qed.

Lemma loop_trace_cons fi start n body rest :
  Forall (body_event (snd (fst fi))) body ->
  (rest = [] \/ exists tr', rest = ZSleep retry_delay :: tr' /\ loop_trace fi (S start) n tr') ->
  loop_trace fi start (S n) (ZAttempt (fst (fst fi)) start :: body ++ rest).
Proof.
  intros Hbody Hrest.
  apply body_event_not_attempt in Hbody. destruct Hbody as (B1 & B2 & B3 & B4).
  destruct Hrest as [->|(tr' & -> & [R1 R2 R3 R4 R5])].
  - rewrite app_nil_r. constructor.
    + change (n_attempts (ZAttempt (fst (fst fi)) start :: body))
        with (S (n_attempts body)). lia.
    + intros _. change (n_attempts (ZAttempt (fst (fst fi)) start :: body))
        with (S (n_attempts body)). lia.
    + change (started (ZAttempt (fst (fst fi)) start :: body))
        with (match start with O => [fst (fst fi)] | _ => [] end ++ started body).
      rewrite B2, app_nil_r. destruct start; reflexivity.
    + exact B3.
    + exact B4.
  - assert (Hn : n_attempts (ZAttempt (fst (fst fi)) start :: body ++ ZSleep retry_delay :: tr')
                 = S (n_attempts tr')).
    { change (n_attempts (ZAttempt (fst (fst fi)) start :: body ++ ZSleep retry_delay :: tr'))
        with (S (n_attempts (body ++ ZSleep retry_delay :: tr'))).
      rewrite n_attempts_app, B1. reflexivity. }
    constructor.
    + rewrite Hn. lia.
    + intros _. rewrite Hn. lia.
    + change (started (ZAttempt (fst (fst fi)) start :: body ++ ZSleep retry_delay :: tr'))
        with (match start with O => [fst (fst fi)] | _ => [] end
              ++ started (body ++ ZSleep retry_delay :: tr')).
      rewrite started_app, B2. simpl.
      change (started (ZSleep retry_delay :: tr')) with (started tr').
      rewrite R3. destruct n, start; reflexivity.
    + change (sleeps (ZAttempt (fst (fst fi)) start :: body ++ ZSleep retry_delay :: tr'))
        with (sleeps (body ++ ZSleep retry_delay :: tr')).
      rewrite sleeps_app. apply Forall_app. split; [exact B3|].
      constructor; [reflexivity|exact R4].
    + change (entries (ZAttempt (fst (fst fi)) start :: body ++ ZSleep retry_delay :: tr'))
        with (entries (body ++ ZSleep retry_delay :: tr')).
      rewrite entries_app. apply Forall_app. split; [exact B4|exact R5].
Qed.

Lemma attempt_loop_trace fi chunk_size n :
  forall start,
    loop_trace fi start n (snd (attempt_loop E fi compress chunk_size (seq start n))).
Proof.
  induction n as [|n IH]; intros start; simpl.
  - constructor; simpl; try lia; constructor.
  - pose proof (attempt_body_events fi chunk_size start
                  (attempt_at E compress (fst (fst fi)) start)) as Hbody.
    destruct (attempt_body fi chunk_size start (attempt_at E compress (fst (fst fi)) start))
      as [o body]. simpl in Hbody.
    destruct o.
    + simpl. rewrite <- (app_nil_r body). apply loop_trace_cons; auto.
    + match goal with |- context [if ?b then _ else _] => destruct b end.
      * specialize (IH (S start)).
        destruct (attempt_loop E fi compress chunk_size (seq (S start) n)) as [r tr'].
        simpl in *. apply loop_trace_cons; [exact Hbody|].
        right. exists tr'. split; [reflexivity|exact IH].
      * simpl. rewrite <- (app_nil_r body). apply loop_trace_cons; auto.
    + simpl. rewrite <- (app_nil_r body). apply loop_trace_cons; auto.
Qed.

Lemma process_single_file_trace fi available_memory :
  loop_trace fi 0 max_retries (snd (process_single_file E fi compress available_memory)).
Proof. unfold process_single_file. apply attempt_loop_trace. Qed.

(** Each file of the list is started once, in order, whatever happens to
    the files before it. *)
Lemma process_all_started (all_files : list file_info) :
  started (process_all E compress all_files) = map (fun fi => fst (fst fi)) all_files.
Proof.
  induction all_files as [|fi rest IH]; simpl; [reflexivity|].
  pose proof (process_single_file_trace fi (available_memory E)) as [_ _ Hs _ _].
  destruct (process_single_file E fi compress (available_memory E)) as [ok tr].
  simpl in Hs. destruct ok; rewrite started_app, Hs; simpl; f_equal; exact IH.
Qed.

Lemma process_all_sleeps (all_files : list file_info) :
  Forall (fun d => d = retry_delay) (sleeps (process_all E compress all_files)).
Proof.
  induction all_files as [|fi rest IH]; simpl; [constructor|].
  pose proof (process_single_file_trace fi (available_memory E)) as [_ _ _ Hs _].
  destruct (process_single_file E fi compress (available_memory E)) as [ok tr].
  simpl in Hs. destruct ok; rewrite sleeps_app; apply Forall_app; split; auto.
Qed.

Lemma process_all_entries (all_files : list file_info) :
  Forall (fun e => In (fst e) (map (fun fi => snd (fst fi)) all_files))
         (entries (process_all E compress all_files)).
Proof.
  induction all_files as [|fi rest IH]; simpl; [constructor|].
  pose proof (process_single_file_trace fi (available_memory E)) as [_ _ _ _ He].
  destruct (process_single_file E fi compress (available_memory E)) as [ok tr].
  simpl in He.
  assert (Htr : Forall (fun e => snd (fst fi) = fst e \/
                                 In (fst e) (map (fun fi => snd (fst fi)) rest)) (entries tr)).
  { eapply List.Forall_impl; [|exact He]. intros e H. left. symmetry. exact H. }
  assert (Hrest : Forall (fun e => snd (fst fi) = fst e \/
                                   In (fst e) (map (fun fi => snd (fst fi)) rest))
                         (entries (process_all E compress rest))).
  { eapply List.Forall_impl; [|exact IH]. intros e H. right. exact H. }
  destruct ok; rewrite entries_app; apply Forall_app; split; auto.
Qed.

End ArchiveLoop.

Section ArchiveRetry.

Import PyFloat Script2.

Variable E : env.
Variable fi : file_info.
Variable compress : bool.
Variable chunk_size : Z.

Local Abbreviation attempt_outcome := (Script2.attempt_outcome E fi compress chunk_size).

Lemma attempt_body_no_attempt attempt :
  n_attempts (snd (attempt_body fi chunk_size attempt
                                (attempt_at E compress (fst (fst fi)) attempt))) = 0%nat.
Proof.
  pose proof (attempt_body_events fi chunk_size attempt
                (attempt_at E compress (fst (fst fi)) attempt)) as H.
  apply body_event_not_attempt in H. tauto.
Qed.

Lemma n_attempts_first p a body rest :
  n_attempts body = 0%nat ->
  n_attempts (ZAttempt p a :: body ++ rest) = S (n_attempts rest).
Proof.
  intros H. change (n_attempts (ZAttempt p a :: body ++ rest))
              with (S (n_attempts (body ++ rest))).
  rewrite n_attempts_app, H. reflexivity.
Qed.

(** The attempts before the [k]-th end in an I/O error and the [k]-th
    ends in [last], which is none: the loop stops there. *)
Lemma attempt_loop_fail_then (last : outcome) (k : nat) :
  last <> IOErr ->
  forall start n,
    (k < n)%nat -> (start + k < max_retries)%nat ->
    (forall i, (start <= i < start + k)%nat -> attempt_outcome i = IOErr) ->
    attempt_outcome (start + k) = last ->
    fst (attempt_loop E fi compress chunk_size (seq start n))
    = match last with Done => true | _ => false end /\
    n_attempts (snd (attempt_loop E fi compress chunk_size (seq start n))) = S k.
Proof.
  intros Hlast.
  induction k as [|k IH]; intros start n Hk Hmax Hfail Hend.
  - destruct n as [|n]; [lia|]. simpl.
    rewrite Nat.add_0_r in Hend. unfold Script2.attempt_outcome in Hend.
    pose proof (attempt_body_no_attempt start) as Hb.
    destruct (attempt_body fi chunk_size start (attempt_at E compress (fst (fst fi)) start))
      as [o body]. simpl in *. subst o.
    destruct last; [|contradiction|]; simpl; (split; [reflexivity|]);
      rewrite <- (app_nil_r body); apply n_attempts_first; exact Hb.
  - destruct n as [|n]; [lia|]. simpl.
    pose proof (Hfail start ltac:(lia)) as Hf. unfold Script2.attempt_outcome in Hf.
    pose proof (attempt_body_no_attempt start) as Hb.
    destruct (attempt_body fi chunk_size start (attempt_at E compress (fst (fst fi)) start))
      as [o body]. simpl in *. subst o.
    unfold max_retries in *.
    assert (Hlt : (start <? 2)%nat = true) by (apply Nat.ltb_lt; lia).
    rewrite Hlt.
    destruct (IH (S start) n) as [IH1 IH2]; try lia.
    + intros i Hi. apply Hfail. lia.
    + replace (S start + k)%nat with (start + S k)%nat by lia. exact Hend.
    + destruct (attempt_loop E fi compress chunk_size (seq (S start) n)) as [r tr].
      simpl in *. split; [exact IH1|].
      rewrite (n_attempts_first _ _ body (ZSleep retry_delay :: tr) Hb).
      change (n_attempts (ZSleep retry_delay :: tr)) with (n_attempts tr).
      rewrite IH2. reflexivity.
Qed.



End ArchiveRetry.

Section Scan.

Import PyFloat Script2.

Variable E : env.

Lemma scan_files_as_map root (l : list string) :
  flat_map (scan_file E root) l = map (info E root) (List.filter (kept E root) l).
Proof.
  induction l as [|x l IH]; simpl; [reflexivity|].
  unfold scan_file at 1, kept at 1.
  destruct (is_zip (PyStr.path_join root x)); simpl; [exact IH|].
  destruct (getsize E (PyStr.path_join root x)) as [z|] eqn:Hsize; simpl; [|exact IH].
  unfold info at 1. rewrite Hsize. f_equal. exact IH.
Qed.

Lemma scan_dir_names d : scan_dir E d = map (info E (fst d)) (dir_names E d).
Proof. unfold scan_dir, dir_names. apply scan_files_as_map. Qed.

Lemma scan_as_names :
  scan E = flat_map (fun d => map (info E (fst d)) (dir_names E d)) (walk E).
Proof.
  unfold scan. induction (walk E) as [|d w IH]; simpl; [reflexivity|].
  rewrite scan_dir_names, IH. reflexivity.
Qed.

Lemma dir_names_sorted d :
  StronglySorted (fun a b => String.leb a b = true) (dir_names E d).
Proof.
  unfold dir_names, sorted. apply filter_sorted. apply sort_le_sorted.
  - apply String.leb_total.
  - apply string_leb_trans.
Qed.

Lemma dir_names_in d x :
  In x (dir_names E d) <-> In x (snd d) /\ kept E (fst d) x = true.
Proof.
  unfold dir_names, sorted. rewrite filter_In.
  split; intros [H1 H2]; (split; [|exact H2]).
  - eapply Permutation_in; [apply sort_le_perm|exact H1].
  - eapply Permutation_in; [symmetry; apply sort_le_perm|exact H1].
Qed.

(** No zip file gets into [all_files]. *)
Lemma scan_no_zip fi : In fi (scan E) -> is_zip (fst (fst fi)) = false.
Proof.
  rewrite scan_as_names. rewrite in_flat_map. intros (d & _ & Hin).
  apply in_map_iff in Hin. destruct Hin as (x & <- & Hx).
  apply dir_names_in in Hx. destruct Hx as [_ Hk].
  unfold kept in Hk. apply andb_true_iff in Hk. destruct Hk as [Hz _].
  simpl. destruct (is_zip (PyStr.path_join (fst d) x)); [discriminate|reflexivity].
Qed.

(** The validation walk does not see zip files. *)
Lemma validate_walk_skips_zip zf file_path (before after : list string) :
  is_zip file_path = true ->
  forall r, validate_walk E zf (before ++ file_path :: after) r
            = validate_walk E zf (before ++ after) r.
Proof.
  intros Hz. induction before as [|p before IH]; intros r; simpl.
  - rewrite Hz. reflexivity.
  - destruct (is_zip p); [apply IH|].
    destruct (getsize E p); [|reflexivity].
    destruct (zf !! _); [|apply IH].
    destruct (negb _); apply IH.
Qed.

End Scan.

Lemma endswith_unfold (s suffix : string) :
  PyStr.endswith s suffix
  = (String.eqb s suffix ||
     match s with
     | EmptyString => false
     | String _ s' => PyStr.endswith s' suffix
     end).
Proof. destruct s; reflexivity. Qed.

Lemma endswith_lower (s suffix : string) :
  PyStr.endswith s suffix = true ->
  PyStr.endswith (PyStr.lower s) (PyStr.lower suffix) = true.
Proof.
  induction s as [|c s IH]; intros H; rewrite endswith_unfold in H;
    apply orb_true_iff in H; destruct H as [H|H]; try discriminate.
  - apply String.eqb_eq in H. subst suffix. reflexivity.
  - apply String.eqb_eq in H. subst suffix.
    rewrite endswith_unfold, String.eqb_refl. reflexivity.
  - change (PyStr.lower (String c s))
      with (String (PyStr.lower_ascii c) (PyStr.lower s)).
    rewrite endswith_unfold, (IH H). apply orb_true_r.
Qed.

Lemma endswith_zip_is_zip (file_path : string) :
  PyStr.endswith file_path ".zip" = true -> Script2.is_zip file_path = true.
Proof. intros H. apply endswith_lower in H. exact H. Qed.

Section ArchiveRuns.

Import PyFloat Script2.

Example zip_src_tree :
  zip_with_builtin Samples.src_tree false true
  = (Some true, [ZAttempt "src/a.bin" 0; ZEntry "a.bin" 10 true;
                 ZAttempt "src/b.bin" 0; ZEntry "b.bin" 5 true]).
Proof. vm_compute. reflexivity. Qed.

Example zip_src_tree_unreadable_a :
  zip_with_builtin Samples.src_tree_unreadable_a false false
  = (Some true, [ZAttempt "src/a.bin" 0; ZSleep 1; ZAttempt "src/a.bin" 1; ZSleep 1;
                 ZAttempt "src/a.bin" 2; ZSkipped "src/a.bin";
                 ZAttempt "src/b.bin" 0; ZEntry "b.bin" 5 true]).
Proof. vm_compute. reflexivity. Qed.

Example zip_src_tree_unreadable_a_validated :
  fst (zip_with_builtin Samples.src_tree_unreadable_a false true) = Some false.
Proof. vm_compute. reflexivity. Qed.

(** The output archive cannot be created: the build raises before any
    file is processed. *)
Example zip_src_tree_no_archive :
  zip_with_builtin Samples.src_tree_no_archive false true = (None, []).
Proof. vm_compute. reflexivity. Qed.

(** An I/O error inside the chunk loop of the first attempt: the loop
    sleeps and goes on with the next read, in the same attempt; the chunk
    that was not written is counted in the size of the entry. *)
Example chunk_error_first_attempt :
  attempt_body ("src/big", "big", 20 * 1024 * 1024) (16 * 1024 * 1024) 0
               Samples.attempt_chunk_error
  = (Done, [ZSleep 1; ZEntry "big" (20 * 1024 * 1024) true]).
Proof. vm_compute. reflexivity. Qed.

Example chunk_error_last_attempt :
  attempt_body ("src/big", "big", 20 * 1024 * 1024) (16 * 1024 * 1024) 2
               Samples.attempt_chunk_error
  = (IOErr, [ZEntry "big" (20 * 1024 * 1024) false]).
Proof. vm_compute. reflexivity. Qed.

(** The entry of [a.bin] cannot be closed at the first attempt: nothing is
    registered for it then, and the second attempt registers it. *)
Example zip_src_tree_close_fails_a :
  zip_with_builtin Samples.src_tree_close_fails_a false true
  = (Some true, [ZAttempt "src/a.bin" 0; ZSleep 1;
                 ZAttempt "src/a.bin" 1; ZEntry "a.bin" 10 true;
                 ZAttempt "src/b.bin" 0; ZEntry "b.bin" 5 true]).
Proof. vm_compute. reflexivity. Qed.

Variable E : env.
Variable compress : bool.

Lemma process_all_entries_flat (all_files : list file_info) :
  entries (process_all E compress all_files)
  = flat_map (fun fi => entries (snd (process_single_file E fi compress (available_memory E))))
             all_files.
Proof.
  induction all_files as [|fi rest IH]; simpl; [reflexivity|].
  destruct (process_single_file E fi compress (available_memory E)) as [ok tr].
  simpl. destruct ok; rewrite entries_app; simpl; rewrite IH; reflexivity.
Qed.

Lemma zip_with_builtin_trace validate :
  archive_created E compress = true ->
  snd (zip_with_builtin E compress validate) = process_all E compress (scan E).
Proof.
  intros Hc. unfold zip_with_builtin. rewrite Hc. cbn [negb].
  destruct (elapsed_is_zero E); [reflexivity|].
  destruct validate; [|reflexivity].
  destruct (validate_build E _) as [verdict|]; [|reflexivity].
  destruct (negb verdict); reflexivity.
Qed.

Lemma zip_with_builtin_not_created validate :
  archive_created E compress = false ->
  zip_with_builtin E compress validate = (None, []).
Proof. intros Hc. unfold zip_with_builtin. rewrite Hc. reflexivity. Qed.

Lemma zip_with_builtin_trace_cases validate :
  snd (zip_with_builtin E compress validate) = process_all E compress (scan E) \/
  snd (zip_with_builtin E compress validate) = [].
Proof.
  destruct (archive_created E compress) eqn:Hc.
  - left. apply zip_with_builtin_trace. exact Hc.
  - right. rewrite zip_with_builtin_not_created by exact Hc. reflexivity.
Qed.

Lemma zip_with_builtin_result validate :
  archive_created E compress = true ->
  fst (zip_with_builtin E compress validate)
  = if elapsed_is_zero E then None
    else if validate then validate_build E (process_all E compress (scan E))
         else Some true.
Proof.
  intros Hc. unfold zip_with_builtin. rewrite Hc. cbn [negb].
  destruct (elapsed_is_zero E); [reflexivity|].
  destruct validate; [|reflexivity].
  destruct (validate_build E _) as [verdict|]; [|reflexivity].
  destruct verdict; reflexivity.
Qed.

End ArchiveRuns.




Section NexusOrder.

Import Nexus.

(** The files are added in the order of the list, up to the first one
    that cannot be added. *)
Lemma add_files_prefix adds (files_list : list glob_entry) :
  exists n, map fst (snd (add_files adds files_list))
            = firstn n (map arcname files_list).
Proof.
  induction files_list as [|f rest [n IH]]; simpl.
  - exists 0%nat. reflexivity.
  - destruct (st_size f) as [file_size|]; [|exists 0%nat; reflexivity].
    destruct (adds (file_path f)).
    + destruct (add_files adds rest) as [ok written]. simpl in *.
      exists (S n). simpl. rewrite IH. reflexivity.
    + exists 0%nat. reflexivity.
Qed.

Lemma create_zip_archive_prefix is_dir glob glob_again archive_opens adds archive_closes
      output_path timestamp :
  exists n, map fst (snd (create_zip_archive is_dir glob glob_again archive_opens adds
                                             archive_closes output_path timestamp))
            = firstn n (map arcname (List.filter is_file glob_again)).
Proof.
  unfold create_zip_archive.
  destruct (negb is_dir); [exists 0%nat; reflexivity|].
  destruct (scan_sizes _) as [sizes|]; [|exists 0%nat; reflexivity].
  destruct (length _ =? 0)%nat; [exists 0%nat; reflexivity|].
  destruct (forallb _ _); [exists 0%nat; reflexivity|].
  destruct (negb archive_opens); [exists 0%nat; reflexivity|].
  destruct (add_files_prefix adds (List.filter is_file glob_again)) as [n Hn].
  destruct (add_files adds (List.filter is_file glob_again)) as [ok written].
  exists n. destruct (ok && archive_closes); exact Hn.
Qed.

End NexusOrder.

(** C7, as stated, on a directory holding [a.bin] (10 bytes) and [b.bin]
    (5 bytes): the entries are written in name order, the larger one
    first. *)
Lemma archive_order_not_by_size :
  Script2.entries (snd (Script2.zip_with_builtin Samples.src_tree false false))
  = [("a.bin", 10); ("b.bin", 5)] /\
  ~ Sorted Z.le
      (map snd (Script2.entries (snd (Script2.zip_with_builtin Samples.src_tree false false)))).
Proof.
  split; [vm_compute; reflexivity|].
  intros H. vm_compute in H.
  inversion H as [|? ? _ Hhd]; subst. inversion Hhd as [|? ? Hle]; subst.
  apply Hle. reflexivity.
Qed.

(** C7 (amended): once the empty archive has been created, the archive
    builder of [zip_with_builtin] processes the entries, and so writes them,
    in the order of the scan: directory by directory in the order of
    [os.walk], and within one directory in ascending order of the file
    names; when the archive cannot be created nothing is processed.
    [create_zip_archive] of the Nexus script adds the files in the order of
    the glob that it runs once the output file is open; sizes play no part
    in either order. *)
Theorem archive_order_by_walk_and_name (E : Script2.env) (compress validate : bool) :
  (forall is_dir glob glob_again archive_opens adds archive_closes output_path timestamp,
      exists n,
        map fst (snd (Nexus.create_zip_archive is_dir glob glob_again archive_opens adds
                                               archive_closes output_path timestamp))
        = firstn n (map Nexus.arcname (List.filter Nexus.is_file glob_again))) /\
  (Script2.archive_created E compress = true ->
   Script2.started (snd (Script2.zip_with_builtin E compress validate))
   = map (fun fi => fst (fst fi)) (Script2.scan E)) /\
  (Script2.archive_created E compress = true ->
   Script2.entries (snd (Script2.zip_with_builtin E compress validate))
   = flat_map (fun fi => Script2.entries
                           (snd (Script2.process_single_file E fi compress
                                                             (Script2.available_memory E))))
              (Script2.scan E)) /\
  (Script2.archive_created E compress = false ->
   snd (Script2.zip_with_builtin E compress validate) = []) /\
  (forall fi available_memory,
      Forall (fun e => fst e = snd (fst fi))
             (Script2.entries (snd (Script2.process_single_file E fi compress
                                                                available_memory)))) /\
  Script2.scan E
  = flat_map (fun d => map (Script2.info E (fst d)) (Script2.dir_names E d))
             (Script2.walk E) /\
  (forall d, StronglySorted (fun a b => String.leb a b = true) (Script2.dir_names E d)) /\
  (forall d x, In x (Script2.dir_names E d)
               <-> In x (snd d) /\ Script2.kept E (fst d) x = true).
Proof.
  refine (conj _ (conj _ (conj _ (conj _ (conj _ (conj _ (conj _ _))))))).
  - apply create_zip_archive_prefix.
  - intros Hc. rewrite zip_with_builtin_trace by exact Hc. apply process_all_started.
  - intros Hc. rewrite zip_with_builtin_trace by exact Hc. apply process_all_entries_flat.
  - intros Hc. rewrite zip_with_builtin_not_created by exact Hc. reflexivity.
  - intros fi am. destruct (process_single_file_trace E compress fi am) as [_ _ _ _ H].
    exact H.
  - apply scan_as_names.
  - apply dir_names_sorted.
  - apply dir_names_in.
Qed.

(** C10: a source file that [is_zip] recognises, its path ending in
    [.zip] in whatever case, never gets into [all_files], so its processing
    never starts and every entry of the archive comes from a file that is
    no zip file; and the validation walk skips it, so that its outcome (the
    missing entries included) is the one of the same tree without that
    file. *)
Theorem zip_files_left_out (E : Script2.env) (compress validate : bool) (file_path : string) :
  Script2.is_zip file_path = true ->
  ~ In file_path (map (fun fi => fst (fst fi)) (Script2.scan E)) /\
  ~ In file_path (Script2.started (snd (Script2.zip_with_builtin E compress validate))) /\
  (forall e, In e (Script2.entries (snd (Script2.zip_with_builtin E compress validate))) ->
             exists fi, In fi (Script2.scan E) /\ fst e = snd (fst fi) /\
                        Script2.is_zip (fst (fst fi)) = false) /\
  (forall zf before after r,
      Script2.validate_walk E zf (before ++ file_path :: after) r
      = Script2.validate_walk E zf (before ++ after) r).
Proof.
  intros Hzip.
  assert (Hscan : ~ In file_path (map (fun fi => fst (fst fi)) (Script2.scan E))).
  { intros Hin. apply in_map_iff in Hin. destruct Hin as (fi & <- & Hfi).
    apply scan_no_zip in Hfi. congruence. }
  repeat apply conj.
  - exact Hscan.
  - destruct (zip_with_builtin_trace_cases E compress validate) as [-> | ->].
    + rewrite process_all_started. exact Hscan.
    + intros [].
  - intros e He.
    destruct (zip_with_builtin_trace_cases E compress validate) as [Htr|Htr];
      rewrite Htr in He; [|destruct He].
    pose proof (process_all_entries E compress (Script2.scan E)) as Hall.
    rewrite List.Forall_forall in Hall. specialize (Hall e He).
    apply in_map_iff in Hall. destruct Hall as (fi & Hrel & Hfi).
    exists fi. split; [exact Hfi|]. split; [symmetry; exact Hrel|].
    apply scan_no_zip with (E := E). exact Hfi.
  - intros zf before after r. apply validate_walk_skips_zip. exact Hzip.
Qed.

Lemma zip_files_left_out_witness :
  ~ In "src/out.ZIP" (map (fun fi => fst (fst fi)) (Script2.scan Samples.src_tree)) /\
  ~ In "src/out.ZIP"
       (Script2.started (snd (Script2.zip_with_builtin Samples.src_tree false true))) /\
  (forall e, In e (Script2.entries (snd (Script2.zip_with_builtin Samples.src_tree false true))) ->
             exists fi, In fi (Script2.scan Samples.src_tree) /\ fst e = snd (fst fi) /\
                        Script2.is_zip (fst (fst fi)) = false) /\
  (forall zf before after r,
      Script2.validate_walk Samples.src_tree zf (before ++ "src/out.ZIP" :: after) r
      = Script2.validate_walk Samples.src_tree zf (before ++ after) r).
Proof.
  apply (zip_files_left_out Samples.src_tree false true "src/out.ZIP"). reflexivity.
Defined.

(** The output archive [out.ZIP], present in the tree at validation time,
    is not reported as missing. *)
Example validation_ignores_output_archive :
  Script2.validate_walk Samples.src_tree ∅
    (Script2.walk_files (Script2.walk_after Samples.src_tree))
    {| Script2.missing_files := []; Script2.size_mismatches := [] |}
  = Some {| Script2.missing_files := ["b.bin"; "a.bin"]; Script2.size_mismatches := [] |}.
Proof. vm_compute. reflexivity. Qed.

(** * Further properties *)

(** ** The retry loop: backoff and headers *)

Section Backoff.

Import PyFloat Jfrog.

Variable fe : file_env.
Variable url : string.


(** The headers of the PUT requests of the loop that starts at retry
    [start] with the headers [headers_at start]. *)
Lemma upload_loop_headers md5_hash (n : nat) :
  forall start i h,
    nth_error (put_headers (snd (upload_loop fe url (seq start n)
                                             (headers_at fe md5_hash start)))) i = Some h ->
    h = headers_at fe md5_hash (start + i).
Proof.
  induction n as [|n IH]; intros start i h; simpl.
  - destruct i; discriminate.
  - assert (Hrec : forall r tr,
               upload_loop fe url (seq (S start) n) (headers_at fe md5_hash (S start)) = (r, tr) ->
               nth_error (put_headers (EvPut url (headers_at fe md5_hash start)
                                         :: EvSleep (backoff_time start) :: tr)) i = Some h ->
               h = headers_at fe md5_hash (start + i)).
    { intros r tr E Hn. destruct i as [|i]; simpl in Hn.
      - rewrite Nat.add_0_r. congruence.
      - replace (start + S i)%nat with (S start + i)%nat by lia.
        apply IH. rewrite E. exact Hn. }
    pose proof (headers_at_succ fe md5_hash start) as Hsucc.
    destruct (put fe start (headers_at fe md5_hash start)) as [|status text] eqn:Eput.
    + simpl in Hsucc.
      replace (upload_loop fe url (seq (S start) n) (headers_at fe md5_hash start))
        with (upload_loop fe url (seq (S start) n) (headers_at fe md5_hash (S start)))
        by (rewrite Hsucc; reflexivity).
      destruct (upload_loop fe url (seq (S start) n) (headers_at fe md5_hash (S start)))
        as [r tr] eqn:E.
      apply (Hrec r tr eq_refl).
    + simpl in Hsucc. destruct (status_ok status); simpl in *.
      * destruct i as [|[|i]]; simpl; intros Hn; try discriminate.
        rewrite Nat.add_0_r. congruence.
      * assert (Hh : (if PyStr.contains "checksum" (PyStr.lower text)
                      then <["X-Checksum-Deploy" := "true"]> (headers_at fe md5_hash start)
                      else headers_at fe md5_hash start)
                     = headers_at fe md5_hash (S start)).
        { rewrite Hsucc. destruct (PyStr.contains _ _); [|reflexivity].
          unfold headers_at. destruct (existsb _ _); [apply deploy_headers_again|reflexivity]. }
        rewrite Hh.
        destruct (upload_loop fe url (seq (S start) n) (headers_at fe md5_hash (S start)))
          as [r tr] eqn:E.
        apply (Hrec r tr eq_refl).
Qed.

End Backoff.

Section UploadTrace.

Import PyFloat Jfrog.

Lemma put_headers_length (tr : list event) : length (put_headers tr) = attempts tr.
Proof.
  unfold attempts. induction tr as [|e tr IH]; simpl; [reflexivity|].
  destruct e; simpl; congruence.
Qed.

Lemma list_by_index {A} (f : nat -> A) (l : list A) :
  forall off,
    (forall i x, nth_error l i = Some x -> x = f (off + i)%nat) ->
    l = map f (seq off (length l)).
Proof.
  induction l as [|a l IH]; intros off H; simpl; [reflexivity|].
  f_equal.
  - rewrite (H 0%nat a eq_refl). f_equal. lia.
  - apply IH. intros i x Hi.
    replace (S off + i)%nat with (off + S i)%nat by lia. apply H. exact Hi.
Qed.

Lemma upload_loop_lock_free fe url (retries : list nat) :
  forall headers, lock_free (snd (upload_loop fe url retries headers)).
Proof.
  unfold lock_free.
  induction retries as [|retry rest IH]; intros headers; simpl.
  - repeat constructor.
  - destruct (put fe retry headers) as [|status text].
    + specialize (IH headers). destruct (upload_loop fe url rest headers) as [r tr].
      simpl in *. repeat constructor. exact IH.
    + destruct (status_ok status); simpl; [repeat constructor|].
      match goal with
      | |- context [upload_loop fe url rest ?h] =>
          specialize (IH h); destruct (upload_loop fe url rest h) as [r tr]
      end.
      simpl in *. repeat constructor. exact IH.
Qed.

(** A [True] of the loop comes from an accepted PUT followed by a
    validation that passed. *)
Lemma upload_loop_true fe url (retries : list nat) :
  forall headers,
    fst (upload_loop fe url retries headers) = true ->
    (exists retry h status text,
        In retry retries /\ put fe retry h = PutResponse status text /\
        status_ok status = true) /\
    _validate_upload fe = true.
Proof.
  induction retries as [|retry rest IH]; intros headers; simpl; [discriminate|].
  destruct (put fe retry headers) as [|status text] eqn:Eput.
  - specialize (IH headers). destruct (upload_loop fe url rest headers) as [r tr].
    simpl in *. intros Hr. destruct (IH Hr) as [(r' & h & s & t & Hin & Hp & Hs) Hv].
    split; [|exact Hv]. exists r', h, s, t. auto.
  - destruct (status_ok status) eqn:Eok; simpl.
    + intros Hv. split; [|exact Hv]. exists retry, headers, status, text. auto.
    + match goal with
      | |- context [upload_loop fe url rest ?h] =>
          specialize (IH h); destruct (upload_loop fe url rest h) as [r tr]
      end.
      simpl in *. intros Hr. destruct (IH Hr) as [(r' & h & s & t & Hin & Hp & Hs) Hv].
      split; [|exact Hv]. exists r', h, s, t. auto.
Qed.

Lemma call_upload_file u env (f : string * string) :
  (c_file (call_upload u env f), c_target (call_upload u env f)) = f.
Proof.
  unfold call_upload. destruct (upload_file u env (fst f) (Some (snd f))).
  destruct f; reflexivity.
Qed.


Lemma strongly_sorted_firstn {A} (R : A -> A -> Prop) (l : list A) :
  StronglySorted R l -> forall n, StronglySorted R (firstn n l).
Proof.
  intros H. induction H as [|a l H IH Ha]; intros [|n]; simpl; try constructor.
  - apply IH.
  - apply List.Forall_forall. intros y Hy.
    rewrite List.Forall_forall in Ha. apply Ha.
    generalize dependent y. clear. revert n.
    induction l as [|b l IHl]; intros [|n] y; simpl; try tauto.
    intros [->|Hy]; [left; reflexivity|right; eapply IHl; exact Hy].
Qed.

Lemma strongly_sorted_map {A B} (R : A -> A -> Prop) (S : B -> B -> Prop)
      (f : A -> B) (l : list A) :
  (forall x y, R x y -> S (f x) (f y)) ->
  StronglySorted R l -> StronglySorted S (map f l).
Proof.
  intros HRS H. induction H as [|a l H IH Ha]; simpl; constructor; [exact IH|].
  apply List.Forall_forall. intros y Hy. apply in_map_iff in Hy.
  destruct Hy as (x & <- & Hx). apply HRS.
  rewrite List.Forall_forall in Ha. apply Ha. exact Hx.
Qed.

End UploadTrace.


(** X2: the headers of the PUT requests of one file.  The [i]-th PUT
    carries the initial headers (content type and MD5 checksum), with
    [X-Checksum-Deploy: true] added exactly when some earlier PUT of the
    file was refused with a body that mentions a checksum; once added, the
    header stays for the remaining attempts. *)
Theorem upload_headers_adapt (fe : Jfrog.file_env) (url md5_hash : string) :
  Jfrog.put_headers (snd (Jfrog._upload_with_streaming fe url md5_hash))
  = map (Jfrog.headers_at fe md5_hash)
        (seq 0 (Jfrog.attempts (snd (Jfrog._upload_with_streaming fe url md5_hash)))) /\
  (forall i,
      Jfrog.headers_at fe md5_hash i !! "X-Checksum-Md5" = Some md5_hash /\
      Jfrog.headers_at fe md5_hash i !! "Content-Type" = Some "application/octet-stream" /\
      Jfrog.headers_at fe md5_hash i !! "X-Checksum-Deploy"
      = if existsb (fun j => Jfrog.mentions_checksum
                               (Jfrog.put fe j (Jfrog.initial_headers md5_hash)))
                   (seq 0 i)
        then Some "true" else None).
Proof.
  split.
  - rewrite <- put_headers_length. apply list_by_index.
    intros i h Hi. unfold Jfrog._upload_with_streaming in Hi.
    apply (upload_loop_headers fe url md5_hash Jfrog.MAX_RETRIES 0 i h). exact Hi.
  - intros i. unfold Jfrog.headers_at, Jfrog.deploy_headers, Jfrog.initial_headers.
    destruct (existsb _ _); repeat split; reflexivity.
Qed.

(** X3: [upload_file] returns [True] only when the file exists, some PUT
    among the [MAX_RETRIES] attempts was answered 200 or 201, and the
    validation that follows passed. *)
Theorem upload_file_true_sound
        (u : Jfrog.uploader) (env : string -> Jfrog.file_env)
        (file_path : string) (target_path : option string) :
  fst (Jfrog.upload_file u env file_path target_path) = Some true ->
  Jfrog.exists_ (env file_path) = true /\
  (exists retry h status text,
      (retry < Jfrog.MAX_RETRIES)%nat /\
      Jfrog.put (env file_path) retry h = Jfrog.PutResponse status text /\
      Jfrog.status_ok status = true) /\
  Jfrog._validate_upload (env file_path) = true.
Proof.
  unfold Jfrog.upload_file.
  destruct (Jfrog.exists_ (env file_path)); simpl; [|discriminate].
  destruct (Jfrog.st_size (env file_path)) as [file_size|]; [|discriminate].
  destruct (Jfrog.md5 (env file_path)) as [md5_hash|]; [|discriminate].
  set (url := Jfrog.make_url u _).
  pose proof (upload_loop_true (env file_path) url (seq 0 Jfrog.MAX_RETRIES)
                               (Jfrog.initial_headers md5_hash)) as Hloop.
  unfold Jfrog._upload_with_streaming.
  destruct (Jfrog.upload_loop (env file_path) url (seq 0 Jfrog.MAX_RETRIES)
                              (Jfrog.initial_headers md5_hash)) as [r tr].
  cbn [fst] in Hloop.
  assert (Hr : Some r = Some true ->
               (exists retry h status text,
                   (retry < Jfrog.MAX_RETRIES)%nat /\
                   Jfrog.put (env file_path) retry h = Jfrog.PutResponse status text /\
                   Jfrog.status_ok status = true) /\
               Jfrog._validate_upload (env file_path) = true).
  { intros [= ->]. destruct (Hloop eq_refl) as [(retry & h & s & t & Hin & Hp & Hs) Hv].
    split; [|exact Hv]. exists retry, h, s, t. split; [|auto].
    apply in_seq in Hin. lia. }
  destruct (file_size >=? Jfrog.large_threshold u); simpl; intros H;
    (split; [reflexivity|apply Hr; exact H]).
Qed.

Lemma upload_file_true_sound_witness :
  Jfrog.exists_ (Samples.reliable "d/A") = true /\
  (exists retry h status text,
      (retry < Jfrog.MAX_RETRIES)%nat /\
      Jfrog.put (Samples.reliable "d/A") retry h = Jfrog.PutResponse status text /\
      Jfrog.status_ok status = true) /\
  Jfrog._validate_upload (Samples.reliable "d/A") = true.
Proof.
  apply (upload_file_true_sound Samples.the_uploader Samples.reliable "d/A" (Some "A")).
  vm_compute. reflexivity.
Defined.

(** X4: the lock of [upload_file].  When the file exists, its MD5 can be
    computed and its size is at or above the threshold, everything the call
    does on the network happens between one acquisition and one release of
    [large_file_lock]; in every other case the call never touches the
    lock. *)
Theorem upload_file_lock_bracket
        (u : Jfrog.uploader) (env : string -> Jfrog.file_env)
        (file_path : string) (target_path : option string) :
  if Jfrog.takes_lock u (env file_path)
  then exists mid,
         snd (Jfrog.upload_file u env file_path target_path)
         = Jfrog.EvAcquire :: mid ++ [Jfrog.EvRelease] /\
         Jfrog.lock_free mid
  else Jfrog.lock_free (snd (Jfrog.upload_file u env file_path target_path)).
Proof.
  unfold Jfrog.takes_lock, Jfrog.upload_file.
  destruct (Jfrog.exists_ (env file_path)); simpl; [|constructor].
  destruct (Jfrog.st_size (env file_path)) as [file_size|]; [|constructor].
  destruct (Jfrog.md5 (env file_path)) as [md5_hash|]; [|repeat constructor].
  set (url := Jfrog.make_url u _).
  pose proof (upload_loop_lock_free (env file_path) url (seq 0 Jfrog.MAX_RETRIES)
                                    (Jfrog.initial_headers md5_hash)) as Hfree.
  unfold Jfrog._upload_with_streaming.
  destruct (Jfrog.upload_loop (env file_path) url (seq 0 Jfrog.MAX_RETRIES)
                              (Jfrog.initial_headers md5_hash)) as [r tr].
  simpl in Hfree.
  destruct (file_size >=? Jfrog.large_threshold u); simpl.
  - exists tr. split; [reflexivity|exact Hfree].
  - exact Hfree.
Qed.

Section HandingOut.

Import PyFloat Jfrog.

Variable u : uploader.
Variable scan : scan_env.
Variable st : string -> Z.

Local Abbreviation by_size :=
  (StronglySorted (fun a b : string * string => size_of scan a <= size_of scan b)).






End HandingOut.



(** ** The scheduler: phases and the lock *)

Section Phases.

Import PyFloat Jfrog.

Variable u : uploader.
Variable scan : scan_env.
Variable st : string -> Z.

Lemma pool_drained_step s s' : step u st s s' -> pool_drained s -> pool_drained s'.
Proof.
  unfold pool_drained. intros Hstep H.
  inversion Hstep; subst; simpl in *; auto.
  destruct m; auto; destruct r1; discriminate.
Qed.

Lemma pool_drained_reachable files s :
  rtc (step u st) (init u scan files) s -> pool_drained s.
Proof.
  revert s. apply rtc_ind_r.
  - exact I.
  - intros y z _ Hstep IH. eapply pool_drained_step; eassumption.
Qed.

End Phases.

(** X6: the two phases of [upload_directory] never overlap.  In every
    reachable state, once the main thread has left the pool block no worker
    holds a task; so while an item classified large is inside [upload_file],
    no item classified small is. *)
Theorem large_uploads_run_alone
        (u : Jfrog.uploader) (scan : Jfrog.scan_env) (st : string -> Z)
        (files : list (string * string)) (s : Jfrog.sched) :
  rtc (Jfrog.step u st) (Jfrog.init u scan files) s ->
  Jfrog.pool_drained s /\
  (Jfrog.large_in_flight u scan s <> [] -> Jfrog.small_in_flight u scan s = []).
Proof.
  intros Hreach.
  pose proof (pool_drained_reachable u scan st files s Hreach) as Hd.
  pose proof (sched_inv_reachable u scan st files s Hreach) as Hinv.
  split; [exact Hd|]. intros Hlarge.
  pose proof (large_in_flight_le_main u scan s Hinv) as Hle.
  pose proof (small_in_flight_le_running u scan s Hinv) as Hsm.
  assert (Hmain : Jfrog.main_task s <> []).
  { intros E. rewrite E in Hle. simpl in Hle.
    destruct (Jfrog.large_in_flight u scan s); [contradiction|simpl in Hle; lia]. }
  assert (Hrun : Jfrog.running s = []).
  { unfold Jfrog.pool_drained, Jfrog.main_task in *.
    destruct (Jfrog.main s) as [|[|]| |]; try contradiction; exact Hd. }
  rewrite Hrun in Hsm. simpl in Hsm.
  destruct (Jfrog.small_in_flight u scan s); [reflexivity|simpl in Hsm; lia].
Qed.

Lemma large_uploads_run_alone_witness :
  Jfrog.pool_drained Samples.b_in_lock /\
  (Jfrog.large_in_flight Samples.the_uploader Samples.two_sizes Samples.b_in_lock <> [] ->
   Jfrog.small_in_flight Samples.the_uploader Samples.two_sizes Samples.b_in_lock = []).
Proof.
  apply (large_uploads_run_alone Samples.the_uploader Samples.two_sizes Samples.two_stat
           (Jfrog.collect_files Samples.two_files None) Samples.b_in_lock).
  etransitivity; [apply a_streaming_reachable|apply b_in_lock_reachable].
Defined.

(** X7: [large_file_lock] gives mutual exclusion on its own.  Whatever
    sizes the [stat] of [upload_file] sees (they may differ from the sizes
    of the scan), in every reachable state at most one thread is inside the
    [with self.large_file_lock] block, and none is while the lock is free. *)
Theorem large_file_lock_exclusive
        (u : Jfrog.uploader) (scan : Jfrog.scan_env) (st : string -> Z)
        (files : list (string * string)) (s : Jfrog.sched) :
  rtc (Jfrog.step u st) (Jfrog.init u scan files) s ->
  (length (Jfrog.in_lock s) <= 1)%nat /\
  (Jfrog.lock_held s = false -> Jfrog.in_lock s = []).
Proof.
  intros H. apply (lock_inv_reachable u scan st files) in H. destruct H as [Hle Hfree].
  rewrite <- in_lock_length in Hle, Hfree. split; [exact Hle|].
  intros Hl. specialize (Hfree Hl).
  destruct (Jfrog.in_lock s); [reflexivity|discriminate].
Qed.

Lemma large_file_lock_exclusive_witness :
  (length (Jfrog.in_lock Samples.b_in_lock) <= 1)%nat /\
  (Jfrog.lock_held Samples.b_in_lock = false -> Jfrog.in_lock Samples.b_in_lock = []).
Proof.
  apply (large_file_lock_exclusive Samples.the_uploader Samples.two_sizes Samples.two_stat
           (Jfrog.collect_files Samples.two_files None) Samples.b_in_lock).
  etransitivity; [apply a_streaming_reachable|apply b_in_lock_reachable].
Defined.

Section Progress.

Import PyFloat Jfrog.

Variable u : uploader.
Variable scan : scan_env.
Variable st : string -> Z.

Local Abbreviation steps := (rtc (step u st)).

Ltac count_locks' :=
  unfold main_task in *; simpl in *;
  repeat (rewrite count_lock_app in * || rewrite count_lock_cons in *
          || rewrite count_lock_nil in *);
  unfold holds_lock in *; simpl in *.

Lemma lock_owned_step s s' : step u st s s' -> lock_owned s -> lock_owned s'.
Proof.
  unfold lock_owned. intros Hstep Hown.
  inversion Hstep; subst; simpl in *.
  - count_locks'. exact Hown.
  - count_locks'. intros Hl. specialize (Hown Hl). lia.
  - inversion H; subst; count_locks'; intros Hl;
      try discriminate; try specialize (Hown Hl); lia.
  - count_locks'. exact Hown.
  - count_locks'. intros Hl. specialize (Hown Hl). lia.
  - inversion H; subst; count_locks'; intros Hl;
      try discriminate; try specialize (Hown Hl); lia.
  - count_locks'. intros Hl. specialize (Hown Hl). lia.
  - count_locks'. exact Hown.
Qed.

Lemma lock_owned_reachable files s :
  steps (init u scan files) s -> lock_owned s.
Proof.
  revert s. apply rtc_ind_r.
  - intros H. discriminate.
  - intros y z _ Hstep IH. eapply lock_owned_step; eassumption.
Qed.

(** With the lock free, the workers can finish their tasks one by one. *)
Lemma drain_workers (r : list task) :
  forall q m,
    count_lock r = 0%nat ->
    steps {| queue := q; running := r; lock_held := false; main := m |}
          {| queue := q; running := []; lock_held := false; main := m |}.
Proof.
  induction r as [|[f p] r IH]; intros q m Hc; [apply rtc_refl|].
  rewrite count_lock_cons in Hc. unfold holds_lock in Hc. simpl in Hc.
  destruct p; simpl in Hc; try lia.
  - eapply rtc_l; [|apply IH; lia].
    apply (step_worker u st q [] {| t_file := f; t_pc := AtEntry |} r false None false m).
    apply ts_early.
  - eapply rtc_l.
    { apply (step_worker u st q [] {| t_file := f; t_pc := WaitLock |} r false
                         (Some {| t_file := f; t_pc := InLock |}) true m).
      apply ts_acquire. }
    eapply rtc_l; [|apply IH; lia].
    apply (step_worker u st q [] {| t_file := f; t_pc := InLock |} r true None false m).
    apply ts_release.
  - eapply rtc_l; [|apply IH; lia].
    apply (step_worker u st q [] {| t_file := f; t_pc := NoLock |} r false None false m).
    apply ts_finish.
Qed.

Lemma find_lock_owner (r : list task) :
  (1 <= count_lock r)%nat ->
  exists r1 f r2, r = r1 ++ {| t_file := f; t_pc := InLock |} :: r2 /\
                  count_lock r = S (count_lock r1 + count_lock r2).
Proof.
  induction r as [|[f p] r IH]; intros Hc; [rewrite count_lock_nil in Hc; lia|].
  destruct (holds_lock {| t_file := f; t_pc := p |}) eqn:Eh.
  - exists [], f, r. unfold holds_lock in Eh. simpl in Eh.
    destruct p; try discriminate. split; [reflexivity|].
    rewrite count_lock_cons, count_lock_nil. reflexivity.
  - rewrite count_lock_cons, Eh in Hc.
    destruct (IH Hc) as (r1 & f' & r2 & E & Hn).
    exists ({| t_file := f; t_pc := p |} :: r1), f', r2.
    split; [rewrite E; reflexivity|].
    rewrite !count_lock_cons, Eh, Hn. reflexivity.
Qed.

(** Whatever the lock, the workers can finish, leaving the lock free. *)
Lemma drain_pool q r l m :
  (count_lock r <= 1)%nat ->
  (l = false -> count_lock r = 0%nat) ->
  (l = true -> (1 <= count_lock r)%nat) ->
  steps {| queue := q; running := r; lock_held := l; main := m |}
        {| queue := q; running := []; lock_held := false; main := m |}.
Proof.
  intros Hle Hfree Hown. destruct l.
  - destruct (find_lock_owner r (Hown eq_refl)) as (r1 & f & r2 & -> & Hn).
    eapply rtc_l.
    { apply (step_worker u st q r1 {| t_file := f; t_pc := InLock |} r2 true None false m).
      apply ts_release. }
    simpl. apply drain_workers. rewrite count_lock_app. lia.
  - apply drain_workers. apply Hfree. reflexivity.
Qed.

(** The loop over the large files can run to its end. *)
Lemma finish_large_loop (todo : list (string * string)) :
  forall q,
    steps {| queue := q; running := []; lock_held := false; main := Large None todo |}
          {| queue := q; running := []; lock_held := false; main := Returned |}.
Proof.
  induction todo as [|f todo IH]; intros q.
  - apply rtc_once. apply step_return.
  - eapply rtc_l; [apply step_large_next|].
    eapply rtc_l; [|apply IH].
    apply (step_large_step u st q [] false {| t_file := f; t_pc := AtEntry |} todo None false).
    apply ts_early.
Qed.

Lemma finish_current q l (t : task) todo :
  (l = false -> holds_lock t = false) ->
  (l = true -> holds_lock t = true) ->
  steps {| queue := q; running := []; lock_held := l; main := Large (Some t) todo |}
        {| queue := q; running := []; lock_held := false; main := Large None todo |}.
Proof.
  intros Hfree Hown. destruct t as [f p]. unfold holds_lock in *. simpl in *.
  destruct p.
  - destruct l; [specialize (Hown eq_refl); discriminate|].
    apply rtc_once.
    apply (step_large_step u st q [] false {| t_file := f; t_pc := AtEntry |} todo None false).
    apply ts_early.
  - destruct l; [specialize (Hown eq_refl); discriminate|].
    eapply rtc_l.
    { apply (step_large_step u st q [] false {| t_file := f; t_pc := WaitLock |} todo
                             (Some {| t_file := f; t_pc := InLock |}) true).
      apply ts_acquire. }
    apply rtc_once.
    apply (step_large_step u st q [] true {| t_file := f; t_pc := InLock |} todo None false).
    apply ts_release.
  - apply rtc_once.
    apply (step_large_step u st q [] l {| t_file := f; t_pc := InLock |} todo None false).
    apply ts_release.
  - destruct l; [specialize (Hown eq_refl); discriminate|].
    apply rtc_once.
    apply (step_large_step u st q [] false {| t_file := f; t_pc := NoLock |} todo None false).
    apply ts_finish.
Qed.

(** From an idle pool the run can come to its end: the queue is worked off
    (or the executor refuses to start), then the large files. *)
Lemma finish_pool (q : list (string * string)) :
  forall lf,
    exists s', steps {| queue := q; running := []; lock_held := false; main := Pool lf |} s'
               /\ terminal s'.
Proof.
  induction q as [|f q IH]; intros lf.
  - eexists. split.
    + eapply rtc_l; [apply step_pool_done|]. apply finish_large_loop.
    + left. reflexivity.
  - destruct (Z_lt_le_dec 0 (max_workers u)) as [Hw|Hw].
    + destruct (IH lf) as (s' & Hs & Ht). exists s'. split; [|exact Ht].
      eapply rtc_l.
      { apply (step_start u st f q [] false lf). simpl. exact Hw. }
      eapply rtc_l; [|exact Hs].
      apply (step_worker u st q [] {| t_file := f; t_pc := AtEntry |} [] false None false
                         (Pool lf)).
      apply ts_early.
    + eexists. split.
      * apply rtc_once. apply step_refused; [discriminate|exact Hw].
      * right. reflexivity.
Qed.

Lemma can_finish (s : sched) :
  lock_inv s -> lock_owned s -> pool_drained s ->
  exists s', steps s s' /\ terminal s'.
Proof.
  destruct s as [q r l m]. unfold lock_inv, lock_owned, pool_drained. simpl.
  intros [Hle Hfree] Hown Hd.
  destruct m as [lf|cur todo| |].
  - unfold main_task in *. simpl in *. rewrite count_lock_nil in *.
    destruct (finish_pool q lf) as (s' & Hs & Ht). exists s'. split; [|exact Ht].
    etransitivity; [|exact Hs].
    apply drain_pool; [lia| |]; intros Hl; [specialize (Hfree Hl)|specialize (Hown Hl)]; lia.
  - subst r. rewrite count_lock_nil in *. unfold main_task in *. simpl in *.
    exists {| queue := q; running := []; lock_held := false; main := Returned |}.
    split; [|left; reflexivity].
    destruct cur as [t|].
    + etransitivity; [|apply finish_large_loop].
      apply finish_current; intros Hl;
        [specialize (Hfree Hl)|specialize (Hown Hl)];
        rewrite count_lock_cons, count_lock_nil in *;
        destruct (holds_lock t); simpl in *; try reflexivity; lia.
    + rewrite count_lock_nil in *.
      destruct l; [specialize (Hown eq_refl); lia|]. apply finish_large_loop.
  - eexists. split; [apply rtc_refl|left; reflexivity].
  - eexists. split; [apply rtc_refl|right; reflexivity].
Qed.

End Progress.

(** X8: the lock of [upload_file] and the pool cannot get stuck.  From
    every state that a run of [upload_directory] can reach there is a way
    for its threads to go on until the function returns or raises; in
    particular a thread waiting for [large_file_lock] can always get it
    after its holder has released it. *)
Theorem run_can_always_finish
        (u : Jfrog.uploader) (scan : Jfrog.scan_env) (st : string -> Z)
        (files : list (string * string)) (s : Jfrog.sched) :
  rtc (Jfrog.step u st) (Jfrog.init u scan files) s ->
  exists s', rtc (Jfrog.step u st) s s' /\ Jfrog.terminal s'.
Proof.
  intros Hreach. apply can_finish.
  - apply (lock_inv_reachable u scan st files). exact Hreach.
  - apply (lock_owned_reachable u scan st files). exact Hreach.
  - apply (pool_drained_reachable u scan st files). exact Hreach.
Qed.

Lemma run_can_always_finish_witness :
  exists s', rtc (Jfrog.step Samples.the_uploader Samples.two_stat) Samples.a_streaming s' /\
             Jfrog.terminal s'.
Proof.
  apply (run_can_always_finish Samples.the_uploader Samples.two_sizes Samples.two_stat
           (Jfrog.collect_files Samples.two_files None) Samples.a_streaming).
  apply a_streaming_reachable.
Defined.

(** ** Reading files in chunks *)

Section Chunks.

Import PyFile.

Lemma read_loop_nil fuel n : read_loop fuel n [] = [].
Proof.
  destruct fuel as [|fuel]; [reflexivity|]. simpl. unfold read.
  destruct (n <? 0); [reflexivity|]. rewrite firstn_nil. reflexivity.
Qed.

Lemma read_loop_concat (fuel : nat) (n : Z) :
  n <> 0 ->
  forall rest, (length rest < fuel)%nat -> concat (read_loop fuel n rest) = rest.
Proof.
  intros Hn. induction fuel as [|fuel IH]; intros rest Hlen; [lia|].
  simpl. unfold read. destruct (Z.ltb_spec n 0) as [Hneg|Hpos].
  - destruct rest as [|b rest]; [reflexivity|].
    simpl. rewrite read_loop_nil. simpl. rewrite app_nil_r. reflexivity.
  - destruct (Z.to_nat n) as [|k] eqn:Ek; [lia|].
    destruct rest as [|b rest]; [reflexivity|].
    simpl. f_equal. rewrite IH.
    + apply firstn_skipn.
    + simpl in Hlen. rewrite length_skipn. lia.
Qed.

Lemma read_loop_sizes (fuel : nat) (n : Z) :
  forall rest,
    Forall (fun c => c <> [] /\ (0 < n -> Z.of_nat (length c) <= n))
           (read_loop fuel n rest).
Proof.
  induction fuel as [|fuel IH]; intros rest; simpl; [constructor|].
  unfold read. destruct (Z.ltb_spec n 0) as [Hneg|Hpos].
  - destruct rest as [|b rest]; [constructor|].
    constructor; [|apply IH]. split; [discriminate|lia].
  - destruct (firstn (Z.to_nat n) rest) as [|b c] eqn:E; [constructor|].
    constructor; [|apply IH]. split; [discriminate|]. intros _.
    rewrite <- E. rewrite length_firstn. lia.
Qed.

Lemma chunks_zero data : chunks 0 data = [].
Proof. reflexivity. Qed.

Lemma fold_fed (l : list (list Byte.byte)) :
  forall fed, fold_left (fun fed chunk => fed ++ chunk) l fed = fed ++ concat l.
Proof.
  induction l as [|c l IH]; intros fed; simpl; [rewrite app_nil_r; reflexivity|].
  rewrite IH, app_assoc. reflexivity.
Qed.

Lemma fold_update (l : list (list Byte.byte)) :
  forall t,
    Jfrog.uploaded
      (fold_left (fun t chunk => Jfrog.update t (Z.of_nat (length chunk))) l t)
    = Jfrog.uploaded t + Z.of_nat (length (concat l)) /\
    Jfrog.total_size
      (fold_left (fun t chunk => Jfrog.update t (Z.of_nat (length chunk))) l t)
    = Jfrog.total_size t.
Proof.
  induction l as [|c l IH]; intros t; simpl; [split; [lia|reflexivity]|].
  destruct (IH (Jfrog.update t (Z.of_nat (length c)))) as [IH1 IH2].
  rewrite IH1, IH2. simpl. rewrite length_app. split; [lia|reflexivity].
Qed.

End Chunks.

(** X9: one pass of [file_content_generator].  With a chunk size other
    than 0 the chunks it yields are the bytes of the file, none lost and
    none twice; none is empty, none is longer than a positive chunk size,
    and the tracker has advanced by the size of the file.  With a chunk
    size of 0 it yields nothing, whatever the file holds. *)
Theorem file_content_generator_streams_file
        (chunk_size : Z) (data : list Byte.byte) (tracker : Jfrog.UploadTracker) :
  (chunk_size <> 0 ->
   concat (fst (Jfrog.file_content_generator chunk_size data tracker)) = data /\
   Forall (fun c => c <> [] /\ (0 < chunk_size -> Z.of_nat (length c) <= chunk_size))
          (fst (Jfrog.file_content_generator chunk_size data tracker)) /\
   Jfrog.uploaded (snd (Jfrog.file_content_generator chunk_size data tracker))
   = Jfrog.uploaded tracker + Z.of_nat (length data) /\
   Jfrog.total_size (snd (Jfrog.file_content_generator chunk_size data tracker))
   = Jfrog.total_size tracker) /\
  (chunk_size = 0 ->
   Jfrog.file_content_generator chunk_size data tracker = ([], tracker)).
Proof.
  unfold Jfrog.file_content_generator. split.
  - intros Hn. simpl.
    assert (Hc : concat (PyFile.chunks chunk_size data) = data)
      by (apply read_loop_concat; [exact Hn|lia]).
    split; [exact Hc|]. split; [apply read_loop_sizes|].
    destruct (fold_update (PyFile.chunks chunk_size data) tracker) as [H1 H2].
    rewrite H1, H2, Hc. split; reflexivity.
  - intros ->. reflexivity.
Qed.

Lemma file_content_generator_streams_file_witness :
  concat (fst (Jfrog.file_content_generator 2 [Byte.x61; Byte.x62; Byte.x63]
                 {| Jfrog.total_size := 3; Jfrog.uploaded := 0 |}))
  = [Byte.x61; Byte.x62; Byte.x63] /\
  Jfrog.file_content_generator 0 [Byte.x61; Byte.x62; Byte.x63]
    {| Jfrog.total_size := 3; Jfrog.uploaded := 0 |}
  = ([], {| Jfrog.total_size := 3; Jfrog.uploaded := 0 |}).
Proof.
  split.
  - apply (proj1 (file_content_generator_streams_file 2 [Byte.x61; Byte.x62; Byte.x63]
                    {| Jfrog.total_size := 3; Jfrog.uploaded := 0 |})). lia.
  - apply (proj2 (file_content_generator_streams_file 0 [Byte.x61; Byte.x62; Byte.x63]
                    {| Jfrog.total_size := 3; Jfrog.uploaded := 0 |})). reflexivity.
Defined.

Example file_content_generator_abc :
  fst (Jfrog.file_content_generator 2 [Byte.x61; Byte.x62; Byte.x63]
         {| Jfrog.total_size := 3; Jfrog.uploaded := 0 |})
  = [[Byte.x61; Byte.x62]; [Byte.x63]].
Proof. reflexivity. Qed.

(** X10: [calculate_md5] reads the file in blocks of 8192 bytes, and the
    digest it returns is the digest of the whole content of the file: the
    blocks fed to the hash object add up to the file. *)
Theorem calculate_md5_whole_file
        (hexdigest_of : list Byte.byte -> string) (data : list Byte.byte) :
  Jfrog.calculate_md5 hexdigest_of data = hexdigest_of data.
Proof.
  unfold Jfrog.calculate_md5. rewrite fold_fed. simpl app.
  f_equal. apply read_loop_concat; [discriminate|lia].
Qed.

(** ** The uploader and the exit status of jjdffg.py *)

Section UploaderFacts.

Import PyFloat Jfrog.

Lemma calculate_optimal_chunk_size_whole_mib (mem : raising svmem) (streams : Z) :
  calculate_optimal_chunk_size mem streams mod (1024 * 1024) = 0.
Proof.
  unfold calculate_optimal_chunk_size.
  destruct (chunk_size_try mem streams) as [c|] eqn:E; [|reflexivity].
  unfold chunk_size_try in E.
  repeat match type of E with
         | match ?x with _ => _ end = Some _ => destruct x; try discriminate
         end.
  injection E as <-. apply clamp_and_round_whole_mib.
Qed.

Lemma rstrip_no_trailing (c : ascii) (s : string) :
  PyStr.endswith (PyStr.rstrip c s) (String c "") = false.
Proof.
  induction s as [|a s IH]; [reflexivity|].
  simpl PyStr.rstrip. destruct (PyStr.rstrip c s) as [|b t] eqn:E.
  - destruct (Ascii.eqb a c) eqn:Eac; [reflexivity|].
    rewrite endswith_unfold. simpl. rewrite Eac. reflexivity.
  - rewrite endswith_unfold, IH. simpl.
    destruct (Ascii.eqb a c); reflexivity.
Qed.

Lemma lstrip_no_leading (c : ascii) (s : string) :
  String.prefix (String c "") (PyStr.lstrip c s) = false.
Proof.
  induction s as [|a s IH]; [reflexivity|].
  simpl PyStr.lstrip. destruct (Ascii.eqb a c) eqn:Eac; [exact IH|].
  simpl. destruct (ascii_dec c a) as [->|]; [|reflexivity].
  rewrite Ascii.eqb_refl in Eac. discriminate.
Qed.

(** Every request of [upload_file] goes to the one URL built from the
    target path. *)
Lemma upload_loop_urls fe url (retries : list nat) :
  forall headers,
    Forall (fun e => match e with
                     | EvPut url' _ | EvHead url' => url' = url
                     | _ => True
                     end)
           (snd (upload_loop fe url retries headers)).
Proof.
  induction retries as [|retry rest IH]; intros headers; simpl.
  - repeat constructor.
  - destruct (put fe retry headers) as [|status text].
    + specialize (IH headers). destruct (upload_loop fe url rest headers) as [r tr].
      simpl in *. repeat constructor. exact IH.
    + destruct (status_ok status); simpl; [repeat constructor|].
      match goal with
      | |- context [upload_loop fe url rest ?h] =>
          specialize (IH h); destruct (upload_loop fe url rest h) as [r tr]
      end.
      simpl in *. repeat constructor. exact IH.
Qed.

End UploaderFacts.

(** X11: the chunk size of an uploader.  [calculate_optimal_chunk_size]
    always returns a whole number of MiB, so an uploader built without an
    explicit chunk size reads the files in chunks of a whole number of MiB
    between 1 and 64; an explicit chunk size is taken as it is, without any
    clamping. *)
Theorem uploader_chunk_size
        (base_url repo_name : string) (max_workers large_threshold : Z)
        (mem : PyFloat.raising Jfrog.svmem) :
  (forall streams,
      Jfrog.calculate_optimal_chunk_size mem streams mod (1024 * 1024) = 0) /\
  (let u := Jfrog.JFrogUploader_init base_url repo_name max_workers large_threshold None mem in
   Jfrog.MIN_CHUNK_SIZE <= Jfrog.chunk_size u <= Jfrog.MAX_CHUNK_SIZE /\
   Jfrog.chunk_size u mod (1024 * 1024) = 0) /\
  (forall c,
      Jfrog.chunk_size
        (Jfrog.JFrogUploader_init base_url repo_name max_workers large_threshold (Some c) mem)
      = c).
Proof.
  split; [|split].
  - intros streams. apply calculate_optimal_chunk_size_whole_mib.
  - simpl. split.
    + apply calculate_optimal_chunk_size_range.
    + apply calculate_optimal_chunk_size_whole_mib.
  - reflexivity.
Qed.

Section PathName.

Lemma split_slash_parts (s : string) :
  Forall (fun part => PyStr.contains "/" part = false) (PyStr.split_slash s).
Proof.
  induction s as [|c s IH]; simpl; [repeat constructor|].
  destruct (Ascii.eqb c "/") eqn:Ec; [constructor; [reflexivity|exact IH]|].
  assert (Hc : forall part, PyStr.contains "/" part = false ->
                            PyStr.contains "/" (String c part) = false).
  { intros part Hpart.
    change (PyStr.contains "/" (String c part))
      with ((if ascii_dec "/" c then String.prefix "" part else false)
            || PyStr.contains "/" part).
    rewrite Hpart. destruct (ascii_dec "/" c) as [<-|]; [discriminate|reflexivity]. }
  destruct (PyStr.split_slash s) as [|part parts].
  - constructor; [apply Hc; reflexivity|constructor].
  - inversion IH as [|? ? Hpart Hparts]; subst. constructor; [apply Hc; exact Hpart|exact Hparts].
Qed.

Lemma last_forall {A} (P : A -> Prop) (l : list A) (d : A) :
  Forall P l -> P d -> P (List.last l d).
Proof.
  intros H Hd. induction H as [|a l Ha Hl IH]; [exact Hd|].
  destruct l; [exact Ha|exact IH].
Qed.

(** A file name holds no separator. *)
Lemma path_name_no_slash (p : string) : PyStr.contains "/" (PyStr.path_name p) = false.
Proof.
  unfold PyStr.path_name.
  apply (last_forall (fun part => PyStr.contains "/" part = false)); [|reflexivity].
  apply List.Forall_forall. intros part Hin. apply filter_In in Hin. destruct Hin as [Hin _].
  pose proof (split_slash_parts p) as H. rewrite List.Forall_forall in H. exact (H part Hin).
Qed.

Lemma lstrip_no_slash (s : string) :
  PyStr.contains "/" s = false -> PyStr.lstrip "/" s = s.
Proof.
  destruct s as [|c s]; [reflexivity|].
  change (PyStr.contains "/" (String c s))
    with ((if ascii_dec "/" c then String.prefix "" s else false) || PyStr.contains "/" s).
  change (PyStr.lstrip "/" (String c s))
    with (if Ascii.eqb c "/" then PyStr.lstrip "/" s else String c s).
  destruct (Ascii.eqb_spec c "/") as [->|_]; [|reflexivity].
  destruct (ascii_dec "/" "/") as [_|Hne]; [|contradiction].
  destruct s; discriminate.
Qed.

Example path_name_trailing_separator :
  PyStr.path_name "w/f10.bin/" = "f10.bin" /\ PyStr.basename "w/f10.bin/" = "".
Proof. split; reflexivity. Qed.

End PathName.

(** X12: the URL of an upload.  The base URL of an uploader never ends in
    a slash and the target path that [upload_file] uses never starts with
    one; without a target the name of the file is used, which is the last
    component of its path whether or not the path ends in a separator, and
    holds no slash; every PUT and HEAD request of the call goes to
    [base_url/artifactory/repo_name/target_path]. *)
Theorem upload_file_url
        (base_url repo_name : string) (max_workers large_threshold : Z)
        (chunk_size : option Z) (mem : PyFloat.raising Jfrog.svmem)
        (env : string -> Jfrog.file_env) (file_path : string)
        (target_path : option string) :
  let u := Jfrog.JFrogUploader_init base_url repo_name max_workers large_threshold
                                    chunk_size mem in
  let target := match target_path with
                | Some t => PyStr.lstrip "/" t
                | None => PyStr.path_name file_path
                end in
  PyStr.endswith (Jfrog.base_url u) "/" = false /\
  String.prefix "/" target = false /\
  PyStr.contains "/" (PyStr.path_name file_path) = false /\
  Forall (fun e => match e with
                   | Jfrog.EvPut url _ | Jfrog.EvHead url =>
                       url = (PyStr.rstrip "/" base_url ++ "/artifactory/" ++ repo_name
                              ++ "/" ++ target)%string
                   | _ => True
                   end)
         (snd (Jfrog.upload_file u env file_path target_path)).
Proof.
  intros u target.
  assert (Htarget : PyStr.lstrip "/" (match target_path with
                                       | None => PyStr.path_name file_path
                                       | Some t => t
                                       end) = target).
  { subst target. destruct target_path as [t|]; [reflexivity|].
    apply lstrip_no_slash, path_name_no_slash. }
  split; [apply rstrip_no_trailing|].
  split; [rewrite <- Htarget; apply lstrip_no_leading|].
  split; [apply path_name_no_slash|].
  unfold Jfrog.upload_file.
  destruct (Jfrog.exists_ (env file_path)); simpl; [|constructor].
  destruct (Jfrog.st_size (env file_path)) as [file_size|]; [|constructor].
  destruct (Jfrog.md5 (env file_path)) as [md5_hash|]; [|repeat constructor].
  rewrite Htarget.
  set (url := Jfrog.make_url u target).
  pose proof (upload_loop_urls (env file_path) url (seq 0 Jfrog.MAX_RETRIES)
                               (Jfrog.initial_headers md5_hash)) as Hurls.
  unfold Jfrog._upload_with_streaming.
  destruct (Jfrog.upload_loop (env file_path) url (seq 0 Jfrog.MAX_RETRIES)
                              (Jfrog.initial_headers md5_hash)) as [r tr].
  cbn [snd] in Hurls.
  match goal with |- context [if ?b then _ else _] => destruct b end; cbn [snd].
  - constructor; [exact I|]. apply Forall_app. split; [exact Hurls|repeat constructor].
  - exact Hurls.
Qed.

(** X13: the exit status for a directory.  When the source is a directory
    and no exception escapes [upload_directory], the script ends with
    status 0, whatever happened to the uploads of its files. *)
Theorem main_directory_exit_status
        (a : Jfrog.cli_args) (mem : PyFloat.raising Jfrog.svmem)
        (env : string -> Jfrog.file_env) (scan : Jfrog.scan_env)
        (source_path : string) (d : Jfrog.dir_env) (source_is_file : bool)
        (threshold : Z) :
  Jfrog.large_threshold_bytes (Jfrog.arg_large_threshold a) = Some threshold ->
  Jfrog.is_dir d = true ->
  fst (Jfrog.upload_directory (Jfrog.main_uploader a threshold mem) env scan d
                              (Jfrog.arg_target a)) <> None ->
  Jfrog.script_main a mem env scan source_path d source_is_file = 0.
Proof.
  intros Hthr Hd Hret. unfold Jfrog.script_main. rewrite Hthr, Hd.
  destruct (upload_directory_returns_true_or_raises
              (Jfrog.main_uploader a threshold mem) env scan d (Jfrog.arg_target a) Hd)
    as [E|E]; [rewrite E; reflexivity|contradiction].
Qed.

(** With the server that refuses every PUT of [d/A], the status is still 0. *)
Lemma main_directory_exit_status_witness :
  map Jfrog.c_result
      (snd (Jfrog.upload_directory
              (Jfrog.main_uploader Samples.default_args (100 * 1024 * 1024) Samples.mem_16g)
              Samples.refuses_A Samples.two_sizes Samples.two_files None))
  = [Some false; Some true] /\
  Jfrog.script_main Samples.default_args Samples.mem_16g Samples.refuses_A Samples.two_sizes
             "d" Samples.two_files false = 0.
Proof.
  split; [vm_compute; reflexivity|].
  apply (main_directory_exit_status Samples.default_args Samples.mem_16g Samples.refuses_A
           Samples.two_sizes "d" Samples.two_files false (100 * 1024 * 1024)).
  - vm_compute. reflexivity.
  - reflexivity.
  - vm_compute. discriminate.
Defined.

(** ** Chunk sizes of the archive build *)

(** X14: the chunk size that [process_single_file] asks for lies between
    8 KiB and 64 MiB, is never below the memory-based recommendation, and
    grows with the size of the file and with the available memory. *)
Theorem get_optimal_chunk_size_range (file_size available_memory : Z) :
  8192 <= Script2.get_optimal_chunk_size file_size available_memory <= 64 * 1024 * 1024 /\
  Script2.get_recommended_chunk_size available_memory
  <= Script2.get_optimal_chunk_size file_size available_memory /\
  (forall larger, file_size <= larger ->
                  Script2.get_optimal_chunk_size file_size available_memory
                  <= Script2.get_optimal_chunk_size larger available_memory) /\
  (forall more, available_memory <= more ->
                Script2.get_optimal_chunk_size file_size available_memory
                <= Script2.get_optimal_chunk_size file_size more).
Proof.
  unfold Script2.get_optimal_chunk_size, Script2.get_recommended_chunk_size.
  refine (conj _ (conj _ (conj _ _))).
  - destruct (Z.gtb_spec file_size (1 * 1024 * 1024 * 1024));
      destruct (Z.gtb_spec file_size (100 * 1024 * 1024)); lia.
  - destruct (Z.gtb_spec file_size (1 * 1024 * 1024 * 1024));
      destruct (Z.gtb_spec file_size (100 * 1024 * 1024)); lia.
  - intros larger Hle.
    destruct (Z.gtb_spec file_size (1 * 1024 * 1024 * 1024));
      destruct (Z.gtb_spec file_size (100 * 1024 * 1024));
      destruct (Z.gtb_spec larger (1 * 1024 * 1024 * 1024));
      destruct (Z.gtb_spec larger (100 * 1024 * 1024)); lia.
  - intros more Hle.
    pose proof (Z.div_le_mono available_memory more 100 ltac:(lia) Hle) as Hdiv.
    destruct (Z.gtb_spec file_size (1 * 1024 * 1024 * 1024));
      destruct (Z.gtb_spec file_size (100 * 1024 * 1024)); lia.
Qed.

(** ** The validation of an archive *)

Section ValidationFacts.

Import PyFloat Script2.

Variable E : env.
Variable zf : gmap string Z.

Lemma validate_walk_grows (files : list string) :
  forall r r',
    validate_walk E zf files r = Some r' ->
    exists m s,
      missing_files r' = missing_files r ++ m /\
      size_mismatches r' = size_mismatches r ++ s /\
      (m = [] /\ s = [] <-> Forall (covered E zf) files).
Proof.
  induction files as [|p rest IH]; intros r r' H; simpl in H.
  - injection H as <-. exists [], []. rewrite !app_nil_r.
    split; [reflexivity|]. split; [reflexivity|]. split; [constructor|auto].
  - assert (Hskip : covered E zf p ->
                    validate_walk E zf rest r = Some r' ->
                    exists m s,
                      missing_files r' = missing_files r ++ m /\
                      size_mismatches r' = size_mismatches r ++ s /\
                      (m = [] /\ s = [] <-> Forall (covered E zf) (p :: rest))).
    { intros Hp H'. destruct (IH _ _ H') as (m & s & Hm & Hs & Hiff).
      exists m, s. split; [exact Hm|]. split; [exact Hs|]. split.
      - intros Hnil. constructor; [exact Hp|apply Hiff; exact Hnil].
      - intros Hall. apply Hiff. inversion Hall; assumption. }
    destruct (is_zip p) eqn:Ez; [apply Hskip; [left; exact Ez|exact H]|].
    destruct (getsize E p) as [source_size|] eqn:Eg; [|discriminate].
    assert (Hbad : ~ covered E zf p ->
                   ~ Forall (covered E zf) (p :: rest)).
    { intros Hn Hall. inversion Hall; contradiction. }
    destruct (zf !! PyStr.replace PyStr.backslash "/" (relpath E p)) as [zip_size|] eqn:El.
    + destruct (Z.eqb_spec source_size zip_size) as [->|Hne]; simpl in H.
      * apply Hskip; [|exact H]. right. exists zip_size. split; [exact Eg|exact El].
      * destruct (IH _ _ H) as (m & s & Hm & Hs & _). simpl in Hm, Hs.
        exists m, ((PyStr.replace PyStr.backslash "/" (relpath E p), source_size, zip_size) :: s).
        rewrite <- app_assoc in Hs.
        split; [exact Hm|]. split; [exact Hs|]. split.
        -- intros [_ Hnil]. discriminate.
        -- intros Hall. exfalso. apply Hbad; [|exact Hall].
           intros [Hz|(n & Hn & Hl)]; congruence.
    + destruct (IH _ _ H) as (m & s & Hm & Hs & _). simpl in Hm, Hs.
      exists (PyStr.replace PyStr.backslash "/" (relpath E p) :: m), s.
      rewrite <- app_assoc in Hm.
      split; [exact Hm|]. split; [exact Hs|]. split.
      * intros [Hnil _]. discriminate.
      * intros Hall. exfalso. apply Hbad; [|exact Hall].
        intros [Hz|(n & Hn & Hl)]; congruence.
Qed.

Lemma validate_walk_raises (files : list string) :
  forall r,
    validate_walk E zf files r = None -> ~ Forall (covered E zf) files.
Proof.
  induction files as [|p rest IH]; intros r H Hall; simpl in H; [discriminate|].
  inversion Hall as [|? ? Hp Hrest]; subst.
  destruct (is_zip p) eqn:Ez; [exact (IH _ H Hrest)|].
  destruct Hp as [Hz|(n & Hn & Hl)]; [congruence|].
  rewrite Hn, Hl, Z.eqb_refl in H. simpl in H. exact (IH _ H Hrest).
Qed.

Lemma quick_validate_zip_covered :
  quick_validate_zip E zf = true <->
  Forall (covered E zf) (walk_files (walk_after E)).
Proof.
  unfold quick_validate_zip.
  destruct (validate_walk E zf (walk_files (walk_after E))
                          {| missing_files := []; size_mismatches := [] |}) as [r|] eqn:Ev.
  - destruct (validate_walk_grows _ _ _ Ev) as (m & s & Hm & Hs & Hiff).
    simpl in Hm, Hs. rewrite Hm, Hs. clear Hm Hs Ev. split.
    + intros H. apply Hiff. destruct m, s; try discriminate. auto.
    + intros H. apply Hiff in H. destruct H as [-> ->]. reflexivity.
  - split; [discriminate|]. intros H. exfalso.
    exact (validate_walk_raises _ _ Ev H).
Qed.

End ValidationFacts.

Section ZipFiles.

Import PyFloat Script2.

Lemma zip_files_lookup (name : string) (tr : list zevent) :
  forall acc size,
    zip_files tr acc !! name = Some size ->
    acc !! name = Some size \/ In (name, size) (entries tr).
Proof.
  induction tr as [|e tr IH]; intros acc size H; simpl in H; [left; exact H|].
  destruct e as [| |n s c| |].
  - destruct (IH _ _ H); [left|right]; assumption.
  - destruct (IH _ _ H); [left|right]; assumption.
  - destruct (IH _ _ H) as [Hacc|Hin].
    + destruct (decide (n = name)) as [->|Hne].
      * rewrite lookup_insert_eq in Hacc. injection Hacc as ->.
        right. left. reflexivity.
      * rewrite lookup_insert_ne in Hacc by exact Hne. left. exact Hacc.
    + right. right. exact Hin.
  - destruct (IH _ _ H); [left|right]; assumption.
  - destruct (IH _ _ H); [left|right]; assumption.
Qed.

Lemma zip_files_single (name : string) (size : Z) (tr : list zevent) :
  forall acc,
    (forall size', In (name, size') (entries tr) -> size' = size) ->
    (acc !! name = Some size \/ In (name, size) (entries tr)) ->
    zip_files tr acc !! name = Some size.
Proof.
  induction tr as [|e tr IH]; intros acc Huniq Hin; simpl.
  - destruct Hin as [H|[]]. exact H.
  - destruct e as [| |n s c| |]; try (apply IH; [exact Huniq|exact Hin]).
    apply IH.
    + intros size' H. apply Huniq. right. exact H.
    + destruct (decide (n = name)) as [->|Hne].
      * left. rewrite lookup_insert_eq. f_equal. apply Huniq. left. reflexivity.
      * rewrite lookup_insert_ne by exact Hne.
        destruct Hin as [H|[H|H]]; [left; exact H| |right; exact H].
        injection H as H _. contradiction.
Qed.

End ZipFiles.

(** X15: what the validation checks.  [quick_validate_zip] returns [True]
    exactly when every file of the tree whose path does not end in
    [.zip] has a readable size and the archive's entry of its relative
    path has that size; nothing else about the archive is looked at. *)
Theorem quick_validate_zip_sound_complete (E : Script2.env) (zf : gmap string Z) :
  Script2.quick_validate_zip E zf = true <->
  (forall file_path,
      In file_path (Script2.walk_files (Script2.walk_after E)) ->
      Script2.is_zip file_path = false ->
      exists size,
        Script2.getsize E file_path = Some size /\
        zf !! PyStr.replace PyStr.backslash "/" (Script2.relpath E file_path) = Some size).
Proof.
  rewrite quick_validate_zip_covered, List.Forall_forall. split.
  - intros H p Hin Hz. destruct (H p Hin) as [Hz'|Hc]; [congruence|exact Hc].
  - intros H p Hin. destruct (Script2.is_zip p) eqn:Hz; [left; exact Hz|].
    right. exact (H p Hin Hz).
Qed.

(** ** The retry loop of one entry, further *)

Section EntryRetry.

Import PyFloat Script2.

Variable E : env.
Variable fi : file_info.
Variable compress : bool.
Variable chunk_size : Z.






End EntryRetry.

(** X16: an error that is no [IOError] ends the retry loop at once.  When
    the attempts before the [k]-th end in an [IOError] and the [k]-th ends
    in another exception, [process_single_file] raises after [k + 1]
    attempts; in particular such an error on the first attempt is not
    retried at all. *)
Theorem process_single_file_other_error
        (E : Script2.env) (fi : Script2.file_info) (compress : bool)
        (available_memory : Z) (k : nat) :
  (k < Script2.max_retries)%nat ->
  (forall i, (i < k)%nat ->
             Script2.attempt_outcome E fi compress
               (Script2.get_optimal_chunk_size (snd fi) available_memory) i
             = Script2.IOErr) ->
  Script2.attempt_outcome E fi compress
    (Script2.get_optimal_chunk_size (snd fi) available_memory) k
  = Script2.OtherErr ->
  fst (Script2.process_single_file E fi compress available_memory) = false /\
  Script2.n_attempts (snd (Script2.process_single_file E fi compress available_memory)) = S k.
Proof.
  intros Hk Hfail Hother. unfold Script2.process_single_file.
  apply (attempt_loop_fail_then E fi compress _ Script2.OtherErr k);
    [discriminate|exact Hk|exact Hk| |exact Hother].
  intros i Hi. apply Hfail. lia.
Qed.

Lemma process_single_file_other_error_witness :
  fst (Script2.process_single_file Samples.src_tree_bad_archive_a
                                   ("src/a.bin", "a.bin", 10) false 0) = false /\
  Script2.n_attempts (snd (Script2.process_single_file Samples.src_tree_bad_archive_a
                                                       ("src/a.bin", "a.bin", 10) false 0))
  = 1%nat.
Proof.
  apply (process_single_file_other_error Samples.src_tree_bad_archive_a
           ("src/a.bin", "a.bin", 10) false 0 0).
  - unfold Script2.max_retries. lia.
  - intros i Hi. lia.
  - reflexivity.
Defined.


(** The first attempt on [a.bin] cannot close its entry, the second one
    goes through: two attempts, one entry. *)
Example close_fails_then_one_entry :
  Script2.process_single_file Samples.src_tree_close_fails_a ("src/a.bin", "a.bin", 10) false 0
  = (true, [Script2.ZAttempt "src/a.bin" 0; Script2.ZSleep 1;
            Script2.ZAttempt "src/a.bin" 1; Script2.ZEntry "a.bin" 10 true]).
Proof. vm_compute. reflexivity. Qed.



(** ** The command line of script2.py *)

Section OutputPath.

Import PyFloat Script2.

Lemma lower_app (a b : string) :
  PyStr.lower (a ++ b) = (PyStr.lower a ++ PyStr.lower b)%string.
Proof. induction a as [|c a IH]; simpl; [reflexivity|]. rewrite IH. reflexivity. Qed.

Lemma endswith_refl (s : string) : PyStr.endswith s s = true.
Proof. rewrite endswith_unfold, String.eqb_refl. reflexivity. Qed.

Lemma endswith_app (a b suffix : string) :
  PyStr.endswith b suffix = true -> PyStr.endswith (a ++ b) suffix = true.
Proof.
  intros H. induction a as [|c a IH]; [exact H|].
  change (String c a ++ b)%string with (String c (a ++ b)).
  rewrite endswith_unfold, IH. apply orb_true_r.
Qed.

Lemma is_zip_app (a b : string) : is_zip b = true -> is_zip (a ++ b) = true.
Proof. unfold is_zip. rewrite lower_app. apply endswith_app. Qed.

Lemma is_zip_path_join (a b : string) :
  is_zip b = true -> is_zip (PyStr.path_join a b) = true.
Proof.
  intros H. unfold PyStr.path_join.
  destruct (String.prefix "/" b); [exact H|].
  destruct (String.eqb a "" || PyStr.endswith a "/").
  - apply is_zip_app. exact H.
  - apply is_zip_app. apply (is_zip_app "/"). exact H.
Qed.

Lemma adjust_output_is_zip isdir (source_folder output_zip : string) :
  is_zip (adjust_output isdir source_folder output_zip) = true.
Proof.
  unfold adjust_output.
  destruct (isdir output_zip); simpl.
  - apply is_zip_path_join. apply is_zip_app. reflexivity.
  - destruct (PyStr.endswith (PyStr.lower output_zip) ".zip") eqn:Ez; simpl.
    + exact Ez.
    + apply is_zip_app. reflexivity.
Qed.

End OutputPath.

(** X19: the output path after its adjustment.  Whatever [--output] names,
    the path that [main] hands to the build ends in [.zip] (in any
    letter case), so an output archive that lies inside the source tree is
    never put into itself by the scan and never asked for by the
    validation; a path that is no directory and ends in [.zip] already is
    left as it is. *)
Theorem adjust_output_ends_in_zip
        (isdir : string -> bool) (source_folder output_zip : string) :
  Script2.is_zip (Script2.adjust_output isdir source_folder output_zip) = true /\
  (forall (E : Script2.env) root file,
      PyStr.path_join root file = Script2.adjust_output isdir source_folder output_zip ->
      Script2.scan_file E root file = []) /\
  (forall (E : Script2.env) (zf : gmap string Z),
      Script2.covered E zf (Script2.adjust_output isdir source_folder output_zip)) /\
  (isdir output_zip = false -> Script2.is_zip output_zip = true ->
   Script2.adjust_output isdir source_folder output_zip = output_zip).
Proof.
  pose proof (adjust_output_is_zip isdir source_folder output_zip) as Hz.
  split; [exact Hz|]. split; [|split].
  - intros E root file Heq. unfold Script2.scan_file. rewrite Heq, Hz. reflexivity.
  - intros E zf. left. exact Hz.
  - intros Hd Ho. unfold Script2.adjust_output. unfold Script2.is_zip in Ho.
    rewrite Hd, Ho. reflexivity.
Qed.

Lemma zip_with_builtin_true_covered (E : Script2.env) (compress : bool) :
  fst (Script2.zip_with_builtin E compress true) = Some true ->
  Script2.directory_lost_in (snd (Script2.zip_with_builtin E compress true)) = false ->
  forall file_path,
    In file_path (Script2.walk_files (Script2.walk_after E)) ->
    Script2.is_zip file_path = false ->
    exists size,
      Script2.getsize E file_path = Some size /\
      In (PyStr.replace PyStr.backslash "/" (Script2.relpath E file_path), size)
         (Script2.entries (snd (Script2.zip_with_builtin E compress true))).
Proof.
  intros Eb Hlost file_path Hin Hz.
  destruct (Script2.archive_created E compress) eqn:Hc;
    [|rewrite zip_with_builtin_not_created in Eb by exact Hc; discriminate].
  rewrite zip_with_builtin_result in Eb by exact Hc.
  rewrite zip_with_builtin_trace in Hlost |- * by exact Hc.
  assert (Hv : Script2.quick_validate_zip E
                 (Script2.zip_files
                    (Script2.process_all E compress (Script2.scan E)) ∅) = true).
  { destruct (Script2.elapsed_is_zero E); [discriminate|].
    unfold Script2.validate_build in Eb. rewrite Hlost in Eb.
    destruct (negb (Script2.archive_readable E)); [discriminate|].
    injection Eb as Eb. exact Eb. }
  apply quick_validate_zip_covered in Hv.
  rewrite List.Forall_forall in Hv.
  destruct (Hv file_path Hin) as [Hz'|(size & Hs & Hl)]; [congruence|].
  exists size. split; [exact Hs|].
  apply zip_files_lookup in Hl. destruct Hl as [Hl|Hl]; [|exact Hl].
  rewrite lookup_empty in Hl. discriminate.
Qed.

(** X20: the exit status of script2.py.  A command line that the parser
    refuses ends the script with status 2, and [--help] with status 0.  On
    a parsed command line without [--test-performance] the status is 0 or
    1, and it is 1 exactly when both paths are given, the source exists and
    either the output directory cannot be made or the chosen method does
    not return [True], be it that it returns [False] or that it raises: a
    missing argument and a missing source folder end with status 0.  With
    the built-in method, which is always run with validation, status 0
    after a build in which no attempt has damaged the archive means that
    every file of the tree whose path does not end in [.zip] has a readable
    size and an entry of that size under its relative path. *)
Theorem main_exit_status
        (a : Script2.cli_args) (abspath : string -> string)
        (isdir exists_ : string -> bool) (makedirs_raises : bool)
        (E : string -> string -> Script2.env) (zip_with_7zip : PyFloat.raising bool) :
  Script2.arg_test_performance a = false ->
  let source_folder := abspath (Script2.text (Script2.arg_source a)) in
  let output_zip :=
    Script2.adjust_output isdir source_folder (abspath (Script2.text (Script2.arg_output a))) in
  let build :=
    Script2.zip_with_builtin (E source_folder output_zip) (Script2.arg_compress a) true in
  let success := if Script2.arg_method_7zip a then zip_with_7zip else fst build in
  let status :=
    Script2.main (PyArgparse.Parsed a) abspath isdir exists_ makedirs_raises E zip_with_7zip in
  (status = Some 0 \/ status = Some 1) /\
  (status = Some 1 <->
   Script2.not_given (Script2.arg_source a) = false /\
   Script2.not_given (Script2.arg_output a) = false /\
   exists_ source_folder = true /\
   (makedirs_raises = true \/ success <> Some true)) /\
  (status = Some 0 ->
   Script2.not_given (Script2.arg_source a) = false ->
   Script2.not_given (Script2.arg_output a) = false ->
   exists_ source_folder = true ->
   Script2.arg_method_7zip a = false ->
   Script2.directory_lost_in (snd build) = false ->
   forall file_path,
     In file_path (Script2.walk_files (Script2.walk_after (E source_folder output_zip))) ->
     Script2.is_zip file_path = false ->
     exists size,
       Script2.getsize (E source_folder output_zip) file_path = Some size /\
       In (PyStr.replace PyStr.backslash "/"
                         (Script2.relpath (E source_folder output_zip) file_path), size)
          (Script2.entries (snd build))) /\
  Script2.main PyArgparse.Refused abspath isdir exists_ makedirs_raises E zip_with_7zip
  = Some 2 /\
  Script2.main PyArgparse.Help abspath isdir exists_ makedirs_raises E zip_with_7zip
  = Some 0.
Proof.
  intros Ht source_folder output_zip build success status.
  pose proof (zip_with_builtin_true_covered (E source_folder output_zip)
                                            (Script2.arg_compress a)) as Hcov.
  fold build in Hcov.
  refine ((fun H => conj (proj1 H) (conj (proj1 (proj2 H))
                      (conj (proj2 (proj2 H)) (conj eq_refl eq_refl)))) _).
  subst status success. unfold Script2.main. rewrite Ht.
  fold source_folder. fold output_zip. fold build.
  set (builtin := fst build) in *. clearbody builtin.
  destruct (Script2.not_given (Script2.arg_source a)); cbn [negb orb];
    [split; [left; reflexivity|]; split;
     [split; [discriminate|intros (H & _); discriminate]|intros _ H; discriminate]|].
  destruct (Script2.not_given (Script2.arg_output a)); cbn [negb orb];
    [split; [left; reflexivity|]; split;
     [split; [discriminate|intros (_ & H & _); discriminate]|intros _ _ H; discriminate]|].
  destruct (exists_ source_folder); cbn [negb orb];
    [|split; [left; reflexivity|]; split;
      [split; [discriminate|intros (_ & _ & H & _); discriminate]
      |intros _ _ _ H; discriminate]].
  destruct makedirs_raises.
  { split; [right; reflexivity|]. split; [|discriminate].
    split; [intros _; repeat split; left; reflexivity|reflexivity]. }
  destruct (Script2.arg_method_7zip a).
  { destruct zip_with_7zip as [[|]|]; cbn [negb orb].
    - split; [left; reflexivity|]. split; [|intros _ _ _ _ H; discriminate].
      split; [discriminate|]. intros (_ & _ & _ & [H|H]); [discriminate|contradiction].
    - split; [right; reflexivity|]. split; [|discriminate].
      split; [intros _; repeat split; right; discriminate|reflexivity].
    - split; [right; reflexivity|]. split; [|discriminate].
      split; [intros _; repeat split; right; discriminate|reflexivity]. }
  destruct builtin as [[|]|]; cbn [negb orb].
  - split; [left; reflexivity|]. split.
    { split; [discriminate|]. intros (_ & _ & _ & [H|H]); [discriminate|contradiction]. }
    intros _ _ _ _ _ Hlost. exact (Hcov eq_refl Hlost).
  - split; [right; reflexivity|]. split; [|discriminate].
    split; [intros _; repeat split; right; discriminate|reflexivity].
  - split; [right; reflexivity|]. split; [|discriminate].
    split; [intros _; repeat split; right; discriminate|reflexivity].
Qed.

(** The build of the sample tree [src] into [out], adjusted to [out.zip]. *)
Lemma main_exit_status_witness :
  Script2.main (PyArgparse.Parsed Samples.script2_args)
               (fun p => p) (fun _ => false) (fun _ => true) false
               (fun _ _ => Samples.src_tree) None = Some 0 /\
  exists size,
    Script2.getsize Samples.src_tree "src/a.bin" = Some size /\
    In ("a.bin", size)
       (Script2.entries (snd (Script2.zip_with_builtin Samples.src_tree false true))).
Proof.
  split; [vm_compute; reflexivity|].
  apply (proj1 (proj2 (proj2
           (main_exit_status
              Samples.script2_args
              (fun p => p) (fun _ => false) (fun _ => true) false
              (fun _ _ => Samples.src_tree) None eq_refl)))).
  - vm_compute. reflexivity.
  - reflexivity.
  - reflexivity.
  - reflexivity.
  - reflexivity.
  - vm_compute. reflexivity.
  - vm_compute. auto.
  - vm_compute. reflexivity.
Defined.

(** The output archive cannot be created: the build raises and the script
    ends with status 1. *)
Example main_no_archive :
  Script2.main (PyArgparse.Parsed Samples.script2_args)
               (fun p => p) (fun _ => false) (fun _ => true) false
               (fun _ _ => Samples.src_tree_no_archive) None = Some 1.
Proof. vm_compute. reflexivity. Qed.

(** ** Building and validating a quiet tree *)

Section QuietTree.

Import PyFloat Script2.

Variable E : env.

Lemma walk_files_in (w : list (string * list string)) (p : string) :
  In p (walk_files w) <->
  exists d x, In d w /\ In x (snd d) /\ p = PyStr.path_join (fst d) x.
Proof.
  unfold walk_files. rewrite in_flat_map. split.
  - intros (d & Hd & Hin). apply in_map_iff in Hin. destruct Hin as (x & <- & Hx).
    exists d, x. auto.
  - intros (d & x & Hd & Hx & ->). exists d. split; [exact Hd|].
    apply in_map_iff. exists x. auto.
Qed.

Lemma scan_in (fi : file_info) :
  In fi (scan E) <->
  exists d x, In d (walk E) /\ In x (snd d) /\ kept E (fst d) x = true /\
              fi = info E (fst d) x.
Proof.
  rewrite scan_as_names, in_flat_map. split.
  - intros (d & Hd & Hin). apply in_map_iff in Hin. destruct Hin as (x & <- & Hx).
    apply dir_names_in in Hx. destruct Hx as [Hx Hk]. exists d, x. auto.
  - intros (d & x & Hd & Hx & Hk & ->). exists d. split; [exact Hd|].
    apply in_map_iff. exists x. split; [reflexivity|].
    apply dir_names_in. auto.
Qed.

(** A scanned file is a file of the walk that is no zip file, with its
    relative path and its size. *)
Lemma scan_in_walk (fi : file_info) :
  In fi (scan E) <->
  In (fst (fst fi)) (walk_files (walk E)) /\
  is_zip (fst (fst fi)) = false /\
  snd (fst fi) = relpath E (fst (fst fi)) /\
  getsize E (fst (fst fi)) = Some (snd fi).
Proof.
  rewrite scan_in. split.
  - intros (d & x & Hd & Hx & Hk & ->). unfold info, kept in *. simpl.
    apply andb_true_iff in Hk. destruct Hk as [Hz Hs].
    split; [apply walk_files_in; exists d, x; auto|].
    split; [destruct (is_zip _); [discriminate|reflexivity]|].
    split; [reflexivity|].
    destruct (getsize E (PyStr.path_join (fst d) x)); [reflexivity|discriminate].
  - destruct fi as [[p rel] n]. simpl. intros (Hin & Hz & -> & Hs).
    apply walk_files_in in Hin. destruct Hin as (d & x & Hd & Hx & ->).
    exists d, x. split; [exact Hd|]. split; [exact Hx|].
    unfold kept, info. rewrite Hz, Hs. auto.
Qed.

Lemma flat_map_singleton {A B} (f : A -> list B) (g : A -> B) (l : list A) :
  (forall x, In x l -> f x = [g x]) -> flat_map f l = map g l.
Proof.
  induction l as [|x l IH]; intros H; simpl; [reflexivity|].
  rewrite (H x) by (left; reflexivity). simpl. f_equal.
  apply IH. intros y Hy. apply H. right. exact Hy.
Qed.

Lemma directory_lost_in_app a b :
  directory_lost_in (a ++ b) = directory_lost_in a || directory_lost_in b.
Proof. apply existsb_app. Qed.

(** When the first attempt on every file of the list goes through, no
    attempt of the build loses the directory of the archive. *)
Lemma process_all_first_try compress (all_files : list file_info) :
  (forall fi, In fi all_files ->
              attempt_body
                fi (get_optimal_chunk_size (snd fi) (available_memory E)) 0
                (attempt_at E compress (fst (fst fi)) 0)
              = (Done, [ZEntry (snd (fst fi)) (snd fi) true])) ->
  directory_lost_in (process_all E compress all_files) = false.
Proof.
  induction all_files as [|fi rest IH]; intros H; [reflexivity|].
  cbn [process_all]. unfold process_single_file.
  change (seq 0 max_retries) with (0%nat :: seq 1 2).
  cbn [attempt_loop]. rewrite (H fi) by (left; reflexivity).
  rewrite directory_lost_in_app, IH; [reflexivity|].
  intros fi' Hfi'. apply H. right. exact Hfi'.
Qed.

End QuietTree.

(** X21: building and then validating a quiet tree succeeds.  When the
    empty archive can be created, some time elapses during the build and
    the archive can be opened again for the validation; the tree is the
    same at the validation as at the scan, the sizes of its files can be
    read, no relative path holds a backslash, different files have
    different relative paths, and the first attempt on every scanned file
    writes the whole file, then the validation finds every file and
    [zip_with_builtin] returns [True], with and without compression. *)
Theorem zip_with_builtin_quiet_tree (E : Script2.env) (compress : bool) :
  Script2.archive_created E compress = true ->
  Script2.elapsed_is_zero E = false ->
  Script2.archive_readable E = true ->
  Script2.walk_after E = Script2.walk E ->
  (forall p, In p (Script2.walk_files (Script2.walk E)) ->
             Script2.is_zip p = false ->
             exists n, Script2.getsize E p = Some n) ->
  (forall p, In p (Script2.walk_files (Script2.walk E)) ->
             PyStr.replace PyStr.backslash "/" (Script2.relpath E p) = Script2.relpath E p) ->
  (forall p q, In p (Script2.walk_files (Script2.walk E)) ->
               In q (Script2.walk_files (Script2.walk E)) ->
               Script2.relpath E p = Script2.relpath E q -> p = q) ->
  (forall fi, In fi (Script2.scan E) ->
              Script2.attempt_body
                fi (Script2.get_optimal_chunk_size (snd fi) (Script2.available_memory E)) 0
                (Script2.attempt_at E compress (fst (fst fi)) 0)
              = (Script2.Done, [Script2.ZEntry (snd (fst fi)) (snd fi) true])) ->
  fst (Script2.zip_with_builtin E compress true) = Some true.
Proof.
  intros Hcreated Hclock Hreadable Hsame Hsize Hslash Hinj Hfirst.
  assert (Hentries : Script2.entries (Script2.process_all E compress (Script2.scan E))
                     = map (fun fi => (snd (fst fi), snd fi)) (Script2.scan E)).
  { rewrite process_all_entries_flat. apply flat_map_singleton.
    intros fi Hfi. unfold Script2.process_single_file.
    change (seq 0 Script2.max_retries) with (0%nat :: seq 1 2).
    cbn [Script2.attempt_loop]. rewrite (Hfirst fi Hfi). reflexivity. }
  assert (Hv : Script2.quick_validate_zip E
                 (Script2.zip_files (Script2.process_all E compress (Script2.scan E)) ∅)
               = true).
  { apply quick_validate_zip_covered. rewrite Hsame. apply List.Forall_forall.
    intros p Hp. destruct (Script2.is_zip p) eqn:Hz; [left; exact Hz|].
    right. destruct (Hsize p Hp Hz) as (n & Hn). exists n. split; [exact Hn|].
    rewrite (Hslash p Hp). apply zip_files_single.
    - intros n' Hin. rewrite Hentries in Hin. apply in_map_iff in Hin.
      destruct Hin as (fi & Heq & Hfi). injection Heq as Hrel Hn'.
      apply scan_in_walk in Hfi. destruct Hfi as (Hq & _ & Hrel' & Hsq).
      assert (Hpq : p = fst (fst fi)).
      { apply Hinj; [exact Hp|exact Hq|]. rewrite <- Hrel', Hrel. reflexivity. }
      rewrite <- Hpq in Hsq. rewrite Hn in Hsq. injection Hsq as ->. symmetry. exact Hn'.
    - right. rewrite Hentries. apply in_map_iff.
      exists (p, Script2.relpath E p, n). split; [reflexivity|].
      apply scan_in_walk. simpl. auto. }
  rewrite zip_with_builtin_result by exact Hcreated.
  rewrite Hclock. unfold Script2.validate_build.
  rewrite (process_all_first_try E compress (Script2.scan E) Hfirst), Hreadable, Hv.
  reflexivity.
Qed.

Lemma zip_with_builtin_quiet_tree_witness :
  fst (Script2.zip_with_builtin Samples.src_tree_quiet false true) = Some true.
Proof.
  apply zip_with_builtin_quiet_tree.
  - reflexivity.
  - reflexivity.
  - reflexivity.
  - reflexivity.
  - intros p Hp _. vm_compute in Hp.
    destruct Hp as [<-|[<-|[<-|[]]]]; eexists; vm_compute; reflexivity.
  - intros p Hp. vm_compute in Hp.
    destruct Hp as [<-|[<-|[<-|[]]]]; vm_compute; reflexivity.
  - intros p q Hp Hq. vm_compute in Hp, Hq.
    destruct Hp as [<-|[<-|[<-|[]]]]; destruct Hq as [<-|[<-|[<-|[]]]];
      intros H; try reflexivity; vm_compute in H; discriminate.
  - intros fi Hfi. vm_compute in Hfi.
    destruct Hfi as [<-|[<-|[]]]; vm_compute; reflexivity.
Defined.

(** ** The helpers of script2.py that the script does not call *)

(** X22: [calculate_md5] of script2.py.  The digest is that of the whole
    content of the file when the file is not empty and either is smaller
    than 10 MiB or is read with a chunk size other than 0; an empty file
    makes the call raise, and a file of 10 MiB or more read with chunk size
    0 gets the digest of the empty input. *)
Theorem script2_calculate_md5
        (hexdigest_of : list Byte.byte -> string) (data : list Byte.byte) (chunk_size : Z) :
  (data <> [] ->
   Z.of_nat (length data) < 10 * 1024 * 1024 \/ chunk_size <> 0 ->
   Script2.calculate_md5 hexdigest_of data chunk_size = Some (hexdigest_of data)) /\
  (data = [] -> Script2.calculate_md5 hexdigest_of data chunk_size = None) /\
  (10 * 1024 * 1024 <= Z.of_nat (length data) ->
   Script2.calculate_md5 hexdigest_of data 0 = Some (hexdigest_of [])).
Proof.
  refine (conj _ (conj _ _)).
  - intros Hne Hor. unfold Script2.calculate_md5.
    destruct data as [|b data]; [contradiction|].
    destruct (Z.ltb_spec (Z.of_nat (length (b :: data))) (10 * 1024 * 1024)) as [Hs|Hl].
    + reflexivity.
    + destruct Hor as [Hs|Hc]; [lia|].
      rewrite fold_fed. simpl app. do 2 f_equal.
      apply read_loop_concat; [exact Hc|lia].
  - intros ->. reflexivity.
  - intros Hl. unfold Script2.calculate_md5.
    destruct data as [|b data]; [simpl in Hl; lia|].
    destruct (Z.ltb_spec (Z.of_nat (length (b :: data))) (10 * 1024 * 1024)) as [Hs|_];
      [lia|].
    rewrite chunks_zero. reflexivity.
Qed.

(** X23: [validate_zip_integrity] returns [True] exactly when the
    relative path of every file of the tree, zip files included, is among
    the names of the archive; the sizes are not looked at. *)
Theorem validate_zip_integrity_names (E : Script2.env) (namelist : list string) :
  Script2.validate_zip_integrity E namelist = true <->
  (forall file_path,
      In file_path (Script2.walk_files (Script2.walk_after E)) ->
      In (PyStr.replace PyStr.backslash "/" (Script2.relpath E file_path)) namelist).
Proof.
  unfold Script2.validate_zip_integrity.
  match goal with |- context [decide ?P] => destruct (decide P) as [He|Hne] end.
  - split; [|reflexivity]. intros _ p Hp.
    apply list_elem_of_In.
    destruct (decide (PyStr.replace PyStr.backslash "/" (Script2.relpath E p) ∈ namelist))
      as [Hin|Hout]; [exact Hin|].
    exfalso.
    assert (Hx : PyStr.replace PyStr.backslash "/" (Script2.relpath E p)
                 ∈ (∅ : gset string)).
    { rewrite <- He. apply elem_of_difference. split.
      - apply elem_of_list_to_set, list_elem_of_In, in_map_iff. exists p. auto.
      - rewrite elem_of_list_to_set. exact Hout. }
    exact (not_elem_of_empty _ Hx).
  - split; [discriminate|]. intros H. exfalso. apply Hne.
    apply set_eq. intros x. split.
    + intros Hx. apply elem_of_difference in Hx. destruct Hx as [Hs Hz]. exfalso. apply Hz.
      apply elem_of_list_to_set, list_elem_of_In in Hs. apply in_map_iff in Hs.
      destruct Hs as (p & <- & Hp).
      apply elem_of_list_to_set, list_elem_of_In. exact (H p Hp).
    + intros Hx. exfalso. exact (not_elem_of_empty _ Hx).
Qed.

(** ** nexus-upload-script.py: the archive, the upload and the exit status *)

Section NexusArchive.

Import PyFloat Nexus.

Lemma add_files_all adds (files_list : list glob_entry) :
  (fst (add_files adds files_list) = true <->
   forall f, In f files_list ->
             (exists file_size, st_size f = Some file_size) /\ adds (file_path f) = true) /\
  (fst (add_files adds files_list) = true ->
   snd (add_files adds files_list)
   = map (fun f => (arcname f, written_how (match st_size f with
                                            | Some file_size => file_size
                                            | None => 0
                                            end))) files_list).
Proof.
  induction files_list as [|f rest [IH1 IH2]]; simpl.
  - split; [split; [intros _ f []|reflexivity]|reflexivity].
  - destruct (st_size f) as [file_size|] eqn:Es.
    + destruct (adds (file_path f)) eqn:Ea.
      * destruct (add_files adds rest) as [ok written]. simpl in *. split.
        -- split.
           ++ intros Hok g [<-|Hg]; [split; [eauto|exact Ea]|]. apply IH1; assumption.
           ++ intros H. apply IH1. intros g Hg. apply H. right. exact Hg.
        -- intros Hok. rewrite (IH2 Hok). reflexivity.
      * simpl. split; [|discriminate]. split; [discriminate|].
        intros H. rewrite <- Ea. apply H. left. reflexivity.
    + simpl. split; [|discriminate]. split; [discriminate|].
      intros H. destruct (H f (or_introl eq_refl)) as [(n & Hn) _]. congruence.
Qed.

(** The first pass goes through when every [stat] does, and yields the
    sizes in order. *)
Lemma scan_sizes_some (files : list glob_entry) (sizes : list Z) :
  scan_sizes files = Some sizes <-> map st_size files = map Some sizes.
Proof.
  revert sizes. induction files as [|f rest IH]; intros sizes; simpl.
  - split.
    + intros H. injection H as <-. reflexivity.
    + destruct sizes; [reflexivity|discriminate].
  - destruct (st_size f) as [file_size|].
    + destruct (scan_sizes rest) as [sizes'|].
      * split.
        -- intros H. injection H as <-. simpl. f_equal. apply IH. reflexivity.
        -- destruct sizes as [|n sizes]; [discriminate|]. simpl. intros H.
           injection H as -> H. apply IH in H. injection H as ->. reflexivity.
      * split; [discriminate|].
        destruct sizes as [|n sizes]; [discriminate|]. simpl. intros H.
        injection H as _ H. apply IH in H. discriminate.
    + split; [discriminate|]. destruct sizes; discriminate.
Qed.

Lemma all_empty_iff (sizes : list Z) :
  forallb (fun file_size => file_size <=? 0) sizes = false <->
  exists file_size, In file_size sizes /\ 0 < file_size.
Proof.
  induction sizes as [|n rest IH]; simpl.
  - split; [discriminate|intros (n & [] & _)].
  - destruct (Z.leb_spec n 0) as [Hle|Hgt]; simpl.
    + rewrite IH. split.
      * intros (m & Hm & Hs). exists m. auto.
      * intros (m & [<-|Hm] & Hs); [lia|]. exists m. auto.
    + split; [|reflexivity]. intros _. exists n. auto.
Qed.

End NexusArchive.

(** X24: when [create_zip_archive] returns.  It returns the output path,
    which is the one given or else [files_<timestamp>.zip], exactly when
    the source is a directory, the first pass over it can read the size of
    every file and finds one that is not empty, the output file can be
    opened, every file that the second pass finds, made once the output
    file exists, has a readable size and can be added, and the archive can
    be closed; every file of the second pass is then in the archive, in
    its order, read in chunks when larger than 1 GiB.  In all other cases
    it raises: in particular for a directory that holds only empty
    files. *)
Theorem create_zip_archive_returns
        (is_dir : bool) (glob glob_again : list Nexus.glob_entry) (archive_opens : bool)
        (adds : string -> bool) (archive_closes : bool)
        (output_path : option string) (timestamp : string) :
  let result := Nexus.create_zip_archive is_dir glob glob_again archive_opens adds
                                         archive_closes output_path timestamp in
  (forall p,
      fst result = Some p <->
      p = Nexus.output_name output_path timestamp /\ is_dir = true /\
      (exists sizes,
          map Nexus.st_size (List.filter Nexus.is_file glob) = map Some sizes /\
          exists file_size, In file_size sizes /\ 0 < file_size) /\
      archive_opens = true /\
      (forall f, In f (List.filter Nexus.is_file glob_again) ->
                 (exists file_size, Nexus.st_size f = Some file_size) /\
                 adds (Nexus.file_path f) = true) /\
      archive_closes = true) /\
  (fst result <> None ->
   snd result
   = map (fun f => (Nexus.arcname f,
                    Nexus.written_how (match Nexus.st_size f with
                                       | Some file_size => file_size
                                       | None => 0
                                       end)))
         (List.filter Nexus.is_file glob_again)) /\
  (Nexus.output_name None timestamp = ("files_" ++ timestamp ++ ".zip")%string /\
   forall p, p <> EmptyString -> Nexus.output_name (Some p) timestamp = p).
Proof.
  intros result. subst result.
  refine ((fun H => conj (proj1 H) (conj (proj2 H) _)) _).
  { split; [reflexivity|]. intros p Hp. unfold Nexus.output_name, Nexus.not_given.
    destruct (String.eqb_spec p ""); [contradiction|reflexivity]. }
  unfold Nexus.create_zip_archive.
  set (files := List.filter Nexus.is_file glob).
  set (files_list := List.filter Nexus.is_file glob_again).
  destruct is_dir; cbn [negb];
    [|split; [intros p; split; [discriminate|intros (_ & H & _); discriminate]
             |intros H; contradiction]].
  destruct (Nexus.scan_sizes files) as [sizes|] eqn:Es.
  2:{ split; [|intros H; contradiction].
      intros p. split; [discriminate|]. intros (_ & _ & (sizes & Hs & _) & _).
      apply scan_sizes_some in Hs. congruence. }
  assert (Hsizes : forall sizes', map Nexus.st_size files = map Some sizes' -> sizes' = sizes).
  { intros sizes' Hs. apply scan_sizes_some in Hs. congruence. }
  apply scan_sizes_some in Es.
  destruct (length sizes =? 0)%nat eqn:El.
  { apply Nat.eqb_eq, length_zero_iff_nil in El. subst sizes.
    split; [|intros H; contradiction].
    intros p. split; [discriminate|].
    intros (_ & _ & (sizes' & Hs & n & Hn & _) & _).
    apply Hsizes in Hs. subst sizes'. destruct Hn. }
  destruct (forallb (fun file_size => file_size <=? 0) sizes) eqn:Ea.
  { split; [|intros H; contradiction].
    intros p. split; [discriminate|].
    intros (_ & _ & (sizes' & Hs & Hex) & _).
    apply Hsizes in Hs. subst sizes'. apply all_empty_iff in Hex. congruence. }
  apply all_empty_iff in Ea.
  destruct archive_opens; cbn [negb];
    [|split; [intros p; split; [discriminate|intros (_ & _ & _ & H & _); discriminate]
             |intros H; contradiction]].
  destruct (add_files_all adds files_list) as [Hall Hmap].
  destruct (Nexus.add_files adds files_list) as [ok written]. cbn [fst snd] in *.
  destruct ok; cbn [andb].
  - destruct archive_closes; cbn [fst snd].
    + split; [|intros _; apply Hmap; reflexivity].
      intros p. split.
      * intros H. injection H as <-. split; [reflexivity|]. split; [reflexivity|].
        split; [exists sizes; split; [exact Es|exact Ea]|].
        split; [reflexivity|]. split; [apply Hall; reflexivity|reflexivity].
      * intros (-> & _). reflexivity.
    + split; [|intros H; contradiction].
      intros p. split; [discriminate|]. intros (_ & _ & _ & _ & _ & H). discriminate.
  - cbn [fst snd]. split; [|intros H; contradiction].
    intros p. split; [discriminate|]. intros (_ & _ & _ & _ & H & _).
    apply Hall in H. discriminate.
Qed.

(** The output lies in the source directory: the second pass finds it,
    still empty, and the archive gets an entry for itself. *)
Example archive_holds_itself :
  Nexus.create_zip_archive true Samples.one_file Samples.one_file_and_output true
                           (fun _ => true) true (Some "d/out.zip") "t"
  = (Some "d/out.zip", [("a.bin", Nexus.WriteStr); ("out.zip", Nexus.WriteStr)]).
Proof. vm_compute. reflexivity. Qed.

Section NexusMain.

Import Nexus.



End NexusMain.


(** A server that answers 500: the script still ends with status 0, and
    the archive stays. *)
Example nexus_main_upload_refused :
  Nexus.main (PyArgparse.Parsed Samples.nexus_args) Samples.nexus_refusing
  = (0, [Nexus.Created [("a.bin", Nexus.WriteStr)];
         Nexus.Put "http://nexus/repository/raw/out.zip"]).
Proof. vm_compute. reflexivity. Qed.

(** ** gcs-test.py *)

Section GcsFacts.

Import Gcs.

Variable E : env.

Lemma uploads_app a b : uploads (a ++ b) = uploads a ++ uploads b.
Proof. apply flat_map_app. Qed.

Lemma commands_app a b : commands (a ++ b) = commands a ++ commands b.
Proof. apply flat_map_app. Qed.

Lemma upload_files_prefix dest (files : list string) :
  exists n,
    snd (upload_files E dest files)
    = map (fun p => Upload p (PyStr.path_join dest (relpath E p))) (firstn n files) /\
    (fst (upload_files E dest files) <> None -> firstn n files = files) /\
    (fst (upload_files E dest files) = None ->
     exists p, nth_error files n = Some p /\ upload_raises E p = true).
Proof.
  induction files as [|p rest (n & Hn & Hall & Hraise)]; simpl.
  - exists 0%nat. split; [reflexivity|]. split; [reflexivity|discriminate].
  - destruct (upload_raises E p) eqn:Eu.
    + exists 0%nat. split; [reflexivity|]. split; [intros H; contradiction|].
      intros _. exists p. auto.
    + destruct (upload_files E dest rest) as [r tr]. simpl in *.
      exists (S n). simpl. rewrite Hn. split; [reflexivity|].
      split; [intros H; rewrite (Hall H); reflexivity|exact Hraise].
Qed.

Lemma uploads_of_map (f : string -> string) (l : list string) :
  uploads (map (fun p => Upload p (f p)) l) = map (fun p => (p, f p)) l.
Proof. induction l as [|p l IH]; simpl; [reflexivity|]. rewrite <- IH. reflexivity. Qed.

Lemma commands_of_uploads dest (files : list string) :
  commands (snd (upload_files E dest files)) = [].
Proof.
  induction files as [|p rest IH]; simpl; [reflexivity|].
  destruct (upload_raises E p); [reflexivity|].
  destruct (upload_files E dest rest) as [r tr]. exact IH.
Qed.

End GcsFacts.

(** X26: what [upload_to_gcs] uploads.  The files of the clone are
    uploaded in the order of the walk, each to the blob
    [destination/relative path], up to the first upload that raises; when
    the function returns, every file has been uploaded. *)
Theorem upload_to_gcs_in_walk_order (E : Gcs.env) (destination_blob_name : string) :
  let files := flat_map (fun d => map (PyStr.path_join (fst d)) (snd d)) (Gcs.walk E) in
  exists n,
    Gcs.uploads (snd (Gcs.upload_to_gcs E destination_blob_name))
    = map (fun p => (p, PyStr.path_join destination_blob_name (Gcs.relpath E p)))
          (firstn n files) /\
    (fst (Gcs.upload_to_gcs E destination_blob_name) <> None -> firstn n files = files) /\
    (fst (Gcs.upload_to_gcs E destination_blob_name) = None ->
     Gcs.client_raises E = true \/
     exists p, nth_error files n = Some p /\ Gcs.upload_raises E p = true).
Proof.
  intros files. unfold Gcs.upload_to_gcs. fold files.
  destruct (Gcs.client_raises E).
  - exists 0%nat. split; [reflexivity|]. split; [intros H; contradiction|].
    intros _. left. reflexivity.
  - destruct (upload_files_prefix E destination_blob_name files) as (n & Hn & Hall & Hraise).
    exists n. split.
    + rewrite Hn. apply (uploads_of_map
                           (fun p => PyStr.path_join destination_blob_name (Gcs.relpath E p))).
    + split; [exact Hall|]. intros H. right. exact (Hraise H).
Qed.

(** X27: the steps of [main] of gcs-test.py.  When [git lfs install]
    fails the function returns at once, without an error; a failed clone
    raises, after the directory has been made, and nothing is uploaded;
    nothing is uploaded unless both commands succeeded.  The outcome of
    [git lfs pull] is not looked at: when it fails the upload goes on just
    the same. *)
Theorem gcs_main_steps (E : Gcs.env) (repo_url timestamp : string) :
  let local_dir := Gcs.local_dir_of repo_url timestamp in
  let install := ["git"; "lfs"; "install"] in
  let clone := ["git"; "clone"; repo_url; local_dir] in
  let pull := ["git"; "-C"; local_dir; "lfs"; "pull"] in
  let result := Gcs.main E repo_url timestamp in
  (Gcs.run E install = Gcs.ExitsNonZero -> result = (Some tt, [Gcs.Run install])) /\
  (Gcs.uploads (snd result) <> [] ->
   Gcs.run E install = Gcs.Succeeds /\ Gcs.run E clone = Gcs.Succeeds /\
   Gcs.run E pull <> Gcs.CannotStart) /\
  (Gcs.run E install = Gcs.Succeeds -> Gcs.makedirs_raises E = false ->
   Gcs.run E clone = Gcs.ExitsNonZero ->
   fst result = None /\
   snd result = [Gcs.Run install; Gcs.Makedirs local_dir; Gcs.Run clone]) /\
  (Gcs.run E install = Gcs.Succeeds -> Gcs.makedirs_raises E = false ->
   Gcs.run E clone = Gcs.Succeeds -> Gcs.run E pull <> Gcs.CannotStart ->
   fst result = fst (Gcs.upload_to_gcs E (PyStr.basename local_dir)) /\
   Gcs.commands (snd result) = [install; clone; pull] /\
   Gcs.uploads (snd result)
   = Gcs.uploads (snd (Gcs.upload_to_gcs E (PyStr.basename local_dir)))).
Proof.
  intros local_dir install clone pull result.
  subst result. unfold Gcs.main, Gcs.run_command.
  fold local_dir. fold install. fold clone. fold pull.
  assert (Hup : Gcs.commands (snd (Gcs.upload_to_gcs E (PyStr.basename local_dir))) = []).
  { unfold Gcs.upload_to_gcs. destruct (Gcs.client_raises E); [reflexivity|].
    apply commands_of_uploads. }
  destruct (Gcs.run E install) eqn:Ei.
  2:{ cbn. refine (conj _ (conj _ (conj _ _))); try discriminate.
      - reflexivity.
      - intros H. contradiction. }
  2:{ cbn. refine (conj _ (conj _ (conj _ _))); try discriminate.
      intros H. contradiction. }
  destruct (Gcs.makedirs_raises E) eqn:Em.
  { cbn. refine (conj _ (conj _ (conj _ _))); try discriminate.
    intros H. contradiction. }
  destruct (Gcs.run E clone) eqn:Ec.
  2:{ cbn. refine (conj _ (conj _ (conj _ _))); try discriminate.
      - intros H. contradiction.
      - intros _ _ _. split; reflexivity. }
  2:{ cbn. refine (conj _ (conj _ (conj _ _))); try discriminate.
      intros H. contradiction. }
  destruct (Gcs.run E pull) eqn:Ep.
  3:{ cbn. refine (conj _ (conj _ (conj _ _))); try discriminate.
      - intros H. contradiction.
      - intros _ _ _ H. contradiction. }
  - unfold Gcs.verify_clone.
    destruct (Gcs.upload_to_gcs E (PyStr.basename local_dir)) as [r tr].
    cbn [fst snd] in *. rewrite uploads_app, commands_app, Hup.
    refine (conj _ (conj _ (conj _ _))); try discriminate.
    + intros _. repeat split; discriminate.
    + intros _ _ _ _. repeat split; reflexivity.
  - unfold Gcs.verify_clone.
    destruct (Gcs.upload_to_gcs E (PyStr.basename local_dir)) as [r tr].
    cbn [fst snd] in *. rewrite uploads_app, commands_app, Hup.
    refine (conj _ (conj _ (conj _ _))); try discriminate.
    + intros _. repeat split; discriminate.
    + intros _ _ _ _. repeat split; reflexivity.
Qed.

(** A run in which [git lfs pull] fails: the clone is uploaded all the
    same, and [main] returns normally. *)
Example gcs_main_pull_fails :
  Gcs.local_dir_of "https://host/org/repo.git" "t" = "repo_t" /\
  Gcs.main Samples.pull_fails "https://host/org/repo.git" "t"
  = (Some tt,
     [Gcs.Run ["git"; "lfs"; "install"];
      Gcs.Makedirs "repo_t";
      Gcs.Run ["git"; "clone"; "https://host/org/repo.git"; "repo_t"];
      Gcs.Run ["git"; "-C"; "repo_t"; "lfs"; "pull"];
      Gcs.Upload "repo_t/README" "repo_t/README"]).
Proof. split; vm_compute; reflexivity. Qed.
